(** * Shelter recommendation service (Root_Project/app.py)

    A shallow embedding of the scoring and ranking code of [app.py], and
    the properties its specification states about it.

    Numbers are modelled as Python has them: an [int] is a [Z], a [float] is
    the IEEE 754 binary64 type of the kernel ([PrimFloat.float]), whose
    operations round to nearest, ties to even, like the C doubles underneath
    CPython.  A dictionary is a finite map ([gmap]) with string keys, decoded
    JSON is the inductive type [json], and a raised exception is the [Raise]
    case of [result]; an endpoint answers with [Json200] or, from its
    [except Exception] clause, with [Error500].

    What the program calls and does not define is a parameter: the shelter
    table ([load_shelter_data]) and the random draws are arguments of the
    endpoints, the geodesic distance and the text parsers of [int], [float]
    and [str] are the fields of [Externals].  The built-ins [round], [min],
    [max], [sorted] and slicing are modelled in [Py], [sorted_by] and
    [slice]. *)

From Stdlib Require Import ZArith Lia Floats.
From stdpp Require Import base option list gmap strings sorting.

#[local] Open Scope Z_scope.
#[local] Set Warnings "-register-all".

(** ** Exceptions and results *)

Inductive exn :=
  | KeyError | ValueError | TypeError | OverflowError | FileNotFoundError.

Inductive result (A : Type) :=
  | Ok (a : A)
  | Raise (e : exn).
Arguments Ok {A} a.
Arguments Raise {A} e.

Definition rbind {A B} (r : result A) (k : A → result B) : result B :=
  match r with
  | Ok a => k a
  | Raise e => Raise e
  end.

Notation "x ← r ;;; k" := (rbind r (λ x, k))
  (at level 20, r at level 100, k at level 200, right associativity,
   format "'[' x  ←  r  ;;; '/' k ']'").
Notation "' p ← r ;;; k" := (rbind r (λ x, let 'p := x in k))
  (at level 20, p pattern, r at level 100, k at level 200, right associativity).

(** A left-to-right loop whose body may raise: the first exception ends it. *)
Fixpoint foldM {A B} (f : B → A → result B) (acc : B) (l : list A) : result B :=
  match l with
  | [] => Ok acc
  | x :: l' => acc' ← f acc x ;;; foldM f acc' l'
  end.

Fixpoint mapM_result {A B} (f : A → result B) (l : list A) : result (list B) :=
  match l with
  | [] => Ok []
  | x :: l' => y ← f x ;;; ys ← mapM_result f l' ;;; Ok (y :: ys)
  end.

(** ** Decoded JSON

    What [request.json] hands to the endpoints ([json.loads]): integers are
    Python [int]s, reals are [float]s (a literal too large for a double,
    such as [1e999], decodes to an infinity, and [json.loads] also reads
    [NaN] and [Infinity]), objects are [dict]s. *)

Inductive json :=
  | JNull
  | JBool (b : bool)
  | JInt (z : Z)
  | JFloat (f : float)
  | JStr (s : string)
  | JArr (l : list json)
  | JObj (o : gmap string json).

(** ** Python's numeric built-ins *)

Module Py.

(** [float(n)] for an [int]: the nearest double, ties to even. *)
Definition Z2F (z : Z) : float :=
  SF2Prim (binary_normalize prec emax z 0 false).

(** A number as the interpreter holds it: an [int] or a [float]. *)
Inductive number :=
  | Int (z : Z)
  | Float (f : float).

(** The float an arithmetic operation with a float operand converts a number
    to (the ints of this program are small, and exact as doubles). *)
Definition to_float (n : number) : float :=
  match n with
  | Int z => Z2F z
  | Float f => f
  end.

(** [a + b]: exact on two ints; with a float operand, the sum of the two as
    floats. *)
Definition add (a b : number) : number :=
  match a, b with
  | Int x, Int y => Int (x + y)
  | _, _ => Float (to_float a + to_float b)
  end.

(** [a / b], true division: on two small ints too it is the quotient of the
    two as floats. *)
Definition truediv (a b : number) : float := (to_float a / to_float b)%float.

(** [float(n)] raises [OverflowError] when the int is too large. *)
Definition float_of_int (z : Z) : result float :=
  let f := Z2F z in
  if is_infinity f then Raise OverflowError else Ok f.

(** [min(a, b)] keeps [a] unless [b < a]; [max(a, b)] keeps [a] unless
    [b > a].  With a NaN operand every comparison is false. *)
Definition min (a b : float) : float := if (b <? a)%float then b else a.
Definition max (a b : float) : float := if (a <? b)%float then b else a.

(** Nearest integer to [p / q], ties to even ([0 <= p], [0 < q]). *)
Definition rne_div (p q : Z) : Z :=
  let k := p / q in
  match 2 * (p mod q) ?= q with
  | Lt => k
  | Eq => if Z.even k then k else k + 1
  | Gt => k + 1
  end.

(** The number of tenths nearest to [m * 2^e], ties to even. *)
Definition tenths (m : positive) (e : Z) : Z :=
  if 0 <=? e then 10 * Z.pos m * 2 ^ e
  else rne_div (10 * Z.pos m) (2 ^ (- e)).

(** [round(x, 1)] on a float (CPython's [double_round]): the exact value of
    [x] is rounded to the nearest decimal with one fractional digit, ties to
    even, and that decimal is converted back to the nearest double; the sign
    is kept, NaN and the infinities round to themselves.  From [2^53] tenths
    on, doubles are at least [1/8] apart while the decimal is within [1/20]
    of [x], so the nearest double is [x] itself; below, the count of tenths
    is an exact double and the division rounds correctly. *)
Definition round1 (x : float) : float :=
  match Prim2SF x with
  | S754_finite s m e =>
      let n := tenths m e in
      if 2 ^ 53 <=? n then x
      else
        let r := (of_uint63 (Uint63.of_Z n) / 10)%float in
        if s then (- r)%float else r
  | _ => x
  end.

(** [int(x)] on a float truncates toward zero; NaN raises [ValueError] and an
    infinity raises [OverflowError]. *)
Definition int_of_float (x : float) : result Z :=
  match Prim2SF x with
  | S754_nan => Raise ValueError
  | S754_infinity _ => Raise OverflowError
  | S754_zero _ => Ok 0
  | S754_finite s m e =>
      let a := if 0 <=? e then Z.pos m * 2 ^ e else Z.pos m / 2 ^ (- e) in
      Ok (if s then - a else a)
  end.

End Py.

(** ** What the program takes from outside

    The text parsers behind [int(str)] and [float(str)], [str(x)] on a value
    that is not a string, and geopy's [geodesic(p, q).meters], which raises on
    coordinates it rejects. *)

Class Externals := {
  int_of_str : string → option Z;
  float_of_str : string → option float;
  str_of : json → string;
  geodesic_meters : json * json → json * json → result float;
}.

(** ** Conversions applied to decoded JSON *)

Section Conversions.
Context `{Externals}.

(** [float(v)] *)
Definition py_float (v : json) : result float :=
  match v with
  | JInt z => Py.float_of_int z
  | JFloat f => Ok f
  | JBool b => Ok (if b then 1 else 0)%float
  | JStr s =>
      match float_of_str s with
      | Some f => Ok f
      | None => Raise ValueError
      end
  | JNull | JArr _ | JObj _ => Raise TypeError
  end.

(** [int(v)] *)
Definition py_int (v : json) : result Z :=
  match v with
  | JInt z => Ok z
  | JBool b => Ok (if b then 1 else 0)
  | JFloat f => Py.int_of_float f
  | JStr s =>
      match int_of_str s with
      | Some z => Ok z
      | None => Raise ValueError
      end
  | JNull | JArr _ | JObj _ => Raise TypeError
  end.

(** [str(v)] *)
Definition py_str (v : json) : string :=
  match v with
  | JStr s => s
  | _ => str_of v
  end.

End Conversions.

(** [d[k]] on a value that should be a dict: [KeyError] when the key is
    missing, [TypeError] when the value cannot be indexed by a string. *)
Definition getitem (d : json) (k : string) : result json :=
  match d with
  | JObj o =>
      match o !! k with
      | Some v => Ok v
      | None => Raise KeyError
      end
  | _ => Raise TypeError
  end.

(** [d[k] = v] on a value that should be a dict. *)
Definition setitem (d : json) (k : string) (v : json) : result json :=
  match d with
  | JObj o => Ok (JObj (<[ k := v ]> o))
  | _ => Raise TypeError
  end.

(** [d.get(k)]: [None] when the key is missing. *)
Definition get (o : gmap string json) (k : string) : json :=
  default JNull (o !! k).

(** Iterating over a decoded value: a list gives its elements, a string its
    characters and a dict its keys (strings in both cases); nothing else is
    iterable. *)
Definition py_iter (v : json) : result (list json) :=
  match v with
  | JArr l => Ok l
  | JStr s => Ok ((λ c, JStr (String c EmptyString)) <$> String.list_ascii_of_string s)
  | JObj o => Ok ((λ kv, JStr kv.1) <$> map_to_list o)
  | _ => Raise TypeError
  end.

(** ** The recommendation score (lines 30-102) *)

Record user_profile := {
  needs : gmap string string;
  total_people : Z;
}.

Definition PRIORITY_WEIGHTS : gmap string Z :=
  <[ "最高" := 10 ]> (
  <[ "高" := 6 ]> (
  <[ "中" := 3 ]> (
  <[ "低" := -5 ]> (
  <[ "最低" := -20 ]> ∅)))).

(** [PRIORITY_WEIGHTS.get(priority, 3)] *)
Definition weight_of (priority : string) : Z :=
  default 3 (PRIORITY_WEIGHTS !! priority).

(** [user_profile["needs"].get(item, "中")] followed by the weight lookup. *)
Definition item_weight (up : user_profile) (item : string) : Z :=
  weight_of (default "中" (needs up !! item)).

Definition supply_items : list string := ["supply_a"; "supply_b"; "supply_c"].

(** Lines 56-57: only what the user wants counts toward the full mark. *)
Definition add_wanted (total_weight weight : Z) : Z :=
  if 0 <? weight then total_weight + weight else total_weight.

(** Lines 62-66: stock earns the whole weight from 20 on and half of it
    below, whatever the sign of the weight.  [acquired_weight] is an int
    until a half weight ([weight * 0.5], a float) is added to it. *)
Definition add_stocked (acquired_weight : Py.number) (weight : Z) (item_stock : float)
    : Py.number :=
  if (20 <=? item_stock)%float then Py.add acquired_weight (Py.Int weight)
  else if (0 <? item_stock)%float then
    Py.add acquired_weight (Py.Float (Py.Z2F weight * 0.5))
  else acquired_weight.

(** The supply score before rounding (lines 69-80). *)
Definition supply_score_of (total_weight : Z) (acquired_weight : Py.number) : float :=
  let supply_score :=
    if 0 <? total_weight then
      (Py.truediv acquired_weight (Py.Int total_weight) * 100)%float
    else (100 + Py.to_float acquired_weight)%float in
  Py.min 100 supply_score.

(** The blend of congestion and supply before rounding (lines 84-100).
    [max(0, 100 - congestion_val)] may be the int 0, which the product with
    the float weight turns into the float 0. *)
Definition total_score_of (people_count : Z) (congestion_val supply_score : float)
    : float :=
  let '(congestion_score, w_congestion, w_supply) :=
    if 6 <=? people_count then
      (Py.max 0 (100 - congestion_val), 7, 3)%float
    else (congestion_val, 5, 5)%float in
  ((congestion_score * w_congestion + supply_score * w_supply)
   / (w_congestion + w_supply))%float.

Section Score.
Context `{Externals}.

(** One turn of the loop over the three items. *)
Definition supply_step (up : user_profile) (shelter_features : json)
    (acc : Z * Py.number) (item : string) : result (Z * Py.number) :=
  let '(total_weight, acquired_weight) := acc in
  let weight := item_weight up item in
  let total_weight := add_wanted total_weight weight in
  v ← getitem shelter_features item ;;;
  item_stock ← py_float v ;;;
  Ok (total_weight, add_stocked acquired_weight weight item_stock).

Definition calculate_recommendation_score (up : user_profile)
    (shelter_features : json) : result (float * float) :=
  v ← getitem shelter_features "congestion" ;;;
  congestion_val ← py_float v ;;;
  '(total_weight, acquired_weight) ←
    foldM (supply_step up shelter_features) (0, Py.Int 0) supply_items ;;;
  let supply_score := supply_score_of total_weight acquired_weight in
  let total_score := total_score_of (total_people up) congestion_val supply_score in
  Ok (Py.round1 total_score, Py.round1 supply_score).

End Score.

(** ** The score as the specification words it (section 4.2) *)

Module Spec.

(** The five labels of the priority table. *)
Definition Highest : string := "最高".
Definition High : string := "高".
Definition Medium : string := "中".
Definition Low : string := "低".
Definition Lowest : string := "最低".

(** "If [w > 0], add [w] to [totalWeight]." *)
Definition wanted (w : Z) : Z := if 0 <? w then w else 0.

Definition totalWeight (wa wb wc : Z) : Z := wanted wa + wanted wb + wanted wc.

(** "[w] if that item's stock >= 20; [w * 0.5] if [0 < stock < 20]; [0] if
    stock is 0."  (The specification has no other stock; a negative one or
    a NaN counts as none here.) *)
Definition gain (w : Z) (stock : float) : float :=
  if (20 <=? stock)%float then Py.Z2F w
  else if (0 <? stock)%float && (stock <? 20)%float then (Py.Z2F w * 0.5)%float
  else 0%float.

Definition acquiredWeight (wa wb wc : Z) (sa sb sc : float) : float :=
  (gain wa sa + gain wb sb + gain wc sc)%float.

(** Step 2, with the upper clamp. *)
Definition supplyScore (wa wb wc : Z) (sa sb sc : float) : float :=
  let acquired := acquiredWeight wa wb wc sa sb sc in
  let total := totalWeight wa wb wc in
  Py.min 100
    (if 0 <? total then (acquired / Py.Z2F total * 100)%float
     else (100 + acquired)%float).

End Spec.

(** ** Sorting and slicing

    [sorted(l, key=k)] and [sorted(l, key=k, reverse=True)] are stable: among
    the arrangements in key order they return the one that keeps elements
    with equal keys in their input order.  [sorted_by before] is the stable
    insertion sort; [before y x] says that [y] has to come strictly before
    [x].  (Keys that [<] does not order, such as a NaN, are outside what
    this model of the built-in covers.) *)

Section Sorting.
Context {A : Type} (before : A → A → bool).

Fixpoint insert_by (x : A) (l : list A) : list A :=
  match l with
  | [] => [x]
  | y :: l' => if before y x then y :: insert_by x l' else x :: y :: l'
  end.

Definition sorted_by (l : list A) : list A := foldr insert_by [] l.

End Sorting.

(** [l[start:stop]] for [0 <= start] and [0 <= stop]. *)
Definition slice {A} (l : list A) (start stop : nat) : list A :=
  take (stop - start) (drop start l).

(** ** Request sanitizing (lines 105-115 and 123-134) *)

Section Sanitizer.
Context `{Externals}.

(** [safe_int]: only [ValueError] and [TypeError] are caught. *)
Definition safe_int (val : json) (default : Z) : result Z :=
  match py_int val with
  | Ok z => Ok z
  | Raise ValueError | Raise TypeError => Ok default
  | Raise e => Raise e
  end.

Definition safe_str (val : json) (default : string) : string :=
  match val with
  | JNull | JStr "" => default
  | _ => py_str val
  end.

(** The profile both scoring endpoints build from the request body. *)
Definition make_profile (data : gmap string json) : result user_profile :=
  adult ← safe_int (get data "adult_count") 1 ;;;
  child ← safe_int (get data "child_count") 0 ;;;
  let total := Z.max 1 (adult + child) in
  Ok {| needs :=
          <[ "supply_a" := safe_str (get data "supply_a") "中" ]> (
          <[ "supply_b" := safe_str (get data "supply_b") "中" ]> (
          <[ "supply_c" := safe_str (get data "supply_c") "中" ]> ∅));
        total_people := total |}.

End Sanitizer.

(** ** The endpoints *)

(** What an endpoint answers: [jsonify(body)] with status 200, or the error
    payload with status 500 built by its [except Exception] clause. *)
Inductive response :=
  | Json200 (body : list json)
  | Error500 (e : exn).

Definition respond (r : result (list json)) : response :=
  match r with
  | Ok body => Json200 body
  | Raise e => Error500 e
  end.

(** A row of the shelter table and a candidate with its distance. *)
Record shelter_row := { row_name : json; row_lat : json; row_lng : json }.

Record candidate := {
  name : json;
  lat : json;
  lng : json;
  distance : float;
}.

Definition candidate_json (c : candidate) : json :=
  JObj (<[ "name" := name c ]> (
        <[ "lat" := lat c ]> (
        <[ "lng" := lng c ]> (
        <[ "distance" := JFloat (distance c) ]> ∅)))).

(** [key=lambda x: x["distance"]] *)
Definition nearer (x y : candidate) : bool := (distance x <? distance y)%float.

(** The sort key [x["match_score"]] of a scored entry. *)
Definition match_score (x : json) : float :=
  match x with
  | JObj o =>
      match o !! "match_score" with
      | Some (JFloat f) => f
      | _ => nan
      end
  | _ => nan
  end.

(** [reverse=True]: the entry with the higher score comes first. *)
Definition better (x y : json) : bool := (match_score y <? match_score x)%float.

Definition nearest_5 (candidates : list candidate) : list candidate :=
  take 5 (sorted_by nearer candidates).

(** Lines 220-223 of [get_nearest_shelters]. *)
Definition window (sorted_s : list candidate) : list candidate :=
  match sorted_s with
  | [] => []
  | _ =>
      let start_idx := if decide (2 ≤ length sorted_s)%nat then 1%nat else 0%nat in
      let end_idx :=
        if decide (4 ≤ length sorted_s)%nat then 4%nat else length sorted_s in
      slice sorted_s start_idx end_idx
  end.

(** Four draws of [random.randint(0, 100)] per candidate, taken in order
    from the stream [randint]. *)
Definition draw_features (randint : nat → Z) (i : nat) : json :=
  JObj (<[ "congestion" := JInt (randint (4 * i)%nat) ]> (
        <[ "supply_a" := JInt (randint (4 * i + 1)%nat) ]> (
        <[ "supply_b" := JInt (randint (4 * i + 2)%nat) ]> (
        <[ "supply_c" := JInt (randint (4 * i + 3)%nat) ]> ∅)))).

Section Endpoints.
Context `{Externals}.

(** The distances of all shelters from the user, in table order. *)
Definition candidates_of (user_loc : json * json) (df : list shelter_row)
    : result (list candidate) :=
  mapM_result (λ row,
    dist ← geodesic_meters user_loc (row_lat row, row_lng row) ;;;
    Ok {| name := row_name row; lat := row_lat row; lng := row_lng row;
          distance := dist |}) df.

Definition score_candidate (up : user_profile) (randint : nat → Z)
    (i : nat) (cand : candidate) : result json :=
  let features := draw_features randint i in
  '(total_score, supply_rate) ← calculate_recommendation_score up features ;;;
  Ok (JObj (<[ "name" := name cand ]> (
            <[ "lat" := lat cand ]> (
            <[ "lng" := lng cand ]> (
            <[ "distance" := JFloat (distance cand) ]> (
            <[ "data" := features ]> (
            <[ "match_score" := JFloat total_score ]> (
            <[ "match_rate" := JFloat supply_rate ]> ∅)))))))).

Fixpoint score_candidates (up : user_profile) (randint : nat → Z)
    (i : nat) (l : list candidate) : result (list json) :=
  match l with
  | [] => Ok []
  | cand :: l' =>
      r ← score_candidate up randint i cand ;;;
      rs ← score_candidates up randint (S i) l' ;;;
      Ok (r :: rs)
  end.

Definition get_disaster_shelters (data : gmap string json)
    (df : result (list shelter_row)) (randint : nat → Z) : response :=
  respond (
    lat ← getitem (JObj data) "lat" ;;;
    lng ← getitem (JObj data) "lng" ;;;
    up ← make_profile data ;;;
    rows ← df ;;;
    candidates ← candidates_of (lat, lng) rows ;;;
    results ← score_candidates up randint 0 (nearest_5 candidates) ;;;
    Ok (sorted_by better results)).

(** One turn of the recalculation loop: the entry keeps its features and
    gets the two scores written into it. *)
Definition rescore (up : user_profile) (item : json) : result json :=
  features ← getitem item "data" ;;;
  '(total_score, supply_rate) ← calculate_recommendation_score up features ;;;
  item ← setitem item "match_score" (JFloat total_score) ;;;
  setitem item "match_rate" (JFloat supply_rate).

Definition recalculate_shelters (data : gmap string json) : response :=
  respond (
    let shelter_list := default (JArr []) (data !! "shelter_list") in
    up ← make_profile data ;;;
    items ← py_iter shelter_list ;;;
    results ← mapM_result (rescore up) items ;;;
    Ok (sorted_by better results)).

Definition get_nearest_shelters (data : gmap string json)
    (df : result (list shelter_row)) : response :=
  respond (
    lat ← getitem (JObj data) "lat" ;;;
    lng ← getitem (JObj data) "lng" ;;;
    rows ← df ;;;
    shelters ← candidates_of (lat, lng) rows ;;;
    let sorted_s := sorted_by nearer shelters in
    Ok (candidate_json <$> window sorted_s)).

End Endpoints.

(** ** Definitions the proofs use *)

Module Float64.

(** The lexicographic order of triples of integers. *)
Definition lex (a b : Z * Z * Z) : comparison :=
  let '(a1, a2, a3) := a in
  let '(b1, b2, b3) := b in
  match a1 ?= b1 with
  | Eq => match a2 ?= b2 with Eq => a3 ?= b3 | c => c end
  | c => c
  end.

(** A double that is not a NaN as a triple ordered like the doubles: the
    class (infinities, negative, zero, positive), then exponent and
    mantissa. *)
Definition rank (x : spec_float) : option (Z * Z * Z) :=
  match x with
  | S754_nan => None
  | S754_infinity true => Some (-2, 0, 0)
  | S754_finite true m e => Some (-1, - e, Z.neg m)
  | S754_zero _ => Some (0, 0, 0)
  | S754_finite false m e => Some (1, e, Z.pos m)
  | S754_infinity false => Some (2, 0, 0)
  end.

Definition key (x : float) : option (Z * Z * Z) := rank (Prim2SF x).

(** [below B x]: the double [x] is at most the integer [B].  A finite
    positive [m * 2^e] is kept as [m <= B * 2^(-e)] with [e <= 0]. *)
Definition below (B : Z) (x : spec_float) : Prop :=
  match x with
  | S754_nan => False
  | S754_infinity s => s = true
  | S754_zero _ => True
  | S754_finite true _ _ => True
  | S754_finite false m e => e ≤ 0 ∧ Z.pos m ≤ B * 2 ^ (- e)
  end.

(** The result of an operation on non-negative operands: not a NaN and
    not negative. *)
Definition signed (sx : bool) (x : spec_float) : Prop :=
  match x with
  | S754_nan => False
  | S754_zero s | S754_infinity s | S754_finite s _ _ => s = sx
  end.

(** A truncated mantissa with its round and sticky bits, read at
    exponent [e], stands for a value that is at most [B]. *)
Definition fits (B : Z) (mrs : shr_record) (e : Z) : Prop :=
  e ≤ 0 ∧ 0 ≤ shr_m mrs ∧ shr_m mrs ≤ B * 2 ^ (- e) ∧
  (shr_r mrs || shr_s mrs = true → shr_m mrs < B * 2 ^ (- e)).

(** A double that is not a NaN, and one that is neither a NaN nor an
    infinity. *)
Definition defined (x : spec_float) : Prop :=
  match x with
  | S754_nan => False
  | _ => True
  end.

Definition finite_sf (x : spec_float) : Prop :=
  match x with
  | S754_zero _ | S754_finite _ _ _ => True
  | _ => False
  end.

End Float64.

(** The feature [k] of a snapshot reads as the float [x]. *)
Definition feature `{Externals} (shelter_features : json) (k : string) (x : float)
    : Prop :=
  ∃ v, getitem shelter_features k = Ok v ∧ py_float v = Ok x.

(** A snapshot with its congestion and the stock of the three items. *)
Definition snapshot `{Externals} (shelter_features : json) (c sa sb sc : float)
    : Prop :=
  feature shelter_features "congestion" c ∧
  feature shelter_features "supply_a" sa ∧
  feature shelter_features "supply_b" sb ∧
  feature shelter_features "supply_c" sc.

(** The three ways the loop treats a stock value. *)
Inductive stock_level := Full | Partial | Empty.

Definition level_of (item_stock : float) : stock_level :=
  if (20 <=? item_stock)%float then Full
  else if (0 <? item_stock)%float then Partial
  else Empty.

Definition add_stocked_at (acquired_weight : Py.number) (weight : Z)
    (l : stock_level) : Py.number :=
  match l with
  | Full => Py.add acquired_weight (Py.Int weight)
  | Partial => Py.add acquired_weight (Py.Float (Py.Z2F weight * 0.5))
  | Empty => acquired_weight
  end.

Definition gain_at (w : Z) (l : stock_level) : float :=
  match l with
  | Full => Py.Z2F w
  | Partial => (Py.Z2F w * 0.5)%float
  | Empty => 0%float
  end.

Definition table_weights : list Z := [10; 6; 3; -5; -20].
Definition stock_levels : list stock_level := [Full; Partial; Empty].

(** What the loop accumulates and what the specification sums, compared on
    every combination of table weights and stock levels. *)
Definition acquired_agrees (wa wb wc : Z) (la lb lc : stock_level) : bool :=
  PrimFloat.Leibniz.eqb
    (Py.to_float
       (add_stocked_at (add_stocked_at (add_stocked_at (Py.Int 0) wa la) wb lb) wc lc))
    (gain_at wa la + gain_at wb lb + gain_at wc lc)%float.

(** With nothing wanted the supply score is a multiple of one half, which
    rounding to one decimal keeps. *)
Definition unwanted_exact (wa wb wc : Z) (la lb lc : stock_level) : bool :=
  let s := Py.min 100 (100 + (gain_at wa la + gain_at wb lb + gain_at wc lc))%float in
  PrimFloat.Leibniz.eqb (Py.round1 s) s.

(** The supply score by stock levels, and the check that its weighted values
    in the two blends are finite. *)
Definition supply_at (wa wb wc : Z) (la lb lc : stock_level) : float :=
  let acquired := (gain_at wa la + gain_at wb lb + gain_at wc lc)%float in
  let total := Spec.totalWeight wa wb wc in
  Py.min 100
    (if 0 <? total then (acquired / Py.Z2F total * 100)%float
     else (100 + acquired)%float).

Definition is_finite_sf (x : spec_float) : bool :=
  match x with
  | S754_zero _ | S754_finite _ _ _ => true
  | _ => false
  end.

Definition weighted_finite (wa wb wc : Z) (la lb lc : stock_level) : bool :=
  let s := supply_at wa wb wc la lb lc in
  is_finite_sf (Prim2SF (s * 5)) && is_finite_sf (Prim2SF (s * 3)).

Definition for_all_cases (ws : list Z) (P : Z → Z → Z → stock_level → stock_level → stock_level → bool)
    : bool :=
  forallb (λ wa, forallb (λ wb, forallb (λ wc,
    forallb (λ la, forallb (λ lb, forallb (λ lc, P wa wb wc la lb lc)
      stock_levels) stock_levels) stock_levels) ws) ws) ws.

(** ** Inputs for concrete evaluations *)

(** Stand-ins for the outside world: no text is read as a number, and the
    distance between two points given as floats is taken on a flat grid. *)
Definition grid_distance (p q : json * json) : result float :=
  match p, q with
  | (JFloat a, JFloat b), (JFloat c, JFloat d) => Ok (abs (a - c) + abs (b - d))%float
  | _, _ => Raise ValueError
  end.

Definition sample_externals : Externals := {|
  int_of_str _ := None;
  float_of_str _ := None;
  str_of _ := "";
  geodesic_meters := grid_distance;
|}.

Definition profile_of (a b c : string) (people : Z) : user_profile := {|
  needs := <[ "supply_a" := a ]> (<[ "supply_b" := b ]> (<[ "supply_c" := c ]> ∅));
  total_people := people;
|}.

Definition features_of (congestion a b c : Z) : json :=
  JObj (<[ "congestion" := JInt congestion ]> (
        <[ "supply_a" := JInt a ]> (
        <[ "supply_b" := JInt b ]> (
        <[ "supply_c" := JInt c ]> ∅)))).

(** The elements of a list stand in the order [le]: an earlier element is
    related to every later one. *)
Definition in_order {A} (le : A → A → Prop) (l : list A) : Prop :=
  ∀ i j x y, (i < j)%nat → l !! i = Some x → l !! j = Some y → le x y.

(** The two orders the endpoints sort by. *)
Definition not_farther (x y : candidate) : Prop :=
  (distance x <=? distance y)%float = true.

Definition not_worse (x y : json) : Prop :=
  (match_score y <=? match_score x)%float = true.

(** The candidates at distance [d], and the entries with score [s]. *)
Definition at_distance (d : float) (c : candidate) : bool := (distance c =? d)%float.
Definition with_score (s : float) (x : json) : bool := (match_score x =? s)%float.

(** [entry] is [item] with the two scores of its own features written into
    it and every other field as it was. *)
Definition rescored `{Externals} (up : user_profile) (item entry : json) : Prop :=
  ∃ o o' features total_score supply_rate,
    item = JObj o ∧ entry = JObj o' ∧
    o !! "data" = Some features ∧
    calculate_recommendation_score up features = Ok (total_score, supply_rate) ∧
    o' !! "match_score" = Some (JFloat total_score) ∧
    o' !! "match_rate" = Some (JFloat supply_rate) ∧
    ∀ k, k ≠ "match_score" → k ≠ "match_rate" → o' !! k = o !! k.

(** An entry of a shelter list that can be scored: an object whose ["data"]
    holds the four features as numbers. *)
Definition scorable `{Externals} (item : json) : Prop :=
  ∃ o features c sa sb sc,
    item = JObj o ∧ o !! "data" = Some features ∧ snapshot features c sa sb sc.

(** Rows and requests for concrete evaluations. *)
Definition row_at (n : string) (x y : float) : shelter_row :=
  {| row_name := JStr n; row_lat := JFloat x; row_lng := JFloat y |}.

Definition sample_rows : list shelter_row :=
  [ row_at "a" 3 0; row_at "b" 1 0; row_at "c" 0 3; row_at "d" 5 5;
    row_at "e" 0 1; row_at "f" 2 2; row_at "g" 9 9 ].

Definition scored_entry (n : string) (features : json) : json :=
  JObj (<[ "name" := JStr n ]> (
        <[ "distance" := JFloat 120 ]> (
        <[ "data" := features ]> (
        <[ "match_score" := JFloat 0 ]> (
        <[ "match_rate" := JFloat 0 ]> ∅))))).

Definition sample_request : gmap string json :=
  <[ "adult_count" := JInt 2 ]> (
  <[ "child_count" := JInt 1 ]> (
  <[ "supply_a" := JStr "最高" ]> (
  <[ "supply_c" := JStr "低" ]> (
  <[ "shelter_list" :=
       JArr [ scored_entry "a" (features_of 90 0 10 40);
              scored_entry "b" (features_of 10 30 0 0) ] ]> ∅)))).

(** An entry whose reported congestion, besides, is not a NaN. *)
Definition rankable `{Externals} (item : json) : Prop :=
  ∃ o features c sa sb sc,
    item = JObj o ∧ o !! "data" = Some features ∧ snapshot features c sa sb sc ∧
    is_nan c = false.

(** ** Further definitions the proofs use *)

(** The four features in the order the function reads them (line 35, then
    line 59 in each turn of the loop). *)
Definition read_features `{Externals} (shelter_features : json)
    : result (float * float * float * float) :=
  v ← getitem shelter_features "congestion" ;;;
  c ← py_float v ;;;
  v ← getitem shelter_features "supply_a" ;;;
  sa ← py_float v ;;;
  v ← getitem shelter_features "supply_b" ;;;
  sb ← py_float v ;;;
  v ← getitem shelter_features "supply_c" ;;;
  sc ← py_float v ;;;
  Ok (c, sa, sb, sc).

(** The score as a function of the features read. *)
Definition score_of (up : user_profile) (fs : float * float * float * float)
    : float * float :=
  let '(c, sa, sb, sc) := fs in
  let supply_score :=
    Spec.supplyScore (item_weight up "supply_a") (item_weight up "supply_b")
      (item_weight up "supply_c") sa sb sc in
  (Py.round1 (total_score_of (total_people up) c supply_score),
   Py.round1 supply_score).

Definition feature_keys : list string :=
  ["congestion"; "supply_a"; "supply_b"; "supply_c"].

(** Stock levels in increasing order. *)
Definition level_rank (l : stock_level) : Z :=
  match l with
  | Empty => 0
  | Partial => 1
  | Full => 2
  end.

(** A change of stock that suits the user: more of what is wanted, less of
    what is not. *)
Definition suits (w : Z) (stock stock' : float) : Prop :=
  if 0 <? w then (stock <=? stock')%float = true
  else (stock' <=? stock)%float = true.

Definition suits_at (w : Z) (l l' : stock_level) : bool :=
  if 0 <? w then level_rank l <=? level_rank l'
  else level_rank l' <=? level_rank l.

(** The checks made on every combination of table weights and levels. *)
Definition rate_in_range (wa wb wc : Z) (la lb lc : stock_level) : bool :=
  let r := Py.round1 (supply_at wa wb wc la lb lc) in
  (-13333 / 10 <=? r)%float && (r <=? 100)%float.

(** The rounded supply rate at every combination of stock levels, and the
    comparison of every two of them. *)
Definition rates_of (wa wb wc : Z)
    : list (stock_level * stock_level * stock_level * float) :=
  flat_map (λ la, flat_map (λ lb, List.map (λ lc,
    (la, lb, lc, Py.round1 (supply_at wa wb wc la lb lc)))
    stock_levels) stock_levels) stock_levels.

Definition monotone_among (wa wb wc : Z)
    (rates : list (stock_level * stock_level * stock_level * float)) : bool :=
  forallb (λ x, forallb (λ y,
    implb (suits_at wa x.1.1.1 y.1.1.1 && suits_at wb x.1.1.2 y.1.1.2
           && suits_at wc x.1.2 y.1.2)
      (x.2 <=? y.2)%float) rates) rates.

Definition rate_monotone (wa wb wc : Z) : bool :=
  monotone_among wa wb wc (rates_of wa wb wc).

Definition for_all_weights (ws : list Z) (P : Z → Z → Z → bool) : bool :=
  forallb (λ wa, forallb (λ wb, forallb (λ wc, P wa wb wc) ws) ws) ws.

(** An entry that carries the scores of its own features. *)
Definition consistent `{Externals} (up : user_profile) (entry : json) : Prop :=
  ∃ o features total_score supply_rate,
    entry = JObj o ∧ o !! "data" = Some features ∧
    calculate_recommendation_score up features = Ok (total_score, supply_rate) ∧
    o !! "match_score" = Some (JFloat total_score) ∧
    o !! "match_rate" = Some (JFloat supply_rate).

(** The entry the search builds for the candidate at place [i]. *)
Definition entry_of `{Externals} (up : user_profile) (randint : nat → Z)
    (i : nat) (cand : candidate) (entry : json) : Prop :=
  ∃ o total_score supply_rate,
    entry = JObj o ∧
    calculate_recommendation_score up (draw_features randint i)
    = Ok (total_score, supply_rate) ∧
    o !! "name" = Some (name cand) ∧ o !! "lat" = Some (lat cand) ∧
    o !! "lng" = Some (lng cand) ∧
    o !! "distance" = Some (JFloat (distance cand)) ∧
    o !! "data" = Some (draw_features randint i) ∧
    o !! "match_score" = Some (JFloat total_score) ∧
    o !! "match_rate" = Some (JFloat supply_rate).

(** The integers [random.randint(0, 100)] can return, and the check that
    each of them reads as a float between 0 and 100. *)
Definition randint_values : list Z := seqZ 0 101.

Definition draw_in_range (z : Z) : bool :=
  match Py.float_of_int z with
  | Ok f => (0 <=? f)%float && (f <=? 100)%float
  | Raise _ => false
  end.

(** The keys of the request the profile is built from. *)
Definition profile_keys : list string :=
  ["adult_count"; "child_count"; "supply_a"; "supply_b"; "supply_c"].

(** The fields of a candidate in a JSON entry. *)
Definition candidate_keys : list string := ["name"; "lat"; "lng"; "distance"].

(** The number of entries of the nearby listing for a table of [n] rows. *)
Definition window_length (n : nat) : nat :=
  (Nat.min n 4 - (if decide (2 ≤ n)%nat then 1 else 0))%nat.

(** A request for concrete evaluations of the search. *)
Definition search_request : gmap string json :=
  <[ "lat" := JFloat 0 ]> (
  <[ "lng" := JFloat 0 ]> (
  <[ "adult_count" := JInt 2 ]> (
  <[ "supply_a" := JStr "最高" ]> (
  <[ "supply_b" := JStr "最低" ]> ∅)))).

Definition sample_draws (k : nat) : Z := (Z.of_nat k * 37 + 11) mod 101.

(** ** The selection on list objects (lines 138-144)

    A Python list is an object: [candidates.append(x)] changes the list it
    is called on, while [sorted(l, key=...)] and the slice [l[:5]] build a
    new list and leave [l] as it is.  The store holds the list objects by
    address; a new list gets the next address. *)
Abbreviation store := (list (list candidate)).

Definition new_list (l : list candidate) (st : store) : nat * store :=
  (length st, st ++ [l]).

(** [l.append(x)] *)
Definition list_append (a : nat) (x : candidate) (st : store) : store :=
  alter (λ l, l ++ [x]) a st.

(** [sorted(l, key=...)] and [l[start:stop]] *)
Definition list_sorted (before : candidate → candidate → bool) (a : nat) (st : store)
    : nat * store :=
  new_list (sorted_by before (default [] (st !! a))) st.

Definition list_slice (a : nat) (start stop : nat) (st : store) : nat * store :=
  new_list (slice (default [] (st !! a)) start stop) st.

(** One turn of the loop of lines 139-143. *)
Definition append_candidate `{Externals} (user_loc : json * json) (a : nat)
    (st : store) (row : shelter_row) : result store :=
  dist ← geodesic_meters user_loc (row_lat row, row_lng row) ;;;
  Ok (list_append a {| name := row_name row; lat := row_lat row;
                       lng := row_lng row; distance := dist |} st).

(** Lines 138-144: the addresses of [candidates] and of [nearest_5], and
    the store they are in. *)
Definition select_nearest `{Externals} (user_loc : json * json)
    (df : list shelter_row) (st : store) : result (nat * nat * store) :=
  let '(candidates, st) := new_list [] st in
  st ← foldM (append_candidate user_loc candidates) st df ;;;
  let '(sorted_candidates, st) := list_sorted nearer candidates st in
  let '(nearest, st) := list_slice sorted_candidates 0 5 st in
  Ok (candidates, nearest, st).

(** A candidate made from a row of the table at its geodesic distance. *)
Definition candidate_of_row `{Externals} (user_loc : json * json)
    (row : shelter_row) (c : candidate) : Prop :=
  name c = row_name row ∧ lat c = row_lat row ∧ lng c = row_lng row ∧
  geodesic_meters user_loc (row_lat row, row_lng row) = Ok (distance c).

(** * The model on concrete inputs *)

(** [round(x, 1)] rounds the exact value of the double and breaks ties to
    the even digit: 48.75 gives 48.8, 48.25 gives 48.2 and 0.25 gives 0.2. *)
Example round1_ties_to_even :
  Py.round1 (195 / 4) = (488 / 10)%float ∧
  Py.round1 (193 / 4) = (482 / 10)%float ∧
  Py.round1 (1 / 4) = (2 / 10)%float.
Proof. repeat split; vm_compute; reflexivity. Qed.

Example round1_one_third : Py.round1 (100 / 3) = (333 / 10)%float.
Proof. vm_compute. reflexivity. Qed.

Example round1_not_finite :
  Py.round1 infinity = infinity ∧ Py.round1 neg_infinity = neg_infinity ∧
  is_nan (Py.round1 nan) = true.
Proof. repeat split; vm_compute; reflexivity. Qed.

Example int_of_float_cases :
  Py.int_of_float (-39 / 10) = Ok (-3) ∧
  Py.int_of_float infinity = Raise OverflowError ∧
  Py.int_of_float nan = Raise ValueError.
Proof. repeat split; vm_compute; reflexivity. Qed.

(** Medium on the three items, full stock of the first only, one person,
    congestion 50: supply 33.3 and composite 41.7. *)
Example score_one_of_three :
  calculate_recommendation_score (H := sample_externals)
    (profile_of "中" "中" "中" 1) (features_of 50 20 0 0)
  = Ok (417 / 10, 333 / 10)%float.
Proof. vm_compute. reflexivity. Qed.

(** Six people, congestion above 100, one label that is not in the table:
    the congestion score is 0 and the supply score 1.5 / 13 * 100. *)
Example score_large_group :
  calculate_recommendation_score (H := sample_externals)
    (profile_of "最高" "低" "?" 6) (features_of 150 5 100 7)
  = Ok (7 / 2, 23 / 2)%float.
Proof. vm_compute. reflexivity. Qed.

(** A missing feature is a [KeyError], and a feature that is no number a
    [TypeError]. *)
Example score_errors :
  calculate_recommendation_score (H := sample_externals)
    (profile_of "中" "中" "中" 1) (JObj {[ "congestion" := JInt 5 ]})
  = Raise KeyError ∧
  calculate_recommendation_score (H := sample_externals)
    (profile_of "中" "中" "中" 1) (JObj {[ "congestion" := JNull ]})
  = Raise TypeError.
Proof. split; vm_compute; reflexivity. Qed.

(** The sort is stable in both directions. *)
Example sorted_by_stable_pairs :
  let l := [(2, "a"); (1, "b"); (2, "c"); (1, "d")] in
  sorted_by (λ x y, x.1 <? y.1) l = [(1, "b"); (1, "d"); (2, "a"); (2, "c")] ∧
  sorted_by (λ x y, y.1 <? x.1) l = [(2, "a"); (2, "c"); (1, "b"); (1, "d")].
Proof. split; reflexivity. Qed.

Example slice_middle : slice [0; 1; 2; 3; 4; 5] 1 4 = [1; 2; 3].
Proof. reflexivity. Qed.

(** * Facts about binary64 comparisons

    [<] and [<=] on doubles compare sign, exponent and mantissa; [key] maps a
    double that is not a NaN to a triple of integers ordered the same way. *)

Module Order.
Import Float64.

Lemma SFcompare_rank x y :
  SFcompare x y =
  match rank x, rank y with
  | Some a, Some b => Some (lex a b)
  | _, _ => None
  end.
Proof.
  destruct x as [[]|[]| |[] m1 e1], y as [[]|[]| |[] m2 e2]; try reflexivity;
    cbn [SFcompare rank lex]; f_equal.
  change (-1 ?= -1) with Eq. cbn match.
  rewrite Z.compare_opp, (Z.compare_antisym e1 e2).
  by destruct (e1 ?= e2).
Qed.

Lemma ltb_key x y :
  (x <? y)%float = true ↔
  ∃ a b, key x = Some a ∧ key y = Some b ∧ lex a b = Lt.
Proof.
  rewrite FloatAxioms.ltb_spec. unfold SFltb, key. rewrite SFcompare_rank.
  destruct (rank (Prim2SF x)) as [a|], (rank (Prim2SF y)) as [b|];
    try (split; [discriminate | intros (?&?&?&?&?); discriminate]).
  split.
  - destruct (lex a b) eqn:E; try discriminate. eauto.
  - intros (a'&b'&[= <-]&[= <-]&->). reflexivity.
Qed.

Lemma leb_key x y :
  (x <=? y)%float = true ↔
  ∃ a b, key x = Some a ∧ key y = Some b ∧ lex a b ≠ Gt.
Proof.
  rewrite FloatAxioms.leb_spec. unfold SFleb, key. rewrite SFcompare_rank.
  destruct (rank (Prim2SF x)) as [a|], (rank (Prim2SF y)) as [b|];
    try (split; [discriminate | intros (?&?&?&?&?); discriminate]).
  split.
  - destruct (lex a b) eqn:E; try discriminate; exists a, b; by rewrite E.
  - intros (a'&b'&[= <-]&[= <-]&?). by destruct (lex a b).
Qed.

Lemma is_nan_key x : is_nan x = false ↔ is_Some (key x).
Proof.
  unfold is_nan. rewrite FloatAxioms.eqb_spec. unfold SFeqb, key. rewrite SFcompare_rank.
  destruct (rank (Prim2SF x)) as [[[a1 a2] a3]|]; cbn.
  - rewrite !Z.compare_refl. split; eauto.
  - split; [discriminate | intros [? [=]]].
Qed.

(** [lex] is the lexicographic order of the triples. *)
Lemma lex_Lt a b c : lex a b ≠ Gt → lex b c = Lt → lex a c = Lt.
Proof.
  destruct a as [[a1 a2] a3], b as [[b1 b2] b3], c as [[c1 c2] c3]; cbn.
  destruct (Z.compare_spec a1 b1), (Z.compare_spec b1 c1),
    (Z.compare_spec a1 c1); try lia; try done;
    destruct (Z.compare_spec a2 b2), (Z.compare_spec b2 c2),
      (Z.compare_spec a2 c2); try lia; try done;
    destruct (Z.compare_spec a3 b3), (Z.compare_spec b3 c3),
      (Z.compare_spec a3 c3); try lia; done.
Qed.

Lemma lex_antisym a b : lex b a = CompOpp (lex a b).
Proof.
  destruct a as [[a1 a2] a3], b as [[b1 b2] b3]; cbn.
  rewrite (Z.compare_antisym a1 b1), (Z.compare_antisym a2 b2),
    (Z.compare_antisym a3 b3).
  by destruct (a1 ?= b1), (a2 ?= b2), (a3 ?= b3).
Qed.

(** Two doubles that are not NaN are comparable. *)
Lemma ltb_false_leb x y :
  is_nan x = false → is_nan y = false →
  (x <? y)%float = false → (y <=? x)%float = true.
Proof.
  rewrite !is_nan_key. intros [a Ha] [b Hb] Hlt.
  apply leb_key. exists b, a. split_and!; try done.
  intros Hgt. rewrite lex_antisym in Hgt.
  assert ((x <? y)%float = true) as Hc; [|congruence].
  apply ltb_key. exists a, b. split_and!; try done.
  by destruct (lex a b).
Qed.

Lemma leb_false_ltb x y :
  is_nan x = false → is_nan y = false →
  (x <=? y)%float = false → (y <? x)%float = true.
Proof.
  rewrite !is_nan_key. intros [a Ha] [b Hb] Hle.
  apply ltb_key. exists b, a. split_and!; try done.
  rewrite lex_antisym.
  destruct (lex a b) eqn:E; try done;
    (assert ((x <=? y)%float = true) as Hc; [|congruence]);
    apply leb_key; exists a, b; by rewrite E.
Qed.

Lemma ltb_not_nan x y :
  (x <? y)%float = true → is_nan x = false ∧ is_nan y = false.
Proof.
  rewrite ltb_key, !is_nan_key. intros (a&b&->&->&_). eauto.
Qed.

Lemma leb_not_nan x y :
  (x <=? y)%float = true → is_nan x = false ∧ is_nan y = false.
Proof.
  rewrite leb_key, !is_nan_key. intros (a&b&->&->&_). eauto.
Qed.

Lemma ltb_leb x y : (x <? y)%float = true → (x <=? y)%float = true.
Proof.
  rewrite ltb_key, leb_key. intros (a&b&?&?&E). exists a, b. by rewrite E.
Qed.

Lemma leb_refl x : is_nan x = false → (x <=? x)%float = true.
Proof.
  rewrite is_nan_key, leb_key. intros [a Ha]. exists a, a. split_and!; try done.
  destruct a as [[a1 a2] a3]; cbn. by rewrite !Z.compare_refl.
Qed.

Lemma leb_trans x y z :
  (x <=? y)%float = true → (y <=? z)%float = true → (x <=? z)%float = true.
Proof.
  rewrite !leb_key. intros (a&b&Ha&Hb&E1) (b'&c&Hb'&Hc&E2).
  rewrite Hb in Hb'. injection Hb' as <-.
  exists a, c. split_and!; try done. intros Hgt.
  rewrite lex_antisym in Hgt.
  assert (lex c a = Lt) as Hca by (by destruct (lex c a)).
  assert (lex b a = Lt) as Hba.
  { apply (lex_Lt b c a); [|done]. done. }
  rewrite lex_antisym in Hba. by destruct (lex a b).
Qed.

Lemma eqb_key x y :
  (x =? y)%float = true ↔
  ∃ a b, key x = Some a ∧ key y = Some b ∧ lex a b = Eq.
Proof.
  rewrite FloatAxioms.eqb_spec. unfold SFeqb, key. rewrite SFcompare_rank.
  destruct (rank (Prim2SF x)) as [a|], (rank (Prim2SF y)) as [b|];
    try (split; [discriminate | intros (?&?&?&?&?); discriminate]).
  split.
  - destruct (lex a b) eqn:E; try discriminate. eauto.
  - intros (a'&b'&[= <-]&[= <-]&->). reflexivity.
Qed.

Lemma lex_Eq a b : lex a b = Eq → a = b.
Proof.
  destruct a as [[a1 a2] a3], b as [[b1 b2] b3]; cbn.
  destruct (Z.compare_spec a1 b1); try done.
  destruct (Z.compare_spec a2 b2); try done.
  destruct (Z.compare_spec a3 b3); try done. congruence.
Qed.

(** A stock equal to zero is neither at least 20 nor above 0. *)
Lemma zero_not_stocked s :
  (s =? 0)%float = true → (20 <=? s)%float = false ∧ (0 <? s)%float = false.
Proof.
  rewrite eqb_key. intros (a & b & Ha & [= <-] & Hab%lex_Eq). subst a.
  split.
  - destruct (20 <=? s)%float eqn:E; [|done].
    apply leb_key in E as (a & b & [= <-] & Hb & Hlex).
    rewrite Ha in Hb. injection Hb as <-. by contradict Hlex.
  - destruct (0 <? s)%float eqn:E; [|done].
    apply ltb_key in E as (a & b & [= <-] & Hb & Hlex).
    rewrite Ha in Hb. injection Hb as <-. discriminate.
Qed.

Lemma ltb_asym x y : (x <? y)%float = true → (y <? x)%float = false.
Proof.
  rewrite ltb_key. intros (a & b & Ha & Hb & Hlex).
  destruct (y <? x)%float eqn:E; [|done].
  apply ltb_key in E as (b' & a' & Hb' & Ha' & Hlex').
  rewrite Ha in Ha'. rewrite Hb in Hb'. injection Ha' as <-. injection Hb' as <-.
  rewrite lex_antisym, Hlex in Hlex'. discriminate.
Qed.

(** On doubles that are not NaN, "not less than" is transitive. *)
Lemma ltb_false_trans x y z :
  is_nan x = false → is_nan y = false → is_nan z = false →
  (y <? x)%float = false → (z <? y)%float = false → (z <? x)%float = false.
Proof.
  intros Hx Hy Hz H1 H2.
  apply ltb_false_leb in H1; [|done..]. apply ltb_false_leb in H2; [|done..].
  pose proof (leb_trans _ _ _ H1 H2) as H3.
  destruct (z <? x)%float eqn:E; [|done].
  apply ltb_key in E as (c & a & Hc & Ha & Hlex).
  apply leb_key in H3 as (a' & c' & Ha' & Hc' & Hlex').
  rewrite Ha in Ha'. rewrite Hc in Hc'. injection Ha' as <-. injection Hc' as <-.
  rewrite lex_antisym, Hlex in Hlex'. done.
Qed.

(** Doubles equal to the same double are not separated by [<]. *)
Lemma eqb_ltb_false x y d :
  (x =? d)%float = true → (y =? d)%float = true → (x <? y)%float = false.
Proof.
  rewrite !eqb_key. intros (a & k & Ha & Hk & Hak) (b & k' & Hb & Hk' & Hbk).
  apply lex_Eq in Hak, Hbk. rewrite Hk in Hk'. injection Hk' as <-. subst a b.
  destruct (x <? y)%float eqn:E; [|done].
  apply ltb_key in E as (a' & b' & Ha' & Hb' & Hlex).
  rewrite Ha in Ha'. rewrite Hb in Hb'. injection Ha' as <-. injection Hb' as <-.
  destruct k as [[k1 k2] k3]. cbn in Hlex. by rewrite !Z.compare_refl in Hlex.
Qed.

End Order.


(** * Upper bounds through binary64 rounding

    Rounding to nearest never crosses a double: when the exact result of an
    operation is at most an integer [B] below [2^10], so is the rounded one.
    The operations are read through their specification in [SpecFloat]:
    shifting a mantissa right keeps [fits], rounding it to nearest keeps
    it, and so does the second normalisation. *)

Module Rounding.
Import Float64.

Lemma pow2_step e : e + 1 ≤ 0 → 2 ^ (- e) = 2 * 2 ^ (- (e + 1)).
Proof.
  intros. replace (- e) with (Z.succ (- (e + 1))) by lia.
  rewrite Z.pow_succ_r by lia. done.
Qed.

Lemma shr_1_fits B mrs e :
  fits B mrs e → e + 1 ≤ 0 → fits B (shr_1 mrs) (e + 1).
Proof.
  intros (He & Hm & Hle & Hlt) He'. rewrite (pow2_step e) in * by done.
  set (P := 2 ^ (- (e + 1))) in *.
  destruct mrs as [m r s]; unfold fits; cbn in *.
  destruct m as [|[p|p|]|p]; cbn in *; try lia;
    (split_and!; [lia| lia | lia |]);
    destruct r, s; cbn in *; intros; try specialize (Hlt eq_refl); lia.
Qed.

Lemma shr_1_nonneg mrs : 0 ≤ shr_m mrs → 0 ≤ shr_m (shr_1 mrs).
Proof. destruct mrs as [[|[p|p|]|p] r s]; cbn; lia. Qed.

Lemma iter_pos_shr_1_fits B p : ∀ mrs e,
  fits B mrs e → e + Z.pos p ≤ 0 →
  fits B (SpecFloat.iter_pos shr_1 p mrs) (e + Z.pos p).
Proof.
  induction p as [p IH|p IH|]; intros mrs e Hf He; cbn [SpecFloat.iter_pos].
  - replace (e + Z.pos p~1) with (e + 1 + Z.pos p + Z.pos p) by lia.
    apply IH; [apply IH; [apply shr_1_fits|]|]; (done || lia).
  - replace (e + Z.pos p~0) with (e + Z.pos p + Z.pos p) by lia.
    apply IH; [apply IH|]; (done || lia).
  - by apply shr_1_fits.
Qed.

Lemma iter_pos_shr_1_nonneg p : ∀ mrs,
  0 ≤ shr_m mrs → 0 ≤ shr_m (SpecFloat.iter_pos shr_1 p mrs).
Proof.
  induction p as [p IH|p IH|]; intros mrs Hm; cbn [SpecFloat.iter_pos];
    auto using shr_1_nonneg.
Qed.

Lemma digits2_pos_size m : digits2_pos m = Pos.size m.
Proof. induction m; cbn; congruence. Qed.

(** A mantissa below [2^k] has at most [k] digits. *)
Lemma Zdigits2_le m k : 0 ≤ m → 0 ≤ k → m < 2 ^ k → Zdigits2 m ≤ k.
Proof.
  intros Hm Hk Hlt. destruct m as [|p|p]; cbn; try lia.
  rewrite digits2_pos_size.
  pose proof (Pos.size_le p) as Hs.
  apply Pos2Z.pos_le_pos in Hs. rewrite Pos2Z.inj_pow in Hs.
  destruct (Z.le_gt_cases (Z.pos (Pos.size p)) k) as [|Hgt]; [done|].
  assert (2 ^ (k + 1) ≤ 2 ^ Z.pos (Pos.size p)) by (apply Z.pow_le_mono_r; lia).
  rewrite Z.pow_add_r in * by lia. change (Z.pos p~0) with (2 * Z.pos p) in Hs.
  lia.
Qed.

Section Bound.
Variable B : Z.
Hypothesis B_pos : 0 ≤ B.
Hypothesis B_small : B < 2 ^ 10.

Lemma fits_digits mrs e : fits B mrs e → Zdigits2 (shr_m mrs) + e ≤ 10.
Proof.
  intros (He & Hm & Hle & _).
  enough (Zdigits2 (shr_m mrs) ≤ 10 - e) by lia.
  apply Zdigits2_le; [done|lia|].
  replace (10 - e) with (10 + - e) by lia. rewrite Z.pow_add_r by lia.
  assert (0 < 2 ^ (- e)) by (apply Z.pow_pos_nonneg; lia). nia.
Qed.

Lemma shr_fexp_fits m e l :
  fits B (shr_record_of_loc m l) e →
  fits B (shr_fexp prec emax m e l).1 (shr_fexp prec emax m e l).2.
Proof.
  intros Hf. pose proof (fits_digits _ _ Hf) as Hd.
  assert (shr_m (shr_record_of_loc m l) = m) as Hm by (by destruct l as [|[]]).
  rewrite Hm in Hd. unfold shr_fexp, shr.
  destruct (fexp prec emax (Zdigits2 m + e) - e) as [|p|p] eqn:Hn; cbn [fst snd];
    try done.
  apply iter_pos_shr_1_fits; [done|].
  rewrite <- Hn. unfold fexp, emin, prec, emax. lia.
Qed.

Lemma round_nearest_even_fits mrs e :
  fits B mrs e →
  fits B (shr_record_of_loc
            (round_nearest_even (shr_m mrs) (loc_of_shr_record mrs)) loc_Exact) e.
Proof.
  intros (He & Hm & Hle & Hlt). unfold fits.
  destruct mrs as [m [] []]; cbn in *;
    repeat case_match; (split_and!; [lia..|done]).
Qed.

Lemma binary_round_aux_below mx ex lx :
  fits B (shr_record_of_loc mx lx) ex →
  below B (binary_round_aux prec emax false mx ex lx).
Proof.
  intros Hf. unfold binary_round_aux.
  apply shr_fexp_fits in Hf.
  destruct (shr_fexp prec emax mx ex lx) as [mrs' e']; cbn [fst snd] in Hf.
  apply round_nearest_even_fits, shr_fexp_fits in Hf.
  destruct (shr_fexp prec emax _ e' loc_Exact) as [mrs'' e''];
    cbn [fst snd] in Hf.
  destruct Hf as (He & Hm & Hle & _).
  destruct (shr_m mrs'') as [|m|m]; cbn; try lia.
  case_match; cbn; [done|].
  unfold prec, emax in *. lia.
Qed.

End Bound.

Lemma shr_fexp_nonneg m e l :
  0 ≤ m → 0 ≤ shr_m (shr_fexp prec emax m e l).1.
Proof.
  intros Hm. unfold shr_fexp, shr.
  assert (0 ≤ shr_m (shr_record_of_loc m l)) by (by destruct l as [|[]]).
  case_match; cbn [fst]; auto using iter_pos_shr_1_nonneg.
Qed.

Lemma binary_round_aux_signed sx mx ex lx :
  0 ≤ mx → signed sx (binary_round_aux prec emax sx mx ex lx).
Proof.
  intros Hm. unfold binary_round_aux.
  pose proof (shr_fexp_nonneg mx ex lx Hm) as H1.
  destruct (shr_fexp prec emax mx ex lx) as [mrs' e']; cbn [fst] in H1.
  set (m1 := round_nearest_even _ _).
  assert (0 ≤ m1) as H2.
  { subst m1. destruct mrs' as [m [] []]; cbn in *; repeat case_match; lia. }
  pose proof (shr_fexp_nonneg m1 e' loc_Exact H2) as H3.
  destruct (shr_fexp prec emax m1 e' loc_Exact) as [mrs'' e'']; cbn [fst] in H3.
  destruct (shr_m mrs''); cbn; try done. by case_match.
Qed.

Lemma signed_true_below B x : signed true x → below B x.
Proof. destruct x as [| | |[]]; cbn; done. Qed.

Lemma below_mono B B' x : B ≤ B' → below B x → below B' x.
Proof.
  intros HB. destruct x as [| | |[] m e]; cbn; try done.
  intros [He Hm]. split; [done|].
  assert (0 < 2 ^ (- e)) by (apply Z.pow_pos_nonneg; lia). nia.
Qed.




Abbreviation five := (S754_finite false 5629499534213120 (-50)).
Abbreviation ten := (S754_finite false 5629499534213120 (-49)).
Abbreviation hundred := (S754_finite false 7036874417766400 (-46)).

Lemma pow2_pos e : 0 ≤ e → 0 < 2 ^ e.
Proof. intros. by apply Z.pow_pos_nonneg. Qed.

Lemma SFmul_below B k my ey x :
  0 ≤ B → 0 < k → B * k < 2 ^ 10 → ey ≤ 0 → Z.pos my = k * 2 ^ (- ey) →
  below B x →
  below (B * k) (SFmul prec emax x (S754_finite false my ey)).
Proof.
  intros HB Hk HBk Hey Hmy Hx.
  destruct x as [s|s| |[] m e]; cbn in *; try done.
  - by subst.
  - apply signed_true_below, binary_round_aux_signed. lia.
  - destruct Hx as [He Hm].
    apply binary_round_aux_below; [lia|done|].
    unfold fits; cbn. split_and!; [lia|lia| |done].
    rewrite Pos2Z.inj_mul, Hmy.
    replace (- (e + ey)) with (- e + - ey) by lia.
    rewrite Z.pow_add_r by lia.
    pose proof (pow2_pos (- e)). pose proof (pow2_pos (- ey)). nia.
Qed.

Lemma iter_xO m d : Z.pos (Pos.iter xO m d) = Z.pos m * 2 ^ Z.pos d.
Proof.
  pose proof (shift_pos_correct d m) as Hs. unfold shift_pos in Hs.
  rewrite Hs. change (Z.pow_pos 2 d) with (2 ^ Z.pos d). lia.
Qed.

Lemma shl_align_spec m e e' :
  let '(m', e'') := shl_align m e e' in
  e'' = Z.min e e' ∧ Z.pos m' = Z.pos m * 2 ^ (e - e'').
Proof.
  unfold shl_align. destruct (e' - e) as [|d|d] eqn:Hd.
  - split; [lia|]. rewrite Z.sub_diag. lia.
  - split; [lia|]. rewrite Z.sub_diag. lia.
  - split; [lia|]. rewrite iter_xO. f_equal. f_equal. lia.
Qed.

Lemma binary_round_signed s m e :
  signed s (binary_round prec emax s m e).
Proof.
  unfold binary_round. destruct (shl_align _ _ _) as [mz ez].
  by apply binary_round_aux_signed.
Qed.

Lemma binary_round_below B m e :
  0 ≤ B → B < 2 ^ 10 → e ≤ 0 → Z.pos m ≤ B * 2 ^ (- e) →
  below B (binary_round prec emax false m e).
Proof.
  intros HB HB' He Hm. unfold binary_round.
  pose proof (shl_align_spec m e (fexp prec emax (Z.pos (digits2_pos m) + e))) as Hs.
  destruct (shl_align _ _ _) as [mz ez]. destruct Hs as [Hez Hmz].
  apply binary_round_aux_below; [done..|].
  unfold fits; cbn. split_and!; [lia|lia| |done].
  rewrite Hmz. replace (- ez) with (- e + (e - ez)) by lia.
  rewrite Z.pow_add_r by lia.
  pose proof (pow2_pos (e - ez)). nia.
Qed.

(** The double nearest to the integer [M * 2^e]. *)
Lemma binary_normalize_below B M e :
  0 ≤ B → B < 2 ^ 10 →
  M ≤ 0 ∨ (e ≤ 0 ∧ M ≤ B * 2 ^ (- e)) →
  below B (binary_normalize prec emax M e false).
Proof.
  intros HB HB' HM. destruct M as [|m|m]; cbn; [done| |].
  - destruct HM as [|[]]; [lia|]. by apply binary_round_below.
  - apply signed_true_below, binary_round_signed.
Qed.

Lemma binary_normalize_signed M e :
  0 ≤ M → signed false (binary_normalize prec emax M e false).
Proof.
  destruct M; cbn; [done| |lia]. intros _. apply binary_round_signed.
Qed.

Lemma shl_align_fst m e ez :
  ez ≤ e → Z.pos (shl_align m e ez).1 = Z.pos m * 2 ^ (e - ez).
Proof.
  intros. pose proof (shl_align_spec m e ez) as Hs.
  destruct (shl_align m e ez) as [m' e'']; cbn. destruct Hs as [-> ->].
  do 2 f_equal. lia.
Qed.

Lemma SFadd_below B1 B2 x y :
  0 ≤ B1 → 0 ≤ B2 → B1 + B2 < 2 ^ 10 →
  below B1 x → below B2 y → below (B1 + B2) (SFadd prec emax x y).
Proof.
  intros H1 H2 H12 Hx Hy.
  destruct x as [sx|sx| |sx mx ex], y as [sy|sy| |sy my ey];
    try done; cbn [SFadd].
  - by destruct sx, sy.
  - eapply below_mono; [|done]. lia.
  - cbn in *. subst. done.
  - eapply below_mono; [|done]. lia.
  - assert (Z.min ex ey ≤ ex) as Hex by lia.
    assert (Z.min ex ey ≤ ey) as Hey by lia.
    set (ez := Z.min ex ey) in *.
    apply binary_normalize_below; [lia|done|].
    rewrite !shl_align_fst by done.
    pose proof (pow2_pos (ex - ez)). pose proof (pow2_pos (ey - ez)).
    assert (sy = false → ez ≤ 0 ∧ Z.pos my * 2 ^ (ey - ez) ≤ B2 * 2 ^ (- ez)) as Ky.
    { intros ->. destruct Hy as [He Hm]. split; [lia|].
      replace (- ez) with (- ey + (ey - ez)) by lia.
      rewrite Z.pow_add_r by lia. nia. }
    assert (sx = false → ez ≤ 0 ∧ Z.pos mx * 2 ^ (ex - ez) ≤ B1 * 2 ^ (- ez)) as Kx.
    { intros ->. destruct Hx as [He Hm]. split; [lia|].
      replace (- ez) with (- ex + (ex - ez)) by lia.
      rewrite Z.pow_add_r by lia. nia. }
    destruct sx, sy; cbn [cond_Zopp].
    + left. nia.
    + right. destruct Ky as [? ?]; [done|]. split; [done|].
      pose proof (pow2_pos (- ez)). nia.
    + right. destruct Kx as [? ?]; [done|]. split; [done|].
      pose proof (pow2_pos (- ez)). nia.
    + right. destruct Kx as [? ?]; [done|]. destruct Ky as [? ?]; [done|].
      split; [done|]. nia.
Qed.

Lemma new_location_flags n r mrs q :
  mrs = shr_record_of_loc q (new_location n r) →
  shr_m mrs = q ∧ (shr_r mrs || shr_s mrs = true → r ≠ 0).
Proof.
  intros ->. unfold new_location, new_location_even, new_location_odd.
  destruct (Z.even n), (Z.eqb_spec r 0); subst; cbn; try done;
    repeat case_match; cbn; done.
Qed.

Lemma SFdiv_ten_signed s x : signed s x → signed s (SFdiv prec emax x ten).
Proof.
  destruct x as [sx|sx| |sx m e]; cbn [SFdiv signed]; try done;
    intros ->; try by destruct s.
  set (r := SFdiv_core_binary _ _ _ _ _ _).
  assert (0 ≤ r.1.1) as Hq.
  { subst r. unfold SFdiv_core_binary.
    set (d := _ - _ - _). set (m' := match d with 0 => _ | _ => _ end).
    assert (0 ≤ m').
    { subst m'. destruct d; try lia. apply Z.shiftl_nonneg. lia. }
    pose proof (Z_div_mod m' 5629499534213120 eq_refl) as Hd.
    destruct (Z.div_eucl _ _) as [q r']; cbn. nia. }
  destruct r as [[q e'] l]. replace (xorb s false) with s by (by destruct s).
  by apply binary_round_aux_signed.
Qed.

(** Division by [10.0]. *)
Lemma SFdiv_ten_below B x :
  0 ≤ B → B * 10 < 2 ^ 10 →
  below (B * 10) x → below B (SFdiv prec emax x ten).
Proof.
  intros HB HB' Hx.
  destruct x as [s|s| |[] m e]; cbn [SFdiv below xorb] in *; try done.
  - by subst.
  - apply signed_true_below. by apply (SFdiv_ten_signed true (S754_finite true m e)).
  - destruct Hx as [He Hm].
    assert (Zdigits2 (Z.pos m) + e ≤ 10) as Hd.
    { apply (fits_digits (B * 10) ltac:(lia) HB'
               {| shr_m := Z.pos m; shr_r := false; shr_s := false |}).
      unfold fits; cbn. split_and!; try done. }
    unfold SFdiv_core_binary.
    change (Zdigits2 5629499534213120) with 53.
    set (e' := Z.min _ _).
    assert (e' ≤ 0) as He'.
    { subst e'. unfold fexp, emin, prec, emax. lia. }
    assert (e' ≤ e + 49) as He'' by (subst e'; lia).
    set (s := e - -49 - e').
    set (m' := match s with 0 => _ | _ => _ end).
    assert (m' = Z.pos m * 2 ^ s) as Hm'.
    { subst m'. destruct s eqn:Hs; [lia| |lia].
      by rewrite Z.shiftl_mul_pow2. }
    pose proof (Z_div_mod m' 5629499534213120 eq_refl) as Hdm.
    destruct (Z.div_eucl _ _) as [q r]. destruct Hdm as [Hdm Hr].
    apply binary_round_aux_below; [done|lia|].
    destruct (new_location_flags 5629499534213120 r _ q eq_refl) as [Hq Hfl].
    assert (m' ≤ 5629499534213120 * (B * 2 ^ (- e'))) as Hle.
    { rewrite Hm'. change 5629499534213120 with (10 * 2 ^ 49).
      assert (2 ^ (- e) * 2 ^ s = 2 ^ 49 * 2 ^ (- e')) as Hp.
      { rewrite <- !Z.pow_add_r by lia. f_equal. lia. }
      pose proof (pow2_pos s). pose proof (pow2_pos (- e)). nia. }
    unfold fits. rewrite Hq. split_and!; [done|nia|nia|].
    intros Hf. specialize (Hfl Hf). nia.
Qed.

Lemma valid_digits (x : float) s m e :
  Prim2SF x = S754_finite s m e →
  Z.pos m < 2 ^ 53 ∧ (-1074 < e → 2 ^ 52 ≤ Z.pos m).
Proof.
  intros Hx. pose proof (Prim2SF_valid x) as Hv. rewrite Hx in Hv.
  cbn in Hv. apply andb_prop in Hv as [Hc _].
  unfold canonical_mantissa, fexp, emin, prec, emax in Hc.
  apply Z.eqb_eq in Hc. rewrite digits2_pos_size in Hc.
  pose proof (Pos.size_gt m) as Hgt. pose proof (Pos.size_le m) as Hle.
  apply Pos2Z.pos_lt_pos in Hgt. apply Pos2Z.pos_le_pos in Hle.
  rewrite Pos2Z.inj_pow in Hgt, Hle.
  change (Z.pos m~0) with (2 * Z.pos m) in Hle.
  split.
  - eapply Z.lt_le_trans; [exact Hgt|]. apply Z.pow_le_mono_r; lia.
  - intros. replace (Z.pos (Pos.size m)) with (52 + 1) in Hle by lia.
    rewrite Z.pow_add_r in Hle by lia. lia.
Qed.

Lemma key_100 : key 100 = Some (1, -46, 7036874417766400).
Proof. reflexivity. Qed.

Lemma lex_positive e1 m1 e2 m2 :
  lex (1, e1, m1) (1, e2, m2) = match e1 ?= e2 with Eq => m1 ?= m2 | c => c end.
Proof. reflexivity. Qed.

Lemma leb_100_below x : (x <=? 100)%float = true → below 100 (Prim2SF x).
Proof.
  rewrite Order.leb_key, key_100. intros (a & b & Ha & [= <-] & Hlex).
  unfold key in Ha.
  destruct (Prim2SF x) as [s|[]| |[] m e] eqn:Hx; cbn [rank below] in *; try done.
  - injection Ha as <-. by contradict Hlex.
  - injection Ha as <-. rewrite lex_positive in Hlex.
    destruct (valid_digits x _ _ _ Hx) as [Hlt _].
    destruct (Z.compare_spec e (-46)) as [->|?|?]; [| |done].
    + split; [lia|]. change (2 ^ (- -46)) with (2 ^ 46).
      destruct (Z.compare_spec (Z.pos m) 7036874417766400); try done; lia.
    + split; [lia|].
      assert (2 ^ 47 ≤ 2 ^ (- e)) by (apply Z.pow_le_mono_r; lia). lia.
Qed.

Lemma below_100_leb x : below 100 (Prim2SF x) → (x <=? 100)%float = true.
Proof.
  intros Hb. rewrite Order.leb_key, key_100. unfold key.
  destruct (Prim2SF x) as [s|s| |s m e] eqn:Hx; cbn [below] in Hb.
  - exists (0, 0, 0), (1, -46, 7036874417766400). by split_and!.
  - subst s. exists (-2, 0, 0), (1, -46, 7036874417766400). by split_and!.
  - destruct Hb.
  - destruct s.
    { exists (-1, - e, Z.neg m), (1, -46, 7036874417766400). by split_and!. }
    destruct Hb as [He Hm].
    exists (1, e, Z.pos m), (1, -46, 7036874417766400).
    split_and!; [reflexivity..|]. rewrite lex_positive.
    destruct (valid_digits x _ _ _ Hx) as [_ Hge].
    destruct (Z.compare_spec e (-46)) as [->|?|?]; [|discriminate|].
    + change (2 ^ (- -46)) with (2 ^ 46) in Hm.
      destruct (Z.compare_spec (Z.pos m) 7036874417766400);
        [discriminate|discriminate|lia].
    + assert (2 ^ (- e) ≤ 2 ^ 45) by (apply Z.pow_le_mono_r; lia). lia.
Qed.

Lemma rne_div_le p q N : 0 < q → p ≤ N * q → Py.rne_div p q ≤ N.
Proof.
  intros Hq Hp. unfold Py.rne_div.
  pose proof (Z.div_mod p q ltac:(lia)) as Hd.
  pose proof (Z.mod_pos_bound p q Hq) as Hr.
  destruct (Z.compare_spec (2 * (p mod q)) q); repeat case_match; nia.
Qed.

Lemma rne_div_nonneg p q : 0 ≤ p → 0 < q → 0 ≤ Py.rne_div p q.
Proof.
  intros Hp Hq. unfold Py.rne_div.
  pose proof (Z.div_pos p q Hp Hq).
  repeat case_match; lia.
Qed.

Lemma tenths_nonneg m e : 0 ≤ Py.tenths m e.
Proof.
  unfold Py.tenths. case_match.
  - pose proof (pow2_pos e ltac:(lia)). nia.
  - apply rne_div_nonneg; [lia|]. apply pow2_pos. lia.
Qed.

Lemma tenths_le B m e :
  e ≤ 0 → Z.pos m ≤ B * 2 ^ (- e) → Py.tenths m e ≤ B * 10.
Proof.
  intros He Hm. unfold Py.tenths. case_match.
  - assert (e = 0) as -> by lia. cbn in *. lia.
  - apply rne_div_le; [apply pow2_pos; lia|]. lia.
Qed.

(** [round(x, 1)] stays at or below 100. *)
Lemma round1_below x :
  below 100 (Prim2SF x) → below 100 (Prim2SF (Py.round1 x)).
Proof.
  intros Hb. unfold Py.round1.
  destruct (Prim2SF x) as [s|s| |s m e] eqn:Hx; try by rewrite Hx.
  cbv zeta. pose proof (tenths_nonneg m e) as Hn0.
  destruct (Z.leb_spec (2 ^ 53) (Py.tenths m e)) as [|Hn]; [by rewrite Hx|].
  set (n := Py.tenths m e) in *.
  assert (Prim2SF (of_uint63 (Uint63.of_Z n) / 10)
          = SFdiv prec emax (binary_normalize prec emax n 0 false) ten) as Hr.
  { rewrite div_spec, of_uint63_spec. unfold SF64div. f_equal.
    f_equal. rewrite Uint63.of_Z_spec. apply Z.mod_small.
    change Uint63.wB with (2 ^ 63). lia. }
  destruct s.
  - rewrite opp_spec, Hr. apply signed_true_below.
    pose proof (SFdiv_ten_signed false _ (binary_normalize_signed n 0 Hn0)) as Hs.
    by destruct (SFdiv _ _ _ _) as [[]|[]| |[]].
  - rewrite Hr. destruct Hb as [He Hm].
    apply SFdiv_ten_below; [lia|done|].
    apply binary_normalize_below; [lia|done|]. right. split; [done|].
    pose proof (tenths_le 100 m e He Hm). cbn. lia.
Qed.

Lemma leb_100_refl : (100 <=? 100)%float = true.
Proof. reflexivity. Qed.

Lemma min_100_leb x : (Py.min 100 x <=? 100)%float = true.
Proof.
  unfold Py.min. destruct (x <? 100)%float eqn:E; [|done].
  by apply Order.ltb_leb.
Qed.

(** The blend of a small group: both parts at most 100, weights 5 and 5. *)
Lemma blend_5_5_leb c s :
  (c <=? 100)%float = true → (s <=? 100)%float = true →
  (Py.round1 ((c * 5 + s * 5) / (5 + 5)) <=? 100)%float = true.
Proof.
  intros Hc Hs. apply leb_100_below in Hc, Hs.
  apply below_100_leb, round1_below.
  change (5 + 5)%float with 10%float.
  rewrite div_spec, add_spec, !mul_spec.
  change (Prim2SF 5) with five. change (Prim2SF 10) with ten.
  apply SFdiv_ten_below; [lia|done|].
  change (100 * 10) with (100 * 5 + 100 * 5).
  apply SFadd_below; [lia|lia|done|..];
    by apply (SFmul_below 100 5); [lia|lia|done|lia|done|].
Qed.

End Rounding.

(** * Operations that do not produce a NaN *)

Module NoNaN.
Import Float64 Rounding.

Lemma is_nan_defined x : is_nan x = false ↔ defined (Prim2SF x).
Proof.
  rewrite Order.is_nan_key. unfold key.
  destruct (Prim2SF x) as [|[]| |[]]; cbn; split; (done || eauto || intros [? [=]]).
Qed.

Lemma signed_defined s x : signed s x → defined x.
Proof. by destruct x. Qed.

Lemma defined_signed x : defined x → ∃ s, signed s x.
Proof. destruct x as [s|s| |s m e]; cbn; try done; by exists s. Qed.

Lemma SFmul_defined x my ey :
  defined x → defined (SFmul prec emax x (S754_finite false my ey)).
Proof.
  destruct x as [s|s| |s m e]; cbn [SFmul]; try done. intros _.
  eapply signed_defined, binary_round_aux_signed. lia.
Qed.

Lemma binary_normalize_defined M e : defined (binary_normalize prec emax M e false).
Proof.
  destruct M; cbn [binary_normalize]; [done|..];
    eapply signed_defined, binary_round_signed.
Qed.

Lemma SFadd_defined x y :
  defined x → finite_sf y → defined (SFadd prec emax x y).
Proof.
  destruct x as [sx|sx| |sx mx ex], y as [sy|sy| |sy my ey]; cbn [SFadd]; try done.
  - by destruct sx, sy.
  - intros _ _. apply binary_normalize_defined.
Qed.

Lemma SFsub_hundred_defined x :
  defined x → defined (SFsub prec emax hundred x).
Proof.
  destruct x as [s|s| |s m e]; cbn [SFsub]; try done. intros _.
  apply binary_normalize_defined.
Qed.

Lemma SFdiv_ten_defined x : defined x → defined (SFdiv prec emax x ten).
Proof.
  intros [s Hs]%defined_signed. eapply signed_defined, SFdiv_ten_signed, Hs.
Qed.

Lemma round1_defined x : is_nan x = false → is_nan (Py.round1 x) = false.
Proof.
  intros Hx. unfold Py.round1.
  destruct (Prim2SF x) as [s|s| |s m e] eqn:E; try done.
  cbv zeta. case_match; [done|].
  assert (defined (Prim2SF (of_uint63 (Uint63.of_Z (Py.tenths m e)) / 10))) as Hd.
  { rewrite div_spec. change (Prim2SF 10) with ten.
    apply SFdiv_ten_defined. rewrite of_uint63_spec. apply binary_normalize_defined. }
  destruct s; apply is_nan_defined.
  - rewrite opp_spec. revert Hd.
    generalize (Prim2SF (of_uint63 (Uint63.of_Z (Py.tenths m e)) / 10)).
    by intros [].
  - exact Hd.
Qed.

Lemma max_0_defined y : is_nan (Py.max 0 y) = false.
Proof.
  unfold Py.max. destruct (0 <? y)%float eqn:E; [|done].
  by apply Order.ltb_not_nan in E as [_ ?].
Qed.

(** The two blends, for a supply score [s] whose weighted value is
    finite. *)
Lemma blend_5_5_defined c s :
  is_nan c = false → finite_sf (Prim2SF (s * 5)) →
  is_nan (Py.round1 ((c * 5 + s * 5) / (5 + 5))) = false.
Proof.
  intros Hc Hs. apply round1_defined, is_nan_defined.
  change (5 + 5)%float with 10%float.
  rewrite div_spec, add_spec, mul_spec.
  change (Prim2SF 5) with five. change (Prim2SF 10) with ten.
  apply SFdiv_ten_defined, SFadd_defined; [|done].
  by apply SFmul_defined, is_nan_defined.
Qed.

Lemma blend_7_3_defined c s :
  finite_sf (Prim2SF (s * 3)) →
  is_nan (Py.round1 ((Py.max 0 (100 - c) * 7 + s * 3) / (7 + 3))) = false.
Proof.
  intros Hs. apply round1_defined, is_nan_defined.
  change (7 + 3)%float with 10%float.
  rewrite div_spec, add_spec, mul_spec.
  change (Prim2SF 7) with (S754_finite false 7881299347898368 (-50)).
  change (Prim2SF 10) with ten.
  apply SFdiv_ten_defined, SFadd_defined; [|done].
  apply SFmul_defined, is_nan_defined, max_0_defined.
Qed.

End NoNaN.

(** * The score *)

Section ScoreFacts.
Context `{Externals}.

Lemma weight_of_table p : In (weight_of p) table_weights.
Proof.
  unfold weight_of, PRIORITY_WEIGHTS, table_weights.
  repeat (rewrite lookup_insert; case_decide; [cbn; tauto|]).
  rewrite lookup_empty. cbn. tauto.
Qed.

Lemma weight_of_other p :
  p ≠ Spec.Highest → p ≠ Spec.High → p ≠ Spec.Medium → p ≠ Spec.Low →
  p ≠ Spec.Lowest → weight_of p = 3.
Proof.
  intros. unfold weight_of, PRIORITY_WEIGHTS.
  by rewrite !lookup_insert_ne, lookup_empty.
Qed.

Lemma supply_step_value up sf tw aw item s :
  feature sf item s →
  supply_step up sf (tw, aw) item
  = Ok (add_wanted tw (item_weight up item), add_stocked aw (item_weight up item) s).
Proof. intros (v & Hv & Hs). unfold supply_step. by rewrite Hv; cbn; rewrite Hs. Qed.

(** The value the function returns on a snapshot whose four features read
    as floats. *)
Lemma calculate_value up sf c sa sb sc :
  snapshot sf c sa sb sc →
  let wa := item_weight up "supply_a" in
  let wb := item_weight up "supply_b" in
  let wc := item_weight up "supply_c" in
  let total_weight := add_wanted (add_wanted (add_wanted 0 wa) wb) wc in
  let acquired_weight :=
    add_stocked (add_stocked (add_stocked (Py.Int 0) wa sa) wb sb) wc sc in
  let supply_score := supply_score_of total_weight acquired_weight in
  calculate_recommendation_score up sf
  = Ok (Py.round1 (total_score_of (total_people up) c supply_score),
        Py.round1 supply_score).
Proof.
  intros ((v & Hv & Hc) & Ha & Hb & Hc'). cbv zeta.
  unfold calculate_recommendation_score. rewrite Hv; cbn [rbind]. rewrite Hc; cbn [rbind].
  unfold supply_items; cbn [foldM].
  rewrite (supply_step_value _ _ _ _ _ _ Ha); cbn [rbind].
  rewrite (supply_step_value _ _ _ _ _ _ Hb); cbn [rbind].
  rewrite (supply_step_value _ _ _ _ _ _ Hc'); cbn [rbind].
  reflexivity.
Qed.

Lemma add_wanted_total wa wb wc :
  add_wanted (add_wanted (add_wanted 0 wa) wb) wc = Spec.totalWeight wa wb wc.
Proof.
  unfold add_wanted, Spec.totalWeight, Spec.wanted.
  repeat case_match; lia.
Qed.

Lemma add_stocked_level aw w s : add_stocked aw w s = add_stocked_at aw w (level_of s).
Proof. unfold add_stocked, level_of. by repeat case_match. Qed.

Lemma gain_level w s : Spec.gain w s = gain_at w (level_of s).
Proof.
  unfold Spec.gain, level_of.
  destruct (20 <=? s)%float eqn:E20; [done|].
  destruct (0 <? s)%float eqn:E0; [|done].
  destruct (Order.ltb_not_nan _ _ E0) as [_ Hs].
  by rewrite (Order.leb_false_ltb 20 s eq_refl Hs E20).
Qed.

Lemma level_of_zero s : (s =? 0)%float = true → level_of s = Empty.
Proof.
  intros [E1 E2]%Order.zero_not_stocked. unfold level_of. by rewrite E1, E2.
Qed.

Lemma for_all_cases_spec ws P wa wb wc la lb lc :
  for_all_cases ws P = true → In wa ws → In wb ws → In wc ws →
  P wa wb wc la lb lc = true.
Proof.
  unfold for_all_cases. intros HP Ha Hb Hc.
  assert (∀ l, In l stock_levels) as Hl by (intros []; cbn; tauto).
  rewrite forallb_forall in HP. specialize (HP _ Ha).
  rewrite forallb_forall in HP. specialize (HP _ Hb).
  rewrite forallb_forall in HP. specialize (HP _ Hc).
  rewrite forallb_forall in HP. specialize (HP _ (Hl la)).
  rewrite forallb_forall in HP. specialize (HP _ (Hl lb)).
  rewrite forallb_forall in HP. exact (HP _ (Hl lc)).
Qed.

Lemma acquired_agrees_table : for_all_cases table_weights acquired_agrees = true.
Proof. vm_compute. reflexivity. Qed.

(** The loop accumulates the sum the specification describes. *)
Lemma add_stocked_acquired up sa sb sc :
  let wa := item_weight up "supply_a" in
  let wb := item_weight up "supply_b" in
  let wc := item_weight up "supply_c" in
  Py.to_float (add_stocked (add_stocked (add_stocked (Py.Int 0) wa sa) wb sb) wc sc)
  = Spec.acquiredWeight wa wb wc sa sb sc.
Proof.
  cbv zeta. unfold Spec.acquiredWeight.
  rewrite !add_stocked_level, !gain_level.
  apply FloatAxioms.Leibniz.eqb_spec.
  apply (for_all_cases_spec _ _ _ _ _ _ _ _ acquired_agrees_table);
    apply weight_of_table.
Qed.

Lemma calculate_spec up sf c sa sb sc :
  snapshot sf c sa sb sc →
  let supply_score :=
    Spec.supplyScore (item_weight up "supply_a") (item_weight up "supply_b")
      (item_weight up "supply_c") sa sb sc in
  calculate_recommendation_score up sf
  = Ok (Py.round1 (total_score_of (total_people up) c supply_score),
        Py.round1 supply_score).
Proof.
  intros Hs. rewrite (calculate_value up sf c sa sb sc Hs). cbv zeta.
  unfold supply_score_of, Py.truediv, Spec.supplyScore.
  by rewrite add_wanted_total, add_stocked_acquired.
Qed.

Lemma supply_score_level wa wb wc sa sb sc :
  Spec.supplyScore wa wb wc sa sb sc
  = supply_at wa wb wc (level_of sa) (level_of sb) (level_of sc).
Proof. unfold Spec.supplyScore, Spec.acquiredWeight, supply_at. by rewrite !gain_level. Qed.

Lemma weighted_finite_table : for_all_cases table_weights weighted_finite = true.
Proof. vm_compute. reflexivity. Qed.

Lemma is_finite_sf_spec x : is_finite_sf x = true → Float64.finite_sf x.
Proof. by destruct x. Qed.

(** The composite score is a number whenever the congestion is. *)
Lemma total_score_defined up sf c sa sb sc total_score supply_rate :
  snapshot sf c sa sb sc → is_nan c = false →
  calculate_recommendation_score up sf = Ok (total_score, supply_rate) →
  is_nan total_score = false.
Proof.
  intros Hs Hc. rewrite (calculate_spec up sf c sa sb sc Hs). cbv zeta.
  intros [= <- _]. rewrite supply_score_level.
  set (s := supply_at _ _ _ _ _ _).
  assert (weighted_finite (item_weight up "supply_a") (item_weight up "supply_b")
            (item_weight up "supply_c") (level_of sa) (level_of sb) (level_of sc)
          = true) as Hf.
  { apply (for_all_cases_spec _ _ _ _ _ _ _ _ weighted_finite_table);
      apply weight_of_table. }
  unfold weighted_finite in Hf. fold s in Hf. cbv zeta in Hf.
  apply andb_prop in Hf as [H5%is_finite_sf_spec H3%is_finite_sf_spec].
  unfold total_score_of. destruct (6 <=? total_people up).
  - by apply NoNaN.blend_7_3_defined.
  - by apply NoNaN.blend_5_5_defined.
Qed.

End ScoreFacts.

(** * The claims about the score *)

(** C5.  The priority-weight lookup is a total function: Highest maps to 10,
    High to 6, Medium to 3, Low to -5 and Lowest to -20; every other label,
    and a missing one, gets 3, the Medium weight; and the weight depends on
    the label alone, so the same label gets the same weight at every call. *)
Theorem weight_lookup_total :
  weight_of Spec.Highest = 10 ∧ weight_of Spec.High = 6 ∧
  weight_of Spec.Medium = 3 ∧ weight_of Spec.Low = -5 ∧
  weight_of Spec.Lowest = -20 ∧
  (∀ p, p ∉ [Spec.Highest; Spec.High; Spec.Medium; Spec.Low; Spec.Lowest] →
        weight_of p = 3) ∧
  (∀ up item, needs up !! item = None → item_weight up item = 3) ∧
  (∀ p q, p = q → weight_of p = weight_of q).
Proof.
  split_and!; try reflexivity.
  - intros p Hp. apply weight_of_other; intros ->; apply Hp; set_solver.
  - intros up item Hnone. unfold item_weight. by rewrite Hnone.
  - by intros p q ->.
Qed.

(** C1, as amended.  When the positive weights of the three items sum to
    more than zero, the supply sub-score the function returns is
    [(acquiredWeight / totalWeight) * 100], capped above at 100 and with no
    lower clamp, rounded to one decimal place; [acquiredWeight] sums, for
    each item, the whole weight when its stock is at least 20, half of it
    when the stock is between 0 and 20, and nothing when the stock is 0,
    whatever the sign of the weight. *)
Theorem supply_score_wanted `{Externals} up sf c sa sb sc :
  snapshot sf c sa sb sc →
  let wa := item_weight up "supply_a" in
  let wb := item_weight up "supply_b" in
  let wc := item_weight up "supply_c" in
  0 < Spec.totalWeight wa wb wc →
  ∃ total_score,
    calculate_recommendation_score up sf
    = Ok (total_score,
          Py.round1 (Py.min 100
            (Spec.acquiredWeight wa wb wc sa sb sc
             / Py.Z2F (Spec.totalWeight wa wb wc) * 100)%float)).
Proof.
  intros Hs wa wb wc Hpos. rewrite (calculate_spec up sf c sa sb sc Hs).
  eexists. do 2 f_equal. unfold Spec.supplyScore. fold wa wb wc.
  by apply Z.ltb_lt in Hpos as ->.
Qed.

(** One wanted item against two heavily unwanted ones in full stock: the
    sub-score falls far below zero. *)
Lemma supply_score_wanted_witness :
  snapshot (H := sample_externals) (features_of 50 20 20 20) 50 20 20 20 ∧
  ∃ total_score,
    calculate_recommendation_score (H := sample_externals)
      (profile_of Spec.Medium Spec.Lowest Spec.Lowest 1) (features_of 50 20 20 20)
    = Ok (total_score, Py.round1 (Py.min 100 (Py.Z2F (-37) / 3 * 100)%float)).
Proof.
  split.
  - repeat split; eexists; split; reflexivity.
  - apply (supply_score_wanted (H := sample_externals)
             (profile_of Spec.Medium Spec.Lowest Spec.Lowest 1)
             (features_of 50 20 20 20) 50 20 20 20).
    + repeat split; eexists; split; reflexivity.
    + vm_compute. reflexivity.
Defined.

(** C1, as stated, fails: with Medium on all three items and full stock of
    the first only, the sub-score before rounding is [3 / 9 * 100], and the
    function returns that value rounded to one decimal, [33.3], which is
    smaller. *)
Lemma supply_score_unrounded_counterexample :
  let up := profile_of Spec.Medium Spec.Medium Spec.Medium 1 in
  let claimed :=
    Py.min 100
      (Spec.acquiredWeight 3 3 3 20 0 0 / Py.Z2F (Spec.totalWeight 3 3 3) * 100)%float in
  ∃ total_score supply_score,
    calculate_recommendation_score (H := sample_externals) up (features_of 50 20 0 0)
    = Ok (total_score, supply_score) ∧
    0 < Spec.totalWeight 3 3 3 ∧
    claimed = (3 / 9 * 100)%float ∧
    supply_score = (333 / 10)%float ∧
    (supply_score <? claimed)%float = true.
Proof.
  cbv zeta. eexists _, _. split_and!; [vm_compute; reflexivity|done|..];
    vm_compute; reflexivity.
Qed.

(** C2.  When none of the three priorities carries a positive weight, the
    supply sub-score the function returns is [min(100, 100 +
    acquiredWeight)]: rounding to one decimal changes nothing, the value
    being a multiple of one half.  With Lowest on the three items it is 100
    when no item is in stock, and 40 when all three are in full stock. *)
Theorem supply_score_unwanted `{Externals} up sf c sa sb sc :
  snapshot sf c sa sb sc →
  let wa := item_weight up "supply_a" in
  let wb := item_weight up "supply_b" in
  let wc := item_weight up "supply_c" in
  Spec.totalWeight wa wb wc = 0 →
  (∃ total_score,
     calculate_recommendation_score up sf
     = Ok (total_score,
           Py.min 100 (100 + Spec.acquiredWeight wa wb wc sa sb sc)%float)) ∧
  (wa = -20 → wb = -20 → wc = -20 →
   ((sa =? 0)%float = true → (sb =? 0)%float = true → (sc =? 0)%float = true →
    ∃ total_score, calculate_recommendation_score up sf = Ok (total_score, 100%float)) ∧
   ((20 <=? sa)%float = true → (20 <=? sb)%float = true → (20 <=? sc)%float = true →
    ∃ total_score, calculate_recommendation_score up sf = Ok (total_score, 40%float))).
Proof.
  intros Hs wa wb wc Hzero.
  rewrite (calculate_spec up sf c sa sb sc Hs). fold wa wb wc.
  assert (In wa [-5; -20] ∧ In wb [-5; -20] ∧ In wc [-5; -20]) as (Ha & Hb & Hc).
  { pose proof (weight_of_table (default "中" (needs up !! "supply_a"))) as Ha.
    pose proof (weight_of_table (default "中" (needs up !! "supply_b"))) as Hb.
    pose proof (weight_of_table (default "中" (needs up !! "supply_c"))) as Hc.
    fold (item_weight up "supply_a") in Ha. fold (item_weight up "supply_b") in Hb.
    fold (item_weight up "supply_c") in Hc. fold wa in Ha. fold wb in Hb. fold wc in Hc.
    unfold Spec.totalWeight, Spec.wanted in Hzero. cbn in Ha, Hb, Hc |- *.
    repeat case_match; lia. }
  assert (Spec.supplyScore wa wb wc sa sb sc
          = Py.min 100 (100 + Spec.acquiredWeight wa wb wc sa sb sc)%float) as Hss.
  { unfold Spec.supplyScore. by rewrite Hzero. }
  rewrite Hss. unfold Spec.acquiredWeight. rewrite !gain_level.
  split.
  - eexists. do 2 f_equal. apply FloatAxioms.Leibniz.eqb_spec.
    by apply (for_all_cases_spec [-5; -20] unwanted_exact).
  - intros -> -> ->. split.
    + intros Ea Eb Ec. rewrite !(level_of_zero _) by done. eexists. reflexivity.
    + intros Ea Eb Ec. unfold level_of. rewrite Ea, Eb, Ec. eexists. reflexivity.
Qed.

(** Low, Lowest and Low against some, full and no stock; then Lowest on the
    three items, with no stock at all and with full stock. *)
Lemma supply_score_unwanted_witness :
  let sf := features_of 30 5 20 0 in
  let lowest := profile_of Spec.Lowest Spec.Lowest Spec.Lowest 2 in
  snapshot (H := sample_externals) sf 30 5 20 0 ∧
  Spec.totalWeight (-5) (-20) (-5) = 0 ∧
  (∃ total_score,
     calculate_recommendation_score (H := sample_externals)
       (profile_of Spec.Low Spec.Lowest Spec.Low 2) sf
     = Ok (total_score, (155 / 2)%float)) ∧
  (∃ total_score,
     calculate_recommendation_score (H := sample_externals) lowest
       (features_of 30 0 0 0)
     = Ok (total_score, 100%float)) ∧
  (∃ total_score,
     calculate_recommendation_score (H := sample_externals) lowest
       (features_of 30 20 45 100)
     = Ok (total_score, 40%float)).
Proof.
  cbv zeta. split_and!.
  - repeat split; eexists; split; reflexivity.
  - reflexivity.
  - apply (supply_score_unwanted (H := sample_externals)
             (profile_of Spec.Low Spec.Lowest Spec.Low 2)
             (features_of 30 5 20 0) 30 5 20 0).
    + repeat split; eexists; split; reflexivity.
    + reflexivity.
  - apply (supply_score_unwanted (H := sample_externals)
             (profile_of Spec.Lowest Spec.Lowest Spec.Lowest 2)
             (features_of 30 0 0 0) 30 0 0 0); try reflexivity.
    repeat split; eexists; split; reflexivity.
  - apply (supply_score_unwanted (H := sample_externals)
             (profile_of Spec.Lowest Spec.Lowest Spec.Lowest 2)
             (features_of 30 20 45 100) 30 20 45 100); try reflexivity.
    repeat split; eexists; split; reflexivity.
Defined.

(** C3.  With six people or more the congestion score is [max(0, 100 -
    congestion)] and the weights are 7 and 3; otherwise the congestion score
    is the reported congestion itself and the weights are 5 and 5.  The
    composite is [(congestionScore * wCongestion + supplyScore * wSupply) /
    (wCongestion + wSupply)], and both returned values are rounded to one
    decimal place.  The switch is at six: five people use 5/5, six use
    7/3. *)
Theorem composite_score_blend `{Externals} up sf c sa sb sc :
  snapshot sf c sa sb sc →
  let supply_score :=
    Spec.supplyScore (item_weight up "supply_a") (item_weight up "supply_b")
      (item_weight up "supply_c") sa sb sc in
  (6 ≤ total_people up →
   calculate_recommendation_score up sf
   = Ok (Py.round1 ((Py.max 0 (100 - c) * 7 + supply_score * 3) / (7 + 3)),
         Py.round1 supply_score)) ∧
  (total_people up < 6 →
   calculate_recommendation_score up sf
   = Ok (Py.round1 ((c * 5 + supply_score * 5) / (5 + 5)),
         Py.round1 supply_score)).
Proof.
  intros Hs ss. rewrite (calculate_spec up sf c sa sb sc Hs). fold ss.
  unfold total_score_of. split; intros Hp.
  - by apply Z.leb_le in Hp as ->.
  - by apply Z.leb_gt in Hp as ->.
Qed.

(** The same snapshot scored for five and for six people: congestion 80
    counts as 80 with weight 5 for five, and as 20 with weight 7 for six. *)
Lemma composite_score_blend_witness :
  let sf := features_of 80 20 20 20 in
  snapshot (H := sample_externals) sf 80 20 20 20 ∧
  calculate_recommendation_score (H := sample_externals)
    (profile_of Spec.Highest Spec.Highest Spec.Highest 5) sf
  = Ok (Py.round1 ((80 * 5 + 100 * 5) / (5 + 5)), 100)%float ∧
  calculate_recommendation_score (H := sample_externals)
    (profile_of Spec.Highest Spec.Highest Spec.Highest 6) sf
  = Ok (Py.round1 ((Py.max 0 (100 - 80) * 7 + 100 * 3) / (7 + 3)), 100)%float.
Proof.
  cbv zeta.
  assert (snapshot (H := sample_externals) (features_of 80 20 20 20) 80 20 20 20) as Hs
    by (repeat split; eexists; split; reflexivity).
  split_and!; [exact Hs|..].
  - apply (composite_score_blend (H := sample_externals)
             (profile_of Spec.Highest Spec.Highest Spec.Highest 5) _ _ _ _ _ Hs).
    reflexivity.
  - apply (composite_score_blend (H := sample_externals)
             (profile_of Spec.Highest Spec.Highest Spec.Highest 6) _ _ _ _ _ Hs).
    reflexivity.
Defined.

(** C4.  For fewer than six people and a congestion of at most 100, the
    composite score the function returns is at most 100, rounding included:
    it blends, with equal weights, the congestion and a supply sub-score
    that is capped at 100. *)
Theorem composite_score_small_group_bound `{Externals} up sf c sa sb sc :
  snapshot sf c sa sb sc →
  total_people up < 6 →
  (c <=? 100)%float = true →
  ∃ total_score supply_score,
    calculate_recommendation_score up sf = Ok (total_score, supply_score) ∧
    (total_score <=? 100)%float = true.
Proof.
  intros Hs Hp Hc. rewrite (calculate_spec up sf c sa sb sc Hs).
  eexists _, _. split; [reflexivity|].
  unfold total_score_of. apply Z.leb_gt in Hp as ->.
  apply Rounding.blend_5_5_leb; [done|].
  unfold Spec.supplyScore. apply Rounding.min_100_leb.
Qed.

(** Congestion 100 and everything wanted in stock: the composite is 100. *)
Lemma composite_score_small_group_bound_witness :
  let up := profile_of Spec.Highest Spec.High Spec.Medium 5 in
  let sf := features_of 100 20 50 100 in
  snapshot (H := sample_externals) sf 100 20 50 100 ∧
  total_people up < 6 ∧
  (100 <=? 100)%float = true ∧
  ∃ total_score supply_score,
    calculate_recommendation_score (H := sample_externals) up sf
    = Ok (total_score, supply_score) ∧
    (total_score <=? 100)%float = true.
Proof.
  cbv zeta.
  assert (snapshot (H := sample_externals) (features_of 100 20 50 100) 100 20 50 100)
    as Hs by (repeat split; eexists; split; reflexivity).
  split_and!; [exact Hs|reflexivity|reflexivity|].
  apply (composite_score_small_group_bound (H := sample_externals) _ _ _ _ _ _ Hs);
    reflexivity.
Defined.

(** * Sorting *)

Section SortingFacts.
Context {A : Type} (before : A → A → bool).

Lemma insert_by_perm x l : insert_by before x l ≡ₚ x :: l.
Proof.
  induction l as [|y l IH]; cbn; [done|].
  case_match; [|done]. rewrite IH. apply Permutation_swap.
Qed.

Lemma sorted_by_perm l : sorted_by before l ≡ₚ l.
Proof.
  induction l as [|x l IH]; [done|].
  change (sorted_by before (x :: l)) with (insert_by before x (sorted_by before l)).
  by rewrite insert_by_perm, IH.
Qed.

Lemma sorted_by_length l : length (sorted_by before l) = length l.
Proof. by rewrite sorted_by_perm. Qed.

Lemma in_order_nil (le : A → A → Prop) : in_order le [].
Proof. intros i j x y _ Hi. by rewrite lookup_nil in Hi. Qed.

Lemma in_order_cons (le : A → A → Prop) x l :
  in_order le (x :: l) ↔ Forall (le x) l ∧ in_order le l.
Proof.
  split.
  - intros Ho. split.
    + apply Forall_lookup. intros i y Hy. by apply (Ho 0%nat (S i) x y); [lia|..].
    + intros i j y z Hij Hy Hz. by apply (Ho (S i) (S j) y z); [lia|..].
  - intros [Hx Ho] [|i] [|j] y z Hij Hy Hz; try lia; cbn in *.
    + injection Hy as <-. by eapply Forall_lookup_1.
    + apply (Ho i j y z); (done || lia).
Qed.

Lemma in_order_take (le : A → A → Prop) n l : in_order le l → in_order le (take n l).
Proof.
  intros Ho i j x y Hij Hx Hy.
  apply lookup_take_Some in Hx as [Hx _], Hy as [Hy _]. by eapply Ho.
Qed.

(** The input satisfies [ok], on which [before] is a strict weak order. *)
Section Ordered.
Variable ok : A → Prop.
Hypothesis before_asym : ∀ x y, ok x → ok y → before x y = true → before y x = false.
Hypothesis before_trans : ∀ x y z, ok x → ok y → ok z →
  before y x = false → before z y = false → before z x = false.

Lemma insert_by_in_order x l :
  ok x → Forall ok l →
  in_order (λ a b, before b a = false) l →
  in_order (λ a b, before b a = false) (insert_by before x l).
Proof.
  intros Hx Hl Ho. induction l as [|y l IH]; cbn.
  - apply in_order_cons. split; [done|apply in_order_nil].
  - apply in_order_cons in Ho as [Hy Ho]. apply Forall_cons in Hl as [Hoy Hl].
    destruct (before y x) eqn:E.
    + apply in_order_cons. split; [|by apply IH].
      rewrite insert_by_perm. apply Forall_cons. split; [|done].
      by apply before_asym.
    + apply in_order_cons. split; [|by apply in_order_cons].
      apply Forall_cons. split; [done|].
      rewrite Forall_forall in Hy, Hl |- *. intros z Hz.
      apply (before_trans x y z); auto.
Qed.

Lemma sorted_by_in_order l :
  Forall ok l → in_order (λ a b, before b a = false) (sorted_by before l).
Proof.
  induction l as [|x l IH]; intros Hl; [apply in_order_nil|].
  change (sorted_by before (x :: l)) with (insert_by before x (sorted_by before l)).
  apply Forall_cons in Hl as [Hx Hl].
  apply insert_by_in_order; [done| |by apply IH].
  by rewrite sorted_by_perm.
Qed.

End Ordered.

(** Stability: elements that [before] does not separate keep their input
    order. *)
Lemma filter_insert_by (p : A → bool) x l :
  (∀ y, y ∈ l → p x = true → p y = true → before y x = false) →
  List.filter p (insert_by before x l) = List.filter p (x :: l).
Proof.
  induction l as [|y l IH]; intros Hp; [done|]. cbn [insert_by].
  destruct (before y x) eqn:E; [|done].
  cbn [List.filter]. rewrite IH by (intros; apply Hp; set_solver).
  cbn [List.filter]. destruct (p x) eqn:Ex, (p y) eqn:Ey; try done.
  rewrite Hp in E; [done|set_solver|done..].
Qed.

Lemma sorted_by_stable (p : A → bool) l :
  (∀ x y, x ∈ l → y ∈ l → p x = true → p y = true → before y x = false) →
  List.filter p (sorted_by before l) = List.filter p l.
Proof.
  induction l as [|x l IH]; intros Hp; [done|].
  change (sorted_by before (x :: l)) with (insert_by before x (sorted_by before l)).
  rewrite filter_insert_by.
  - cbn [List.filter]. rewrite IH by (intros; apply Hp; set_solver). done.
  - intros y Hy. rewrite sorted_by_perm in Hy. apply Hp; set_solver.
Qed.

End SortingFacts.

Lemma filter_take_prefix {A} (p : A → bool) n (l : list A) :
  List.filter p (take n l) `prefix_of` List.filter p l.
Proof.
  rewrite <- (take_drop n l) at 2. rewrite List.filter_app. by eexists.
Qed.

(** Sorting by a float key that is never a NaN. *)
Section KeySort.
Context {A : Type} (key : A → float).

Lemma sorted_by_ascending l :
  Forall (λ x, is_nan (key x) = false) l →
  in_order (λ x y, (key x <=? key y)%float = true)
    (sorted_by (λ x y, (key x <? key y)%float) l).
Proof.
  intros Hl. set (before := λ x y, (key x <? key y)%float).
  assert (Forall (λ x, is_nan (key x) = false) (sorted_by before l)) as Hs
    by (by rewrite sorted_by_perm).
  assert (in_order (λ a b, before b a = false) (sorted_by before l)) as Ho.
  { apply (sorted_by_in_order before (λ x, is_nan (key x) = false)); [| |done].
    - intros a b _ _. apply Order.ltb_asym.
    - intros a b c Ha Hb Hc. by apply Order.ltb_false_trans. }
  intros i j x y Hij Hx Hy.
  apply Order.ltb_false_leb.
  - exact (Forall_lookup_1 _ _ _ _ Hs Hy).
  - exact (Forall_lookup_1 _ _ _ _ Hs Hx).
  - exact (Ho i j x y Hij Hx Hy).
Qed.

Lemma sorted_by_descending l :
  Forall (λ x, is_nan (key x) = false) l →
  in_order (λ x y, (key y <=? key x)%float = true)
    (sorted_by (λ x y, (key y <? key x)%float) l).
Proof.
  intros Hl. set (before := λ x y, (key y <? key x)%float).
  assert (Forall (λ x, is_nan (key x) = false) (sorted_by before l)) as Hs
    by (by rewrite sorted_by_perm).
  assert (in_order (λ a b, before b a = false) (sorted_by before l)) as Ho.
  { apply (sorted_by_in_order before (λ x, is_nan (key x) = false)); [| |done].
    - intros a b _ _. apply Order.ltb_asym.
    - intros a b c Ha Hb Hc H1 H2.
      by apply (Order.ltb_false_trans (key c) (key b) (key a)). }
  intros i j x y Hij Hx Hy.
  apply Order.ltb_false_leb.
  - exact (Forall_lookup_1 _ _ _ _ Hs Hx).
  - exact (Forall_lookup_1 _ _ _ _ Hs Hy).
  - exact (Ho i j x y Hij Hx Hy).
Qed.

End KeySort.

(** * The claims about selection and ranking *)

Section RankFacts.
Context `{Externals}.

Lemma candidates_of_value user_loc df :
  (∀ row, row ∈ df →
     ∃ d, geodesic_meters user_loc (row_lat row, row_lng row) = Ok d ∧
          is_nan d = false) →
  ∃ candidates,
    candidates_of user_loc df = Ok candidates ∧
    Forall2 (λ row c, name c = row_name row ∧ lat c = row_lat row ∧
                      lng c = row_lng row ∧
                      geodesic_meters user_loc (row_lat row, row_lng row)
                      = Ok (distance c)) df candidates ∧
    Forall (λ c, is_nan (distance c) = false) candidates.
Proof.
  induction df as [|row df IH]; intros Hd.
  - exists []. by split_and!.
  - destruct (Hd row) as (d & Hg & Hn); [set_solver|].
    destruct IH as (cs & Hcs & Hrows & Hnan); [intros; apply Hd; set_solver|].
    unfold candidates_of in *. cbn [mapM_result]. rewrite Hg; cbn [rbind].
    rewrite Hcs; cbn [rbind]. eexists. split_and!; [done| |].
    + apply Forall2_cons. by split_and!.
    + by apply Forall_cons.
Qed.

Lemma nearest_5_in_order candidates :
  Forall (λ c, is_nan (distance c) = false) candidates →
  in_order not_farther (sorted_by nearer candidates).
Proof. apply (sorted_by_ascending distance). Qed.

Lemma sorted_by_nearer_stable d candidates :
  List.filter (at_distance d) (sorted_by nearer candidates)
  = List.filter (at_distance d) candidates.
Proof.
  apply sorted_by_stable. intros x y _ _ Hx Hy.
  by apply (Order.eqb_ltb_false _ _ d).
Qed.

Lemma safe_int_value val default :
  py_int val ≠ Raise OverflowError →
  ∃ z, safe_int val default = Ok z ∧
       (∀ n, py_int val = Ok n → z = n) ∧
       (∀ e, py_int val = Raise e → z = default).
Proof.
  intros Hov. unfold safe_int.
  assert (∀ e, py_int val = Raise e → e = ValueError ∨ e = TypeError) as He.
  { intros e He. destruct val as [|b|z|f|s|l|o]; cbn in *; try discriminate;
      try by (injection He as <-; auto).
    - unfold Py.int_of_float in *.
      destruct (Prim2SF f); try done; by (injection He as <-; auto).
    - destruct (int_of_str s); [done|]. injection He as <-; auto. }
  destruct (py_int val) as [z|e] eqn:E.
  - exists z. split_and!; [done|by intros ? [= <-]|done].
  - destruct (He e eq_refl) as [-> | ->]; exists default; split_and!; try done;
      by intros ? [= <-].
Qed.

Lemma rescore_value up o features total_score supply_rate :
  o !! "data" = Some features →
  calculate_recommendation_score up features = Ok (total_score, supply_rate) →
  rescore up (JObj o)
  = Ok (JObj (<[ "match_rate" := JFloat supply_rate ]>
               (<[ "match_score" := JFloat total_score ]> o))).
Proof.
  intros Hd Hc. unfold rescore. cbn [getitem]. rewrite Hd; cbn [rbind].
  by rewrite Hc.
Qed.

Lemma rescore_all up items :
  Forall scorable items →
  ∃ results, mapM_result (rescore up) items = Ok results ∧
             Forall2 (rescored up) items results.
Proof.
  induction 1 as [|item items Hi _ (results & Hr & Hall)].
  - exists []. by split.
  - destruct Hi as (o & features & c & sa & sb & sc & -> & Hd & Hs).
    pose proof (calculate_spec up features c sa sb sc Hs) as Hc. cbv zeta in Hc.
    cbn [mapM_result]. rewrite (rescore_value _ _ _ _ _ Hd Hc); cbn [rbind].
    rewrite Hr; cbn [rbind]. eexists. split; [done|].
    apply Forall2_cons. split; [|done].
    eexists o, _, features, _, _. split_and!; try done.
    + by rewrite lookup_insert_ne, lookup_insert_eq.
    + by rewrite lookup_insert_eq.
    + intros k ? ?. by rewrite !lookup_insert_ne.
Qed.

Lemma rescored_defined up items results :
  Forall rankable items → Forall2 (rescored up) items results →
  Forall (λ entry, is_nan (match_score entry) = false) results.
Proof.
  intros Hrank Hres. induction Hres as [|item entry items results Hr _ IH].
  - apply Forall_nil_2.
  - apply Forall_cons in Hrank as [Hi Hrank]. apply Forall_cons_2; [|by apply IH].
    destruct Hi as (o & features & c & sa & sb & sc & -> & Hd & Hs & Hc).
    destruct Hr as (o1 & o' & f' & t & r & [= <-] & -> & Hd' & Hcalc & Ht & _).
    rewrite Hd in Hd'. injection Hd' as <-.
    cbn [match_score]. rewrite Ht.
    by apply (total_score_defined up features c sa sb sc t r).
Qed.

Lemma sorted_by_better_stable s results :
  List.filter (with_score s) (sorted_by better results)
  = List.filter (with_score s) results.
Proof.
  apply sorted_by_stable. intros x y _ _ Hx Hy.
  by apply (Order.eqb_ltb_false _ _ s).
Qed.

End RankFacts.

(** The selection among candidates whose distances are numbers. *)
Lemma nearest_5_facts (candidates : list candidate) :
  Forall (λ c, is_nan (distance c) = false) candidates →
  length (nearest_5 candidates) = Nat.min 5 (length candidates) ∧
  in_order not_farther (nearest_5 candidates) ∧
  (∃ rest, nearest_5 candidates ++ rest ≡ₚ candidates ∧
           ∀ x y, x ∈ nearest_5 candidates → y ∈ rest → not_farther x y) ∧
  (∀ d, List.filter (at_distance d) (nearest_5 candidates)
        `prefix_of` List.filter (at_distance d) candidates).
Proof.
  intros Hnan. pose proof (sorted_by_ascending distance candidates Hnan) as Ho.
  unfold nearest_5. split_and!.
  - rewrite length_take, sorted_by_length. lia.
  - by apply in_order_take.
  - exists (drop 5 (sorted_by nearer candidates)). split.
    + by rewrite take_drop, sorted_by_perm.
    + intros x y [i Hx]%list_elem_of_lookup [j Hy]%list_elem_of_lookup.
      apply lookup_take_Some in Hx as [Hx Hi]. rewrite lookup_drop in Hy.
      apply (Ho i (5 + j)%nat); [lia|done..].
  - intros d. rewrite <- (sorted_by_stable nearer (at_distance d) candidates).
    + apply filter_take_prefix.
    + intros x y _ _ Hx Hy. by apply (Order.eqb_ltb_false _ _ d).
Qed.

Section SelectionFacts.
Context `{Externals}.

Lemma candidates_of_link user_loc df candidates :
  candidates_of user_loc df = Ok candidates →
  Forall2 (candidate_of_row user_loc) df candidates.
Proof.
  unfold candidates_of. revert candidates.
  induction df as [|row df IH]; intros candidates; cbn [mapM_result].
  - intros [= <-]. apply Forall2_nil_2.
  - destruct (geodesic_meters user_loc (row_lat row, row_lng row)) as [d|] eqn:Eg;
      [cbn [rbind]|done].
    destruct (mapM_result _ df) as [cs|]; [cbn [rbind]|done].
    intros [= <-]. apply Forall2_cons. split; [by split_and!|by apply IH].
Qed.

(** The loop appends the candidates, in table order, to the list it is
    given and touches no other list. *)
Lemma append_candidates user_loc a df :
  ∀ candidates st l,
    candidates_of user_loc df = Ok candidates → st !! a = Some l →
    ∃ st', foldM (append_candidate user_loc a) st df = Ok st' ∧
           st' !! a = Some (l ++ candidates) ∧ length st' = length st ∧
           ∀ b, b ≠ a → st' !! b = st !! b.
Proof.
  unfold candidates_of.
  induction df as [|row df IH]; intros candidates st l; cbn [mapM_result foldM].
  - intros [= <-] Hl. exists st. by rewrite app_nil_r.
  - unfold append_candidate at 1.
    destruct (geodesic_meters user_loc (row_lat row, row_lng row)) as [d|] eqn:Eg;
      [cbn [rbind]|done].
    destruct (mapM_result _ df) as [cs|] eqn:Ecs; [cbn [rbind]|done].
    intros [= <-] Hl. set (c := {| name := row_name row; distance := d |}).
    destruct (IH cs (list_append a c st) (l ++ [c]) eq_refl) as (st' & Hf & Ha & Hlen & Hb).
    { unfold list_append. by rewrite list_lookup_alter_eq, Hl. }
    exists st'. split_and!; [done|by rewrite Ha, <- app_assoc| |].
    + rewrite Hlen. unfold list_append. apply length_alter.
    + intros b Hne. rewrite (Hb b Hne). unfold list_append.
      by apply list_lookup_alter_ne.
Qed.

Lemma select_nearest_value user_loc df candidates st :
  candidates_of user_loc df = Ok candidates →
  ∃ st',
    select_nearest user_loc df st
    = Ok (length st, S (S (length st)), st') ∧
    st' !! S (S (length st)) = Some (nearest_5 candidates) ∧
    st' !! length st = Some candidates ∧
    ∀ a l, st !! a = Some l → st' !! a = Some l.
Proof.
  intros Hcs. unfold select_nearest, new_list.
  destruct (append_candidates user_loc (length st) df candidates (st ++ [[]]) [] Hcs)
    as (st2 & Hf & Ha & Hlen & Hb).
  { by rewrite lookup_app_r, Nat.sub_diag. }
  rewrite Hf; cbn [rbind]. unfold list_sorted, list_slice, new_list.
  rewrite length_app, Nat.add_1_r in Hlen.
  rewrite Ha. cbn [from_option app]. unfold id.
  rewrite length_app, Nat.add_1_r, Hlen.
  rewrite (lookup_app_r st2), Hlen, Nat.sub_diag by lia. cbn [lookup list_lookup from_option].
  eexists. split; [reflexivity|]. split_and!.
  - rewrite lookup_app_r by (rewrite length_app, Nat.add_1_r; lia).
    rewrite length_app, Nat.add_1_r, Hlen, Nat.sub_diag.
    cbn [lookup list_lookup]. unfold slice, nearest_5. by rewrite drop_0.
  - rewrite !lookup_app_l by (rewrite ?length_app, ?Nat.add_1_r; lia). done.
  - intros a l Hl. pose proof (lookup_lt_Some _ _ _ Hl) as Hlt.
    rewrite !lookup_app_l by (rewrite ?length_app, ?Nat.add_1_r; lia).
    rewrite Hb by lia. by apply lookup_app_l_Some.
Qed.

End SelectionFacts.

(** C7.  Whatever the user's location and the table of [n] shelters (each
    at a distance that is a number), the selection returns [min(5, n)]
    candidates in ascending order of distance.  Each candidate is a row of
    the table with the geodesic distance from the user to it, the
    candidates being in table order; the selected ones are the nearest (no
    candidate left out is nearer than a selected one), and candidates at the
    same distance stay in the order of the table.  Nothing is mutated:
    [sorted] and the slice build new lists, so that after the selection
    the list [candidates] still holds all the candidates in table order,
    [nearest_5] is another list, and every list that existed before is as
    it was. *)
Theorem nearest_5_selection `{Externals} user_loc df st :
  (∀ row, row ∈ df →
     ∃ d, geodesic_meters user_loc (row_lat row, row_lng row) = Ok d ∧
          is_nan d = false) →
  ∃ candidates a_candidates a_nearest st',
    candidates_of user_loc df = Ok candidates ∧
    Forall2 (candidate_of_row user_loc) df candidates ∧
    length candidates = length df ∧
    length (nearest_5 candidates) = Nat.min 5 (length df) ∧
    in_order not_farther (nearest_5 candidates) ∧
    (∃ rest, nearest_5 candidates ++ rest ≡ₚ candidates ∧
             ∀ x y, x ∈ nearest_5 candidates → y ∈ rest → not_farther x y) ∧
    (∀ d, List.filter (at_distance d) (nearest_5 candidates)
          `prefix_of` List.filter (at_distance d) candidates) ∧
    select_nearest user_loc df st = Ok (a_candidates, a_nearest, st') ∧
    st' !! a_nearest = Some (nearest_5 candidates) ∧
    st' !! a_candidates = Some candidates ∧
    a_nearest ≠ a_candidates ∧
    (∀ a l, st !! a = Some l → st' !! a = Some l).
Proof.
  intros Hd. destruct (candidates_of_value user_loc df Hd) as (cs & Hcs & _ & Hnan).
  pose proof (candidates_of_link user_loc df cs Hcs) as Hrows.
  pose proof (Forall2_length _ _ _ Hrows) as Hlen.
  destruct (nearest_5_facts cs Hnan) as (Hn & Ho & Hrest & Hstable).
  destruct (select_nearest_value user_loc df cs st Hcs) as (st' & Hsel & Hnear & Hcand & Hold).
  exists cs, (length st), (S (S (length st))), st'.
  split_and!; try done; [by rewrite <- Hlen in Hn|lia].
Qed.

(** Seven shelters on the grid, two pairs of them at equal distance, and a
    store that holds one list already. *)
Lemma nearest_5_selection_witness :
  let user_loc := (JFloat 0, JFloat 0) in
  let st : store := [[]] in
  ∃ candidates a_candidates a_nearest st',
    candidates_of (H := sample_externals) user_loc sample_rows = Ok candidates ∧
    Forall2 (candidate_of_row (H := sample_externals) user_loc) sample_rows candidates ∧
    length candidates = length sample_rows ∧
    length (nearest_5 candidates) = Nat.min 5 (length sample_rows) ∧
    in_order not_farther (nearest_5 candidates) ∧
    (∃ rest, nearest_5 candidates ++ rest ≡ₚ candidates ∧
             ∀ x y, x ∈ nearest_5 candidates → y ∈ rest → not_farther x y) ∧
    (∀ d, List.filter (at_distance d) (nearest_5 candidates)
          `prefix_of` List.filter (at_distance d) candidates) ∧
    select_nearest (H := sample_externals) user_loc sample_rows st
    = Ok (a_candidates, a_nearest, st') ∧
    st' !! a_nearest = Some (nearest_5 candidates) ∧
    st' !! a_candidates = Some candidates ∧
    a_nearest ≠ a_candidates ∧
    (∀ a l, st !! a = Some l → st' !! a = Some l).
Proof.
  apply (nearest_5_selection (H := sample_externals) (JFloat 0, JFloat 0) sample_rows
           [[]]).
  intros row Hrow. unfold sample_rows in Hrow.
  repeat (apply elem_of_cons in Hrow as [->|Hrow]; [eexists; split; reflexivity|]).
  by apply elem_of_nil in Hrow.
Defined.


(** C9.  For a recalculation request whose entries can be scored, every
    entry of the answer is an entry of the request with the two scores of its
    own features written over [match_score] and [match_rate]; its features
    ([data]), [name], [lat], [lng], [distance] and any other field are as
    they were.  The answer holds the same entries as the rescored list; when
    no reported congestion is a NaN, so that [<] orders the scores, it is in
    descending order of [match_score], entries with the same score in their
    order in the request. *)
Theorem recalculation_frame `{Externals} data up items :
  make_profile data = Ok up →
  py_iter (default (JArr []) (data !! "shelter_list")) = Ok items →
  Forall scorable items →
  ∃ results body,
    recalculate_shelters data = Json200 body ∧
    Forall2 (rescored up) items results ∧
    Forall2 (λ item entry, ∀ k, k ∈ ["data"; "name"; "lat"; "lng"; "distance"] →
                                getitem entry k = getitem item k) items results ∧
    body ≡ₚ results ∧
    (Forall rankable items →
     in_order not_worse body ∧
     ∀ s, List.filter (with_score s) body = List.filter (with_score s) results).
Proof.
  intros Hup Hit Hsc. destruct (rescore_all up items Hsc) as (results & Hr & Hall).
  exists results, (sorted_by better results).
  split_and!.
  - unfold recalculate_shelters. cbv zeta. rewrite Hup; cbn [rbind].
    rewrite Hit; cbn [rbind]. by rewrite Hr.
  - done.
  - eapply Forall2_impl; [exact Hall|].
    intros item entry (o & o' & f & t & r & -> & -> & _ & _ & _ & _ & Hk) k Hin.
    cbn [getitem]. rewrite Hk; [done|..]; intros ->;
      repeat (apply elem_of_cons in Hin as [?|Hin]; [discriminate|]);
      by apply elem_of_nil in Hin.
  - apply sorted_by_perm.
  - intros Hrank. split.
    + apply (sorted_by_descending match_score).
      by apply (rescored_defined up items).
    + intros s. apply sorted_by_better_stable.
Qed.

(** Two entries rescored for three people who want item a and avoid c: the
    second entry, with the wanted item in stock, comes out first. *)
Lemma recalculation_frame_witness :
  let up := profile_of "最高" "中" "低" 3 in
  let items := [ scored_entry "a" (features_of 90 0 10 40);
                 scored_entry "b" (features_of 10 30 0 0) ] in
  ∃ results body,
    recalculate_shelters (H := sample_externals) sample_request = Json200 body ∧
    Forall2 (rescored (H := sample_externals) up) items results ∧
    Forall2 (λ item entry, ∀ k, k ∈ ["data"; "name"; "lat"; "lng"; "distance"] →
                                getitem entry k = getitem item k) items results ∧
    body ≡ₚ results ∧
    in_order not_worse body ∧
    (∀ s, List.filter (with_score s) body = List.filter (with_score s) results).
Proof.
  cbv zeta.
  destruct (recalculation_frame (H := sample_externals) sample_request
              (profile_of "最高" "中" "低" 3)
              [ scored_entry "a" (features_of 90 0 10 40);
                scored_entry "b" (features_of 10 30 0 0) ])
    as (results & body & Hbody & Hres & Hframe & Hperm & Hsorted).
  - reflexivity.
  - reflexivity.
  - apply Forall_cons_2; [|apply Forall_cons_2; [|apply Forall_nil_2]];
      (eexists _, _, _, _, _, _; split_and!; [reflexivity|reflexivity|];
       repeat split; eexists; split; reflexivity).
  - destruct Hsorted as [Horder Hstable].
    { apply Forall_cons_2; [|apply Forall_cons_2; [|apply Forall_nil_2]];
        (eexists _, _, _, _, _, _;
         split_and!;
         [reflexivity|reflexivity|repeat split; eexists; split; reflexivity
         |reflexivity]). }
    exists results, body.
    exact (conj Hbody (conj Hres (conj Hframe (conj Hperm (conj Horder Hstable))))).
Defined.

(** C10, as stated, fails: a request without [shelter_list] whose adult
    count is an infinite float (the JSON number [1e999] decodes to one) is
    answered with the error payload, because [int()] raises an
    [OverflowError] that [safe_int] does not catch. *)
Lemma recalculation_without_list_counterexample :
  let data : gmap string json := {[ "adult_count" := JFloat infinity ]} in
  data !! "shelter_list" = None ∧
  recalculate_shelters (H := sample_externals) data = Error500 OverflowError.
Proof. split; reflexivity. Qed.

(** C10, as amended.  A recalculation request that leaves out
    [shelter_list], and whose head counts are converted without overflow (no
    count is an infinite float), does not fail: the list defaults to the
    empty one and the answer is the empty ranking, not an error payload. *)
Theorem recalculation_without_list `{Externals} (data : gmap string json) :
  data !! "shelter_list" = None →
  py_int (get data "adult_count") ≠ Raise OverflowError →
  py_int (get data "child_count") ≠ Raise OverflowError →
  recalculate_shelters data = Json200 [].
Proof.
  intros Hnone Ha Hc. unfold recalculate_shelters, make_profile. rewrite Hnone.
  destruct (safe_int_value _ 1 Ha) as (adult & -> & _).
  destruct (safe_int_value _ 0 Hc) as (child & -> & _).
  reflexivity.
Qed.

(** A request with a profile and no list. *)
Lemma recalculation_without_list_witness :
  recalculate_shelters (H := sample_externals)
    (<[ "adult_count" := JInt 2 ]> (<[ "supply_a" := JStr "高" ]> ∅))
  = Json200 [].
Proof.
  apply (recalculation_without_list (H := sample_externals)); [reflexivity|done|done].
Defined.

(** * The claim about the sanitizer *)

(** C6, as stated, fails in three ways: a negative count stays negative; a
    count that is not a number is replaced by 1 for the adults (so that with
    five children the head count is 6, not 5); and a priority that is not
    one of the five labels is passed on as it is. *)
Lemma sanitizer_counterexample :
  safe_int (H := sample_externals) (JInt (-3)) 0 = Ok (-3) ∧
  (∃ up,
     make_profile (H := sample_externals)
       (<[ "adult_count" := JArr [] ]> (<[ "child_count" := JInt 5 ]> ∅)) = Ok up ∧
     total_people up = 6) ∧
  (∃ up,
     make_profile (H := sample_externals) {[ "supply_a" := JStr "banana" ]} = Ok up ∧
     needs up !! "supply_a" = Some "banana" ∧
     "banana" ∉ [Spec.Highest; Spec.High; Spec.Medium; Spec.Low; Spec.Lowest]).
Proof.
  split_and!; [reflexivity|by eexists|].
  eexists. split_and!; [reflexivity|reflexivity|].
  intros Hin. repeat (apply elem_of_cons in Hin as [?|Hin]; [discriminate|]).
  by apply elem_of_nil in Hin.
Qed.

(** C6, as amended.  When neither raw count is a float whose conversion
    overflows (an infinite one), the sanitizer turns the raw adult and child
    counts into integers, negative ones included, and takes 1 for the adults
    and 0 for the children when the raw value is missing or is not a number
    ([int()] raises a [ValueError] or a [TypeError]); the head count is
    their sum, floored at 1.  A missing or empty priority becomes Medium;
    any other is passed on as a string ([str] of the raw value), which need
    not be one of the five labels: the score engine gives the item the
    weight of its label, and the Medium weight, 3, when the label is not
    one of the five. *)
Theorem sanitizer_profile `{Externals} (data : gmap string json) :
  py_int (get data "adult_count") ≠ Raise OverflowError →
  py_int (get data "child_count") ≠ Raise OverflowError →
  ∃ adult child up,
    safe_int (get data "adult_count") 1 = Ok adult ∧
    safe_int (get data "child_count") 0 = Ok child ∧
    (∀ n, py_int (get data "adult_count") = Ok n → adult = n) ∧
    (∀ e, py_int (get data "adult_count") = Raise e → adult = 1) ∧
    (∀ n, py_int (get data "child_count") = Ok n → child = n) ∧
    (∀ e, py_int (get data "child_count") = Raise e → child = 0) ∧
    make_profile data = Ok up ∧
    total_people up = Z.max 1 (adult + child) ∧
    1 ≤ total_people up ∧
    ∀ item, item ∈ supply_items →
      needs up !! item = Some (safe_str (get data item) "中") ∧
      (data !! item = None ∨ data !! item = Some JNull ∨
       data !! item = Some (JStr "") → needs up !! item = Some Spec.Medium) ∧
      (∀ v, data !! item = Some v → v ≠ JNull → v ≠ JStr "" →
            needs up !! item = Some (py_str v)) ∧
      (∀ s, data !! item = Some (JStr s) → s ≠ "" → needs up !! item = Some s) ∧
      (∀ label, needs up !! item = Some label →
         item_weight up item = weight_of label ∧
         (label ∉ [Spec.Highest; Spec.High; Spec.Medium; Spec.Low; Spec.Lowest] →
          item_weight up item = weight_of Spec.Medium ∧ item_weight up item = 3)) ∧
      In (item_weight up item) table_weights.
Proof.
  intros Ha Hc.
  destruct (safe_int_value _ 1 Ha) as (adult & Hadult & Ha1 & Ha2).
  destruct (safe_int_value _ 0 Hc) as (child & Hchild & Hc1 & Hc2).
  eexists adult, child, _. split_and!; try done.
  - unfold make_profile. rewrite Hadult; cbn [rbind]. rewrite Hchild; cbn [rbind].
    reflexivity.
  - reflexivity.
  - cbn. lia.
  - intros item Hitem.
    assert (needs
              {| needs :=
                   <[ "supply_a" := safe_str (get data "supply_a") "中" ]> (
                   <[ "supply_b" := safe_str (get data "supply_b") "中" ]> (
                   <[ "supply_c" := safe_str (get data "supply_c") "中" ]> ∅));
                 total_people := Z.max 1 (adult + child) |} !! item
            = Some (safe_str (get data item) "中")) as Hneed.
    { unfold supply_items in Hitem. cbn [needs].
      repeat (apply elem_of_cons in Hitem as [->|Hitem];
              [by rewrite ?lookup_insert_ne, lookup_insert_eq by done|]).
      by apply elem_of_nil in Hitem. }
    split_and!.
    + done.
    + rewrite Hneed. unfold get. by intros [-> | [-> | ->]].
    + rewrite Hneed. unfold get. intros v -> Hv1 Hv2. cbn [from_option]. unfold id.
      destruct v as [|b|z|f|s|l|o]; try done. by destruct s.
    + rewrite Hneed. unfold get. intros s -> Hs. cbn. by destruct s.
    + intros label Hlabel. unfold item_weight. rewrite Hlabel. cbn [from_option].
      unfold id. split; [done|]. intros Hother.
      assert (weight_of label = 3) as ->; [|by split].
      apply weight_of_other; intros ->; apply Hother;
        repeat first [apply list_elem_of_here | apply list_elem_of_further].
    + apply weight_of_table.
Qed.

(** Two adults, a child count that is no number, one priority given, one
    empty and one missing. *)
Lemma sanitizer_profile_witness :
  let data : gmap string json :=
    <[ "adult_count" := JInt 2 ]> (
    <[ "child_count" := JNull ]> (
    <[ "supply_a" := JStr "最低" ]> (
    <[ "supply_b" := JStr "" ]> ∅))) in
  ∃ adult child up,
    safe_int (H := sample_externals) (get data "adult_count") 1 = Ok adult ∧
    safe_int (H := sample_externals) (get data "child_count") 0 = Ok child ∧
    (∀ n, py_int (H := sample_externals) (get data "adult_count") = Ok n → adult = n) ∧
    (∀ e, py_int (H := sample_externals) (get data "adult_count") = Raise e → adult = 1) ∧
    (∀ n, py_int (H := sample_externals) (get data "child_count") = Ok n → child = n) ∧
    (∀ e, py_int (H := sample_externals) (get data "child_count") = Raise e → child = 0) ∧
    make_profile (H := sample_externals) data = Ok up ∧
    total_people up = Z.max 1 (adult + child) ∧
    1 ≤ total_people up ∧
    ∀ item, item ∈ supply_items →
      needs up !! item = Some (safe_str (H := sample_externals) (get data item) "中") ∧
      (data !! item = None ∨ data !! item = Some JNull ∨
       data !! item = Some (JStr "") → needs up !! item = Some Spec.Medium) ∧
      (∀ v, data !! item = Some v → v ≠ JNull → v ≠ JStr "" →
            needs up !! item = Some (py_str (H := sample_externals) v)) ∧
      (∀ s, data !! item = Some (JStr s) → s ≠ "" → needs up !! item = Some s) ∧
      (∀ label, needs up !! item = Some label →
         item_weight up item = weight_of label ∧
         (label ∉ [Spec.Highest; Spec.High; Spec.Medium; Spec.Low; Spec.Lowest] →
          item_weight up item = weight_of Spec.Medium ∧ item_weight up item = 3)) ∧
      In (item_weight up item) table_weights.
Proof.
  apply (sanitizer_profile (H := sample_externals)); done.
Defined.

(** * More facts about binary64 comparisons and bounds *)

Module OrderFacts.
Import Float64.

Lemma lex_Lt_le a b c : lex a b = Lt → lex b c ≠ Gt → lex a c = Lt.
Proof.
  destruct a as [[a1 a2] a3], b as [[b1 b2] b3], c as [[c1 c2] c3]; cbn.
  destruct (Z.compare_spec a1 b1), (Z.compare_spec b1 c1),
    (Z.compare_spec a1 c1); try lia; try done;
    destruct (Z.compare_spec a2 b2), (Z.compare_spec b2 c2),
      (Z.compare_spec a2 c2); try lia; try done;
    destruct (Z.compare_spec a3 b3), (Z.compare_spec b3 c3),
      (Z.compare_spec a3 c3); try lia; done.
Qed.

Lemma ltb_leb_trans x y z :
  (x <? y)%float = true → (y <=? z)%float = true → (x <? z)%float = true.
Proof.
  rewrite !Order.ltb_key, Order.leb_key.
  intros (a & b & Ha & Hb & H1) (b' & c & Hb' & Hc & H2).
  rewrite Hb in Hb'. injection Hb' as <-.
  exists a, c. split_and!; try done. by apply (lex_Lt_le a b c).
Qed.

Lemma leb_ltb_false x y : (x <=? y)%float = true → (y <? x)%float = false.
Proof.
  rewrite Order.leb_key. intros (a & b & Ha & Hb & Hlex).
  destruct (y <? x)%float eqn:E; [|done].
  apply Order.ltb_key in E as (b' & a' & Hb' & Ha' & Hlex').
  rewrite Ha in Ha'. rewrite Hb in Hb'. injection Ha' as <-. injection Hb' as <-.
  rewrite Order.lex_antisym, Hlex' in Hlex. done.
Qed.

(** A double that is at least zero is a zero, a positive finite double or
    the positive infinity. *)
Lemma leb_0_signed x :
  (0 <=? x)%float = true →
  match Prim2SF x with
  | S754_zero _ => True
  | S754_finite s _ _ | S754_infinity s => s = false
  | S754_nan => False
  end.
Proof.
  rewrite Order.leb_key. intros (a & b & [= <-] & Hb & Hlex). unfold key in Hb.
  destruct (Prim2SF x) as [s|[]| |[] m e]; cbn in Hb; try done;
    injection Hb as <-; by contradict Hlex.
Qed.

End OrderFacts.

Module RoundingFacts.
Import Float64 Rounding.

(** [100 - c] for a [c] that is at least zero. *)
Lemma SFsub_hundred_below x :
  match x with
  | S754_zero _ => True
  | S754_finite s _ _ | S754_infinity s => s = false
  | S754_nan => False
  end →
  below 100 (SFsub prec emax hundred x).
Proof.
  destruct x as [s|s| |s m e]; cbn [SFsub]; [| |done|].
  - intros _. split; [lia|]. reflexivity.
  - by intros ->.
  - intros ->. set (ez := Z.min (-46) e).
    assert (ez ≤ -46) as H1 by lia. assert (ez ≤ e) as H2 by lia.
    apply binary_normalize_below; [lia|done|]. right. split; [lia|].
    rewrite !shl_align_fst by done. cbn [cond_Zopp].
    change (Z.pos 7036874417766400) with (100 * 2 ^ 46).
    replace (- ez) with (46 + (-46 - ez)) by lia.
    rewrite Z.pow_add_r by lia.
    pose proof (pow2_pos (-46 - ez) ltac:(lia)). pose proof (pow2_pos (e - ez) ltac:(lia)).
    nia.
Qed.

Lemma below_100_0 : below 100 (Prim2SF 0).
Proof. exact I. Qed.

(** The blend of a large group: weights 7 and 3. *)
Lemma blend_7_3_leb c s :
  (0 <=? c)%float = true → (s <=? 100)%float = true →
  (Py.round1 ((Py.max 0 (100 - c) * 7 + s * 3) / (7 + 3)) <=? 100)%float = true.
Proof.
  intros Hc Hs. apply leb_100_below in Hs. apply OrderFacts.leb_0_signed in Hc.
  apply below_100_leb, round1_below.
  change (7 + 3)%float with 10%float.
  rewrite div_spec, add_spec, !mul_spec.
  change (Prim2SF 7) with (S754_finite false 7881299347898368 (-50)).
  change (Prim2SF 3) with (S754_finite false 6755399441055744 (-51)).
  change (Prim2SF 10) with ten.
  apply SFdiv_ten_below; [lia|done|].
  change (100 * 10) with (100 * 7 + 100 * 3).
  apply SFadd_below; [lia|lia|done|..].
  - apply (SFmul_below 100 7); [lia|lia|done|lia|done|].
    unfold Py.max. destruct (0 <? 100 - c)%float; [|exact below_100_0].
    rewrite sub_spec. change (Prim2SF 100) with hundred.
    by apply SFsub_hundred_below.
  - by apply (SFmul_below 100 3); [lia|lia|done|lia|done|].
Qed.

End RoundingFacts.

Module Capacity.
Import Float64 Rounding.

Lemma binary_normalize_not_above M e :
  M ≤ 0 → SFltb (S754_zero false) (binary_normalize prec emax M e false) = false.
Proof.
  intros HM. destruct M as [|m|m]; [done|lia|]. cbn [binary_normalize].
  pose proof (binary_round_signed true m e) as Hs.
  by destruct (binary_round prec emax true m e) as [[]|[]| |[]].
Qed.

(** [100 - c] is not above zero for a [c] of 100 or more. *)
Lemma sub_over_capacity c : (100 <=? c)%float = true → (0 <? 100 - c)%float = false.
Proof.
  rewrite Order.leb_key, key_100. intros (a & b & [= <-] & Hb & Hlex).
  rewrite FloatAxioms.ltb_spec, sub_spec.
  change (Prim2SF 100) with hundred. change (Prim2SF 0) with (S754_zero false).
  unfold key in Hb.
  destruct (Prim2SF c) as [s|[]| |[] m e] eqn:Hc; cbn [rank] in Hb; try done;
    injection Hb as <-; try by contradict Hlex.
  rewrite lex_positive in Hlex.
  destruct (valid_digits c _ _ _ Hc) as [_ Hnorm].
  assert (-46 ≤ e) as Hle.
  { destruct (Z.compare_spec (-46) e); try lia. by contradict Hlex. }
  unfold SF64sub. cbn [SFsub]. rewrite (Z.min_l (-46) e Hle).
  apply binary_normalize_not_above.
  rewrite !shl_align_fst by lia.
  cbn [cond_Zopp]. change (-46 - -46) with 0. rewrite Z.pow_0_r, Z.mul_1_r.
  destruct (Z.compare_spec (-46) e) as [<-|Hlt|Hgt].
  - change (-46 - -46) with 0. rewrite Z.pow_0_r, Z.mul_1_r.
    destruct (Z.compare_spec 7036874417766400 (Z.pos m)); try lia. by contradict Hlex.
  - specialize (Hnorm ltac:(lia)).
    assert (2 ^ 1 ≤ 2 ^ (e - -46)) by (apply Z.pow_le_mono_r; lia).
    change (2 ^ 52) with 4503599627370496 in Hnorm. change (2 ^ 1) with 2 in *. nia.
  - by contradict Hlex.
Qed.

Lemma max_0_over_capacity c : (100 <=? c)%float = true → Py.max 0 (100 - c) = 0%float.
Proof. intros Hc. unfold Py.max. by rewrite (sub_over_capacity c Hc). Qed.

End Capacity.

(** * Further properties of the score *)

Section ScoreReading.
Context `{Externals}.

Lemma read_features_snapshot sf c sa sb sc :
  read_features sf = Ok (c, sa, sb, sc) ↔ snapshot sf c sa sb sc.
Proof.
  unfold read_features, snapshot, feature. split.
  - destruct (getitem sf "congestion") as [v0|] eqn:E0; cbn [rbind]; [|done].
    destruct (py_float v0) as [c'|] eqn:F0; cbn [rbind]; [|done].
    destruct (getitem sf "supply_a") as [v1|] eqn:E1; cbn [rbind]; [|done].
    destruct (py_float v1) as [sa'|] eqn:F1; cbn [rbind]; [|done].
    destruct (getitem sf "supply_b") as [v2|] eqn:E2; cbn [rbind]; [|done].
    destruct (py_float v2) as [sb'|] eqn:F2; cbn [rbind]; [|done].
    destruct (getitem sf "supply_c") as [v3|] eqn:E3; cbn [rbind]; [|done].
    destruct (py_float v3) as [sc'|] eqn:F3; cbn [rbind]; [|done].
    intros [= <- <- <- <-]. split_and!; eauto.
  - intros ((v0 & -> & F0) & (v1 & -> & F1) & (v2 & -> & F2) & (v3 & -> & F3)).
    cbn [rbind]. rewrite F0; cbn [rbind]. rewrite F1; cbn [rbind].
    rewrite F2; cbn [rbind]. by rewrite F3.
Qed.

Lemma read_features_raise up sf e :
  read_features sf = Raise e → calculate_recommendation_score up sf = Raise e.
Proof.
  unfold read_features, calculate_recommendation_score, supply_items.
  destruct (getitem sf "congestion") as [v0|] eqn:E0; cbn [rbind]; [|by intros [= ->]].
  destruct (py_float v0) as [c'|] eqn:F0; cbn [rbind foldM]; [|by intros [= ->]].
  unfold supply_step at 1.
  destruct (getitem sf "supply_a") as [v1|] eqn:E1; cbn [rbind]; [|by intros [= ->]].
  destruct (py_float v1) as [sa'|] eqn:F1; cbn [rbind]; [|by intros [= ->]].
  unfold supply_step at 1.
  destruct (getitem sf "supply_b") as [v2|] eqn:E2; cbn [rbind]; [|by intros [= ->]].
  destruct (py_float v2) as [sb'|] eqn:F2; cbn [rbind]; [|by intros [= ->]].
  unfold supply_step at 1.
  destruct (getitem sf "supply_c") as [v3|] eqn:E3; cbn [rbind]; [|by intros [= ->]].
  destruct (py_float v3) as [sc'|] eqn:F3; cbn [rbind]; [|by intros [= ->]].
  done.
Qed.

Lemma calculate_reads up sf :
  calculate_recommendation_score up sf
  = (fs ← read_features sf ;;; Ok (score_of up fs)).
Proof.
  destruct (read_features sf) as [[[[c sa] sb] sc]|e] eqn:E; cbn [rbind].
  - apply read_features_snapshot in E. by rewrite (calculate_spec up sf c sa sb sc E).
  - by apply read_features_raise.
Qed.

Lemma item_weight_table up item : In (item_weight up item) table_weights.
Proof. apply weight_of_table. Qed.

End ScoreReading.

(** Membership in a list written out. *)
Ltac in_list :=
  unfold feature_keys, supply_items;
  repeat first [apply list_elem_of_here | apply list_elem_of_further].

Section ScoreChecks.
Context `{Externals}.

Lemma rate_in_range_table : for_all_cases table_weights rate_in_range = true.
Proof. vm_compute. reflexivity. Qed.

Lemma rate_monotone_table : for_all_weights table_weights rate_monotone = true.
Proof. vm_compute. reflexivity. Qed.

Lemma rates_of_elem wa wb wc la lb lc :
  In (la, lb, lc, Py.round1 (supply_at wa wb wc la lb lc)) (rates_of wa wb wc).
Proof.
  assert (∀ l, In l stock_levels) as Hl by (intros []; cbn; tauto).
  unfold rates_of. apply in_flat_map. exists la. split; [done|].
  apply in_flat_map. exists lb. split; [done|].
  apply in_map_iff. by exists lc.
Qed.

Lemma monotone_among_spec wa wb wc rates x y :
  monotone_among wa wb wc rates = true → In x rates → In y rates →
  suits_at wa x.1.1.1 y.1.1.1 = true → suits_at wb x.1.1.2 y.1.1.2 = true →
  suits_at wc x.1.2 y.1.2 = true →
  (x.2 <=? y.2)%float = true.
Proof.
  unfold monotone_among. intros Hm Hx Hy Ha Hb Hc.
  rewrite forallb_forall in Hm. specialize (Hm x Hx).
  rewrite forallb_forall in Hm. specialize (Hm y Hy).
  by rewrite Ha, Hb, Hc in Hm.
Qed.

Lemma for_all_weights_spec ws P wa wb wc :
  for_all_weights ws P = true → In wa ws → In wb ws → In wc ws → P wa wb wc = true.
Proof.
  unfold for_all_weights. intros HP Ha Hb Hc.
  rewrite forallb_forall in HP. specialize (HP _ Ha).
  rewrite forallb_forall in HP. specialize (HP _ Hb).
  rewrite forallb_forall in HP. by specialize (HP _ Hc).
Qed.

Lemma rate_monotone_spec wa wb wc la lb lc la' lb' lc' :
  In wa table_weights → In wb table_weights → In wc table_weights →
  suits_at wa la la' = true → suits_at wb lb lb' = true → suits_at wc lc lc' = true →
  (Py.round1 (supply_at wa wb wc la lb lc)
   <=? Py.round1 (supply_at wa wb wc la' lb' lc'))%float = true.
Proof.
  intros Ha Hb Hc Hsa Hsb Hsc.
  pose proof (for_all_weights_spec _ _ wa wb wc rate_monotone_table Ha Hb Hc) as Hm.
  exact (monotone_among_spec wa wb wc _ _ _ Hm (rates_of_elem wa wb wc la lb lc)
           (rates_of_elem wa wb wc la' lb' lc') Hsa Hsb Hsc).
Qed.

Lemma supply_rate_in_range up sa sb sc :
  let s :=
    Py.round1 (Spec.supplyScore (item_weight up "supply_a")
                 (item_weight up "supply_b") (item_weight up "supply_c") sa sb sc) in
  (-13333 / 10 <=? s)%float = true ∧ (s <=? 100)%float = true.
Proof.
  cbv zeta. rewrite supply_score_level.
  assert (rate_in_range (item_weight up "supply_a") (item_weight up "supply_b")
            (item_weight up "supply_c") (level_of sa) (level_of sb) (level_of sc)
          = true) as Hr.
  { apply (for_all_cases_spec _ _ _ _ _ _ _ _ rate_in_range_table);
      apply item_weight_table. }
  unfold rate_in_range in Hr. cbv zeta in Hr. by apply andb_prop in Hr.
Qed.

Lemma level_of_mono s s' :
  (s <=? s')%float = true → level_rank (level_of s) ≤ level_rank (level_of s').
Proof.
  intros Hle. unfold level_of.
  destruct (20 <=? s)%float eqn:E20.
  - by rewrite (Order.leb_trans 20 s s' E20 Hle).
  - destruct (0 <? s)%float eqn:E0.
    + rewrite (OrderFacts.ltb_leb_trans 0 s s' E0 Hle).
      destruct (20 <=? s')%float; cbn; lia.
    + destruct (20 <=? s')%float; [cbn; lia|]. destruct (0 <? s')%float; cbn; lia.
Qed.

Lemma suits_level w s s' :
  suits w s s' → suits_at w (level_of s) (level_of s') = true.
Proof.
  unfold suits, suits_at. destruct (0 <? w); intros Hle%level_of_mono; lia.
Qed.

Lemma is_nan_true x : is_nan x = true → Prim2SF x = S754_nan.
Proof.
  intros Hx. destruct (Prim2SF x) as [s|s| |s m e] eqn:E; [| |done|];
    assert (is_nan x = false) as Hf by (apply NoNaN.is_nan_defined; by rewrite E);
    congruence.
Qed.

Lemma Prim2SF_nan x : Prim2SF x = S754_nan → is_nan x = true.
Proof.
  intros E. destruct (is_nan x) eqn:Hx; [done|].
  apply NoNaN.is_nan_defined in Hx. by rewrite E in Hx.
Qed.

Lemma blend_5_5_nan c s :
  is_nan c = true → is_nan (Py.round1 ((c * 5 + s * 5) / (5 + 5))) = true.
Proof.
  intros Hc%is_nan_true.
  assert (Prim2SF ((c * 5 + s * 5) / (5 + 5)) = S754_nan) as E.
  { rewrite div_spec, add_spec, mul_spec, Hc. reflexivity. }
  apply Prim2SF_nan. unfold Py.round1. by rewrite E.
Qed.

End ScoreChecks.

(** * Properties of the score beyond the claims *)

(** X1.  The score is returned exactly when the four features (congestion
    and the stock of the three items) can be read as numbers; when it is
    not, the exception raised is the same for every user profile; and
    features that are not an object raise [TypeError]. *)
Theorem score_features_readable `{Externals} up sf :
  ((∃ r, calculate_recommendation_score up sf = Ok r)
   ↔ ∃ c sa sb sc, snapshot sf c sa sb sc) ∧
  (∀ up' e, calculate_recommendation_score up sf = Raise e →
            calculate_recommendation_score up' sf = Raise e) ∧
  match sf with
  | JObj _ => True
  | _ => calculate_recommendation_score up sf = Raise TypeError
  end.
Proof.
  split_and!.
  - rewrite calculate_reads. split.
    + destruct (read_features sf) as [[[[c sa] sb] sc]|e] eqn:E; [|by intros [? [=]]].
      intros _. exists c, sa, sb, sc. by apply read_features_snapshot.
    + intros (c & sa & sb & sc & ->%read_features_snapshot). by eexists.
  - intros up' e. rewrite !calculate_reads.
    by destruct (read_features sf).
  - by destruct sf.
Qed.

(** X2.  Features that lack one of the four keys, while the values that are
    there can be read as numbers, raise [KeyError]. *)
Theorem score_missing_feature `{Externals} up o k :
  k ∈ feature_keys → o !! k = None →
  (∀ k' v, k' ∈ feature_keys → o !! k' = Some v → ∃ x, py_float v = Ok x) →
  calculate_recommendation_score up (JObj o) = Raise KeyError.
Proof.
  intros Hk Hnone Hnum. rewrite calculate_reads. unfold read_features, getitem.
  assert (∀ k', k' ∈ feature_keys →
            o !! k' = None ∨ ∃ v x, o !! k' = Some v ∧ py_float v = Ok x) as Hcase.
  { intros k' Hk'. destruct (o !! k') as [v|] eqn:E; [right|by left].
    destruct (Hnum k' v Hk' E) as [x Hx]. by exists v, x. }
  destruct (Hcase "congestion") as [E0|(v0 & x0 & E0 & F0)]; [in_list|by rewrite E0|].
  destruct (Hcase "supply_a") as [E1|(v1 & x1 & E1 & F1)];
    [in_list|by rewrite E0; cbn [rbind]; rewrite F0; cbn [rbind]; rewrite E1|].
  destruct (Hcase "supply_b") as [E2|(v2 & x2 & E2 & F2)];
    [in_list
    |by rewrite E0; cbn [rbind]; rewrite F0; cbn [rbind]; rewrite E1; cbn [rbind];
        rewrite F1; cbn [rbind]; rewrite E2|].
  destruct (Hcase "supply_c") as [E3|(v3 & x3 & E3 & F3)];
    [in_list
    |by rewrite E0; cbn [rbind]; rewrite F0; cbn [rbind]; rewrite E1; cbn [rbind];
        rewrite F1; cbn [rbind]; rewrite E2; cbn [rbind]; rewrite F2; cbn [rbind];
        rewrite E3|].
  unfold feature_keys in Hk.
  repeat (apply elem_of_cons in Hk as [->|Hk]; [congruence|]).
  by apply elem_of_nil in Hk.
Qed.

(** Stock of the second item is not reported. *)
Lemma score_missing_feature_witness :
  calculate_recommendation_score (H := sample_externals)
    (profile_of "高" "中" "低" 2)
    (JObj (<[ "congestion" := JInt 40 ]> (
           <[ "supply_a" := JInt 7 ]> (
           <[ "supply_c" := JFloat 12 ]> ∅))))
  = Raise KeyError.
Proof.
  apply (score_missing_feature (H := sample_externals) _ _ "supply_b").
  - in_list.
  - reflexivity.
  - intros k' v Hk'. unfold feature_keys in Hk'.
    repeat (apply elem_of_cons in Hk' as [->|Hk']; [intros [= <-]; by eexists|]).
    by apply elem_of_nil in Hk'.
Defined.

(** X3.  The score reads nothing but the four features: two feature
    objects that agree on them get the same result, whatever else they
    hold. *)
Theorem score_reads_four_keys `{Externals} up o o' :
  (∀ k, k ∈ feature_keys → o !! k = o' !! k) →
  calculate_recommendation_score up (JObj o)
  = calculate_recommendation_score up (JObj o').
Proof.
  intros Hk. rewrite !calculate_reads. unfold read_features, getitem.
  by rewrite (Hk "congestion"), (Hk "supply_a"), (Hk "supply_b"), (Hk "supply_c")
    by in_list.
Qed.

Lemma score_reads_four_keys_witness :
  let sf := <[ "congestion" := JInt 40 ]> (
            <[ "supply_a" := JInt 7 ]> (
            <[ "supply_b" := JInt 0 ]> (
            <[ "supply_c" := JFloat 12 ]> ∅))) in
  calculate_recommendation_score (H := sample_externals) (profile_of "高" "中" "低" 2)
    (JObj sf)
  = calculate_recommendation_score (H := sample_externals) (profile_of "高" "中" "低" 2)
      (JObj (<[ "name" := JStr "hall" ]> (<[ "capacity" := JInt 300 ]> sf))).
Proof.
  cbv zeta. apply (score_reads_four_keys (H := sample_externals)).
  intros k Hk. unfold feature_keys in Hk.
  repeat (apply elem_of_cons in Hk as [->|Hk]; [reflexivity|]).
  by apply elem_of_nil in Hk.
Defined.

(** X4.  The score depends on the profile only through the weights of the
    three items and through whether the group has six people or more. *)
Theorem score_profile_dependence `{Externals} up up' sf :
  (∀ item, item ∈ supply_items → item_weight up item = item_weight up' item) →
  (6 <=? total_people up) = (6 <=? total_people up') →
  calculate_recommendation_score up sf = calculate_recommendation_score up' sf.
Proof.
  intros Hw Hp. rewrite !calculate_reads.
  destruct (read_features sf) as [[[[c sa] sb] sc]|e]; [cbn [rbind]|done].
  unfold score_of, total_score_of.
  by rewrite (Hw "supply_a"), (Hw "supply_b"), (Hw "supply_c"), Hp by in_list.
Qed.

(** A label outside the table counts as Medium, and one person scores like
    five. *)
Lemma score_profile_dependence_witness :
  calculate_recommendation_score (H := sample_externals)
    (profile_of "most" "低" "中" 1) (features_of 30 25 5 0)
  = calculate_recommendation_score (H := sample_externals)
      (profile_of "中" "低" "" 5) (features_of 30 25 5 0).
Proof.
  apply (score_profile_dependence (H := sample_externals)).
  - intros item Hi. unfold supply_items in Hi.
    repeat (apply elem_of_cons in Hi as [->|Hi]; [reflexivity|]).
    by apply elem_of_nil in Hi.
  - reflexivity.
Defined.

(** X5.  The supply rate the function returns lies between -1333.3 and 100:
    the upper clamp holds after rounding, and the penalties of unwanted
    stock cannot take it lower than the case of one Medium item out of
    stock beside two Lowest items in full stock. *)
Theorem supply_rate_range `{Externals} up sf total_score supply_rate :
  calculate_recommendation_score up sf = Ok (total_score, supply_rate) →
  (-13333 / 10 <=? supply_rate)%float = true ∧ (supply_rate <=? 100)%float = true.
Proof.
  rewrite calculate_reads.
  destruct (read_features sf) as [[[[c sa] sb] sc]|e]; [cbn [rbind]|done].
  intros [= _ <-]. apply supply_rate_in_range.
Qed.

(** The lowest rate is reached. *)
Lemma supply_rate_range_witness :
  calculate_recommendation_score (H := sample_externals)
    (profile_of "中" "最低" "最低" 1) (features_of 0 0 100 100)
  = Ok (-6667 / 10, -13333 / 10)%float ∧
  (-13333 / 10 <=? -13333 / 10)%float = true ∧ (-13333 / 10 <=? 100)%float = true.
Proof.
  split; [reflexivity|].
  apply (supply_rate_range (H := sample_externals)
           (profile_of "中" "最低" "最低" 1) (features_of 0 0 100 100)
           (-6667 / 10)%float (-13333 / 10)%float).
  reflexivity.
Defined.

(** X6.  For six people or more and a congestion that is not negative, the
    composite score the function returns is at most 100, rounding
    included. *)
Theorem composite_score_large_group_bound `{Externals} up sf c sa sb sc :
  snapshot sf c sa sb sc →
  6 ≤ total_people up →
  (0 <=? c)%float = true →
  ∃ total_score supply_rate,
    calculate_recommendation_score up sf = Ok (total_score, supply_rate) ∧
    (total_score <=? 100)%float = true.
Proof.
  intros Hs Hp Hc. rewrite (calculate_spec up sf c sa sb sc Hs).
  eexists _, _. split; [reflexivity|].
  unfold total_score_of. apply Z.leb_le in Hp as ->.
  apply RoundingFacts.blend_7_3_leb; [done|].
  unfold Spec.supplyScore. apply Rounding.min_100_leb.
Qed.

(** An empty shelter with everything wanted in stock: the composite is 100. *)
Lemma composite_score_large_group_bound_witness :
  let up := profile_of Spec.Highest Spec.High Spec.Medium 6 in
  let sf := features_of 0 20 50 100 in
  calculate_recommendation_score (H := sample_externals) up sf = Ok (100, 100)%float ∧
  ∃ total_score supply_rate,
    calculate_recommendation_score (H := sample_externals) up sf
    = Ok (total_score, supply_rate) ∧
    (total_score <=? 100)%float = true.
Proof.
  cbv zeta. split; [reflexivity|].
  assert (snapshot (H := sample_externals) (features_of 0 20 50 100) 0 20 50 100)
    as Hs by (repeat split; eexists; split; reflexivity).
  apply (composite_score_large_group_bound (H := sample_externals) _ _ _ _ _ _ Hs);
    reflexivity.
Defined.

(** X7.  A change of stock that suits the user (no less of an item with a
    positive weight, no more of an item with a negative one) never lowers
    the supply rate the function returns. *)
Theorem supply_rate_monotone `{Externals} up sf sf' c sa sb sc c' sa' sb' sc' :
  snapshot sf c sa sb sc → snapshot sf' c' sa' sb' sc' →
  suits (item_weight up "supply_a") sa sa' →
  suits (item_weight up "supply_b") sb sb' →
  suits (item_weight up "supply_c") sc sc' →
  ∃ total_score supply_rate total_score' supply_rate',
    calculate_recommendation_score up sf = Ok (total_score, supply_rate) ∧
    calculate_recommendation_score up sf' = Ok (total_score', supply_rate') ∧
    (supply_rate <=? supply_rate')%float = true.
Proof.
  intros Hs Hs' Ha%suits_level Hb%suits_level Hc%suits_level.
  rewrite (calculate_spec up sf c sa sb sc Hs),
    (calculate_spec up sf' c' sa' sb' sc' Hs').
  eexists _, _, _, _. split_and!; [reflexivity..|].
  rewrite !supply_score_level.
  by apply rate_monotone_spec; try apply item_weight_table.
Qed.

(** More of the wanted item and none of the unwanted ones. *)
Lemma supply_rate_monotone_witness :
  let up := profile_of "最高" "低" "最低" 3 in
  ∃ total_score supply_rate total_score' supply_rate',
    calculate_recommendation_score (H := sample_externals) up (features_of 50 5 30 1)
    = Ok (total_score, supply_rate) ∧
    calculate_recommendation_score (H := sample_externals) up (features_of 10 60 0 0)
    = Ok (total_score', supply_rate') ∧
    (supply_rate <=? supply_rate')%float = true.
Proof.
  cbv zeta.
  apply (supply_rate_monotone (H := sample_externals) _ _ _ 50 5 30 1 10 60 0 0);
    [repeat split; eexists; split; reflexivity
    |repeat split; eexists; split; reflexivity
    |reflexivity..].
Defined.

(** X8.  The supply rate the function returns is never a NaN, and the
    composite score is a NaN only for fewer than six people and a
    congestion that is one: for six people or more [max(0, 100 - NaN)] is
    0. *)
Theorem score_not_a_number `{Externals} up sf c sa sb sc total_score supply_rate :
  snapshot sf c sa sb sc →
  calculate_recommendation_score up sf = Ok (total_score, supply_rate) →
  is_nan supply_rate = false ∧
  (is_nan total_score = true ↔ total_people up < 6 ∧ is_nan c = true).
Proof.
  intros Hs Hcalc. split.
  - revert Hcalc. rewrite (calculate_spec up sf c sa sb sc Hs). cbv zeta.
    intros [= _ <-].
    destruct (supply_rate_in_range up sa sb sc) as [_ Hle].
    by apply Order.leb_not_nan in Hle as [? _].
  - split.
    + intros Hnan. destruct (Z.ltb_spec (total_people up) 6) as [Hp|Hp].
      * split; [done|]. destruct (is_nan c) eqn:Hc; [done|].
        rewrite (total_score_defined up sf c sa sb sc _ _ Hs Hc Hcalc) in Hnan.
        done.
      * revert Hcalc Hnan. rewrite (calculate_spec up sf c sa sb sc Hs). cbv zeta.
        intros [= <- _]. unfold total_score_of. apply Z.leb_le in Hp as ->.
        rewrite supply_score_level.
        assert (weighted_finite (item_weight up "supply_a") (item_weight up "supply_b")
                  (item_weight up "supply_c") (level_of sa) (level_of sb) (level_of sc)
                = true) as Hf.
        { apply (for_all_cases_spec _ _ _ _ _ _ _ _ weighted_finite_table);
            apply item_weight_table. }
        unfold weighted_finite in Hf. cbv zeta in Hf.
        apply andb_prop in Hf as [_ H3%is_finite_sf_spec].
        by rewrite (NoNaN.blend_7_3_defined c _ H3).
    + intros [Hp Hc]. revert Hcalc.
      rewrite (calculate_spec up sf c sa sb sc Hs). cbv zeta.
      intros [= <- _]. unfold total_score_of. apply Z.leb_gt in Hp as ->.
      by apply blend_5_5_nan.
Qed.

(** A congestion reported as NaN, for two people. *)
Lemma score_not_a_number_witness :
  let up := profile_of "高" "中" "低" 2 in
  let sf := JObj (<[ "congestion" := JFloat nan ]> (
                  <[ "supply_a" := JInt 7 ]> (
                  <[ "supply_b" := JInt 0 ]> (
                  <[ "supply_c" := JInt 12 ]> ∅)))) in
  ∃ total_score supply_rate,
    calculate_recommendation_score (H := sample_externals) up sf
    = Ok (total_score, supply_rate) ∧
    is_nan supply_rate = false ∧
    (is_nan total_score = true ↔ total_people up < 6 ∧ is_nan nan = true).
Proof.
  cbv zeta. eexists _, _. split; [reflexivity|].
  eapply (score_not_a_number (H := sample_externals) (profile_of "高" "中" "低" 2)
            (JObj (<[ "congestion" := JFloat nan ]> (
                   <[ "supply_a" := JInt 7 ]> (
                   <[ "supply_b" := JInt 0 ]> (
                   <[ "supply_c" := JInt 12 ]> ∅))))) nan 7 0 12);
    [repeat split; eexists; split; reflexivity|reflexivity].
Defined.

(** X22.  For six people or more a congestion of 100 or above counts as
    100: the congestion score [max(0, 100 - congestion)] is 0 from there on,
    so two snapshots with the same stocks get the same scores. *)
Theorem composite_score_over_capacity `{Externals} up sf sf' c c' sa sb sc :
  snapshot sf c sa sb sc → snapshot sf' c' sa sb sc →
  6 ≤ total_people up →
  (100 <=? c)%float = true → (100 <=? c')%float = true →
  calculate_recommendation_score up sf = calculate_recommendation_score up sf'.
Proof.
  intros Hs Hs' Hp Hc Hc'.
  rewrite (calculate_spec up sf c sa sb sc Hs), (calculate_spec up sf' c' sa sb sc Hs').
  cbv zeta. unfold total_score_of. apply Z.leb_le in Hp as ->.
  by rewrite (Capacity.max_0_over_capacity c Hc), (Capacity.max_0_over_capacity c' Hc').
Qed.

(** A shelter at capacity and one at two and a half times its capacity. *)
Lemma composite_score_over_capacity_witness :
  let up := profile_of "高" "中" "最低" 8 in
  calculate_recommendation_score (H := sample_externals) up (features_of 100 20 5 0)
  = calculate_recommendation_score (H := sample_externals) up (features_of 250 20 5 0).
Proof.
  cbv zeta.
  apply (composite_score_over_capacity (H := sample_externals) _ _ _ 100 250 20 5 0);
    [repeat split; eexists; split; reflexivity
    |repeat split; eexists; split; reflexivity
    |cbn; lia
    |reflexivity..].
Defined.

(** * Facts about the endpoints *)

Section SortedInput.
Context {A : Type} (before : A → A → bool).

(** A list that is already in order is returned as it is. *)
Lemma sorted_by_fixed l :
  in_order (λ a b, before b a = false) l → sorted_by before l = l.
Proof.
  induction l as [|x l IH]; intros Ho; [done|].
  change (sorted_by before (x :: l)) with (insert_by before x (sorted_by before l)).
  apply in_order_cons in Ho as [Hx Ho]. rewrite (IH Ho).
  destruct l as [|y l]; [done|]. cbn [insert_by].
  apply Forall_cons in Hx as [Hy _]. by rewrite Hy.
Qed.

Lemma in_order_impl (le le' : A → A → Prop) l :
  (∀ x y, le x y → le' x y) → in_order le l → in_order le' l.
Proof. intros Hle Ho i j x y Hij Hx Hy. by eapply Hle, Ho. Qed.

End SortedInput.

Lemma window_within {A} (s : list A) (x : A) :
  x ∈ slice s (if decide (2 ≤ length s)%nat then 1 else 0)%nat
        (if decide (4 ≤ length s)%nat then 4 else length s)%nat →
  x ∈ take 5 s.
Proof.
  unfold slice. intros [i Hi]%list_elem_of_lookup.
  apply lookup_take_Some in Hi as [Hi Hlt]. rewrite lookup_drop in Hi.
  apply list_elem_of_lookup. eexists. apply lookup_take_Some. split; [exact Hi|].
  apply lookup_lt_Some in Hi. repeat case_decide; lia.
Qed.

Section EndpointFacts.
Context `{Externals}.

Lemma draws_table : forallb draw_in_range randint_values = true.
Proof. vm_compute. reflexivity. Qed.

Lemma forallb_elem {A} (P : A → bool) l x : forallb P l = true → x ∈ l → P x = true.
Proof. rewrite forallb_forall. intros HP Hx%list_elem_of_In. by apply HP. Qed.

Lemma draw_value z :
  0 ≤ z ≤ 100 →
  ∃ f, py_float (JInt z) = Ok f ∧ (0 <=? f)%float = true ∧ (f <=? 100)%float = true.
Proof.
  intros Hz. assert (z ∈ randint_values) as Hin by (apply elem_of_seqZ; lia).
  pose proof (forallb_elem _ _ _ draws_table Hin) as Hd.
  unfold draw_in_range in Hd. cbn [py_float].
  destruct (Py.float_of_int z) as [f|]; [|done].
  apply andb_prop in Hd as [? ?]. by exists f.
Qed.

Lemma draw_features_snapshot randint i :
  (∀ k, 0 ≤ randint k ≤ 100) →
  ∃ c sa sb sc,
    snapshot (draw_features randint i) c sa sb sc ∧
    (0 <=? c)%float = true ∧ (c <=? 100)%float = true.
Proof.
  intros Hr.
  destruct (draw_value _ (Hr (4 * i)%nat)) as (c & Hc & H0 & H100).
  destruct (draw_value _ (Hr (4 * i + 1)%nat)) as (sa & Ha & _).
  destruct (draw_value _ (Hr (4 * i + 2)%nat)) as (sb & Hb & _).
  destruct (draw_value _ (Hr (4 * i + 3)%nat)) as (sc & Hsc & _).
  exists c, sa, sb, sc. split; [|done]. unfold snapshot, feature, draw_features, getitem.
  split_and!; eexists; (split; [|eassumption]);
    by rewrite ?lookup_insert_ne, lookup_insert_eq by done.
Qed.

(** Within a congestion of 0 to 100 the composite score is at most 100 for
    every group. *)
Lemma total_score_leb_100 up sf c sa sb sc total_score supply_rate :
  snapshot sf c sa sb sc → (0 <=? c)%float = true → (c <=? 100)%float = true →
  calculate_recommendation_score up sf = Ok (total_score, supply_rate) →
  (total_score <=? 100)%float = true.
Proof.
  intros Hs H0 H100. rewrite (calculate_spec up sf c sa sb sc Hs). cbv zeta.
  intros [= <- _]. unfold total_score_of. destruct (6 <=? total_people up).
  - apply RoundingFacts.blend_7_3_leb; [done|].
    unfold Spec.supplyScore. apply Rounding.min_100_leb.
  - apply Rounding.blend_5_5_leb; [done|].
    unfold Spec.supplyScore. apply Rounding.min_100_leb.
Qed.

Lemma score_candidate_entry up randint i cand entry :
  score_candidate up randint i cand = Ok entry → entry_of up randint i cand entry.
Proof.
  unfold score_candidate.
  destruct (calculate_recommendation_score up (draw_features randint i))
    as [[t s]|] eqn:E; [cbn [rbind]|done].
  intros [= <-]. eexists _, t, s. split; [reflexivity|].
  split_and!; try done; by rewrite ?lookup_insert_ne, lookup_insert_eq by done.
Qed.

Lemma score_candidates_entries up randint l :
  ∀ i results, score_candidates up randint i l = Ok results →
    length results = length l ∧
    ∀ j cand, l !! j = Some cand →
      ∃ entry, results !! j = Some entry ∧ entry_of up randint (i + j) cand entry.
Proof.
  induction l as [|c l IH]; intros i results; cbn [score_candidates].
  - intros [= <-]. split; [done|]. intros j cand Hj. by rewrite lookup_nil in Hj.
  - destruct (score_candidate up randint i c) as [r|] eqn:Er; [cbn [rbind]|done].
    destruct (score_candidates up randint (S i) l) as [rs|] eqn:Ers; [cbn [rbind]|done].
    intros [= <-]. destruct (IH _ _ Ers) as [Hlen Hall]. split; [cbn; lia|].
    intros [|j] cand Hj; cbn in Hj.
    + injection Hj as <-. exists r. split; [done|].
      rewrite Nat.add_0_r. by apply score_candidate_entry.
    + destruct (Hall j cand Hj) as (entry & He & Hent). exists entry. split; [done|].
      by replace (i + S j)%nat with (S i + j)%nat by lia.
Qed.

Lemma score_candidates_ok up randint l :
  (∀ k, 0 ≤ randint k ≤ 100) →
  ∀ i, ∃ results, score_candidates up randint i l = Ok results.
Proof.
  intros Hr. induction l as [|c l IH]; intros i; cbn [score_candidates]; [by eexists|].
  destruct (draw_features_snapshot randint i Hr) as (c0 & sa & sb & sc & Hs & _).
  unfold score_candidate. rewrite (calculate_spec up _ c0 sa sb sc Hs). cbn [rbind].
  destruct (IH (S i)) as [rs ->]. by eexists.
Qed.

Lemma entry_of_consistent up randint i cand entry :
  entry_of up randint i cand entry → consistent up entry.
Proof.
  intros (o & t & s & -> & Hc & _ & _ & _ & _ & Hd & Ht & Hs).
  by exists o, (draw_features randint i), t, s.
Qed.

Lemma entry_of_bound up randint i cand entry :
  (∀ k, 0 ≤ randint k ≤ 100) →
  entry_of up randint i cand entry → (match_score entry <=? 100)%float = true.
Proof.
  intros Hr (o & t & s & -> & Hc & _ & _ & _ & _ & _ & Ht & _).
  cbn [match_score]. rewrite Ht.
  destruct (draw_features_snapshot randint i Hr) as (c & sa & sb & sc & Hs & H0 & H100).
  by apply (total_score_leb_100 up (draw_features randint i) c sa sb sc t s).
Qed.

Lemma score_candidates_results up randint i l results :
  (∀ k, 0 ≤ randint k ≤ 100) →
  score_candidates up randint i l = Ok results →
  Forall (consistent up) results ∧
  Forall (λ entry, (match_score entry <=? 100)%float = true) results.
Proof.
  intros Hr Hres. destruct (score_candidates_entries _ _ _ _ _ Hres) as [Hlen Hall].
  assert (∀ entry, entry ∈ results → ∃ j cand, entry_of up randint (i + j) cand entry)
    as Hent.
  { intros entry [j Hj]%list_elem_of_lookup.
    destruct (lookup_lt_is_Some_2 l j) as [cand Hc];
      [rewrite <- Hlen; by eapply lookup_lt_Some|].
    destruct (Hall j cand Hc) as (entry' & He & Hof).
    rewrite Hj in He. injection He as <-. by exists j, cand. }
  split; apply Forall_forall; intros entry (j & cand & Hof)%Hent.
  - by eapply entry_of_consistent.
  - by eapply entry_of_bound.
Qed.

(** Rescoring an entry that carries the scores of the same profile changes
    nothing. *)
Lemma rescore_consistent up entry : consistent up entry → rescore up entry = Ok entry.
Proof.
  intros (o & features & t & s & -> & Hd & Hc & Ht & Hs).
  rewrite (rescore_value up o features t s Hd Hc).
  by rewrite (insert_id o "match_score"), (insert_id o "match_rate").
Qed.

Lemma rescore_all_consistent up entries :
  Forall (consistent up) entries → mapM_result (rescore up) entries = Ok entries.
Proof.
  induction 1 as [|entry entries He _ IH]; [done|].
  cbn [mapM_result]. rewrite (rescore_consistent up entry He); cbn [rbind].
  by rewrite IH.
Qed.

(** What a rescored entry is. *)
Lemma rescore_entry up item entry :
  rescore up item = Ok entry → scorable item ∧ consistent up entry.
Proof.
  unfold rescore. destruct item as [| | | | | |o]; try done. cbn [getitem].
  destruct (o !! "data") as [features|] eqn:Hd; [cbn [rbind]|done].
  destruct (calculate_recommendation_score up features) as [[t s]|] eqn:Hc;
    [cbn [rbind setitem]|done].
  intros [= <-]. split.
  - assert (∃ r, calculate_recommendation_score up features = Ok r) as Hok by eauto.
    rewrite calculate_reads in Hok.
    destruct (read_features features) as [[[[c sa] sb] sc]|] eqn:E;
      [|by destruct Hok as [? [=]]].
    apply read_features_snapshot in E. by exists o, features, c, sa, sb, sc.
  - exists (<[ "match_rate" := JFloat s ]> (<[ "match_score" := JFloat t ]> o)),
      features, t, s.
    split_and!; try done; by rewrite ?lookup_insert_ne, ?lookup_insert_eq by done.
Qed.

Lemma rescore_entries up items results :
  mapM_result (rescore up) items = Ok results →
  Forall scorable items ∧ Forall (consistent up) results.
Proof.
  revert results. induction items as [|item items IH]; intros results; cbn [mapM_result].
  - intros [= <-]. by split.
  - destruct (rescore up item) as [entry|] eqn:Hi; [cbn [rbind]|done].
    destruct (mapM_result (rescore up) items) as [rs|]; [cbn [rbind]|done].
    intros [= <-]. destruct (IH rs eq_refl) as [? ?].
    destruct (rescore_entry _ _ _ Hi) as [? ?].
    split; by apply Forall_cons_2.
Qed.

Lemma rescore_unscorable up items item :
  item ∈ items → ¬ scorable item → ∃ e, mapM_result (rescore up) items = Raise e.
Proof.
  intros Hin Hns. destruct (mapM_result (rescore up) items) as [results|e] eqn:E;
    [|by eexists].
  destruct (rescore_entries _ _ _ E) as [Hall _].
  rewrite Forall_forall in Hall. destruct Hns. by apply Hall.
Qed.

(** The profile. *)
Lemma py_int_raises val e :
  py_int val = Raise e → e = ValueError ∨ e = TypeError ∨ e = OverflowError.
Proof.
  destruct val as [|b|z|f|s|l|o]; cbn [py_int]; try done;
    try by (intros [= <-]; auto).
  - unfold Py.int_of_float. destruct (Prim2SF f); try done; intros [= <-]; auto.
  - destruct (int_of_str s); [done|]. intros [= <-]; auto.
Qed.

Lemma safe_int_raise val default e :
  safe_int val default = Raise e →
  e = OverflowError ∧ py_int val = Raise OverflowError.
Proof.
  unfold safe_int. destruct (py_int val) as [z|e'] eqn:E; [done|].
  destruct (py_int_raises _ _ E) as [-> | [-> | ->]]; [done|done|].
  by intros [= <-].
Qed.

Lemma safe_int_overflow val default :
  py_int val = Raise OverflowError → safe_int val default = Raise OverflowError.
Proof. unfold safe_int. by intros ->. Qed.

Lemma make_profile_raise data e :
  make_profile data = Raise e →
  e = OverflowError ∧
  (py_int (get data "adult_count") = Raise OverflowError ∨
   py_int (get data "child_count") = Raise OverflowError).
Proof.
  unfold make_profile.
  destruct (safe_int (get data "adult_count") 1) as [adult|e1] eqn:Ea; cbn [rbind].
  - destruct (safe_int (get data "child_count") 0) as [child|e2] eqn:Ec; cbn [rbind];
      [done|].
    intros [= <-]. apply safe_int_raise in Ec as [-> ?]. auto.
  - intros [= <-]. apply safe_int_raise in Ea as [-> ?]. auto.
Qed.

Lemma make_profile_overflow data :
  py_int (get data "adult_count") = Raise OverflowError ∨
  py_int (get data "child_count") = Raise OverflowError →
  make_profile data = Raise OverflowError.
Proof.
  unfold make_profile. intros [Ha|Hc].
  - by rewrite (safe_int_overflow _ _ Ha).
  - rewrite (safe_int_overflow _ 0 Hc).
    destruct (safe_int (get data "adult_count") 1) as [adult|e1] eqn:Ea; cbn [rbind];
      [done|].
    by apply safe_int_raise in Ea as [-> _].
Qed.

Lemma make_profile_frame data data' :
  (∀ k, k ∈ profile_keys → data !! k = data' !! k) →
  make_profile data = make_profile data'.
Proof.
  intros Hk. unfold make_profile, get.
  by rewrite (Hk "adult_count"), (Hk "child_count"), (Hk "supply_a"),
    (Hk "supply_b"), (Hk "supply_c") by (unfold profile_keys; in_list).
Qed.

Lemma make_profile_with_list data v :
  make_profile (<[ "shelter_list" := v ]> data) = make_profile data.
Proof.
  apply make_profile_frame. intros k Hk. unfold profile_keys in Hk.
  repeat (apply elem_of_cons in Hk as [->|Hk]; [by rewrite lookup_insert_ne|]).
  by apply elem_of_nil in Hk.
Qed.

(** The candidates. *)
Lemma candidates_of_raise user_loc rows e :
  candidates_of user_loc rows = Raise e →
  ∃ row, row ∈ rows ∧ geodesic_meters user_loc (row_lat row, row_lng row) = Raise e.
Proof.
  unfold candidates_of. induction rows as [|row rows IH]; cbn [mapM_result]; [done|].
  destruct (geodesic_meters user_loc (row_lat row, row_lng row)) as [d|e'] eqn:Eg;
    cbn [rbind].
  - destruct (mapM_result _ rows) as [cs|e'']; cbn [rbind]; [done|].
    intros [= <-]. destruct (IH eq_refl) as (row' & ? & ?). exists row'.
    split; [by apply list_elem_of_further|done].
  - intros [= <-]. exists row. split; [apply list_elem_of_here|done].
Qed.

Lemma candidates_of_rows user_loc rows candidates :
  candidates_of user_loc rows = Ok candidates →
  Forall2 (λ row c, name c = row_name row ∧ lat c = row_lat row ∧
                    lng c = row_lng row ∧
                    geodesic_meters user_loc (row_lat row, row_lng row)
                    = Ok (distance c)) rows candidates.
Proof.
  unfold candidates_of. revert candidates.
  induction rows as [|row rows IH]; intros candidates; cbn [mapM_result].
  - intros [= <-]. apply Forall2_nil_2.
  - destruct (geodesic_meters user_loc (row_lat row, row_lng row)) as [d|] eqn:Eg;
      [cbn [rbind]|done].
    destruct (mapM_result _ rows) as [cs|]; [cbn [rbind]|done].
    intros [= <-]. apply Forall2_cons. split; [by split_and!|by apply IH].
Qed.

Lemma candidates_of_failing user_loc rows row e :
  row ∈ rows → geodesic_meters user_loc (row_lat row, row_lng row) = Raise e →
  ∃ e', candidates_of user_loc rows = Raise e'.
Proof.
  intros Hin Hg. destruct (candidates_of user_loc rows) as [cs|e'] eqn:E; [|by eexists].
  apply candidates_of_rows in E.
  apply list_elem_of_lookup in Hin as [i Hi].
  destruct (Forall2_lookup_l _ _ _ _ _ E Hi) as (c & _ & _ & _ & _ & Hd).
  congruence.
Qed.

(** A ranking in descending order of a score that is a number is what the
    sort by [better] returns on it. *)
Lemma sorted_by_better_fixed body :
  in_order not_worse body → sorted_by better body = body.
Proof.
  intros Ho. apply sorted_by_fixed. eapply in_order_impl; [|exact Ho].
  intros x y Hxy. unfold better. by apply OrderFacts.leb_ltb_false.
Qed.

Lemma sorted_by_better_in_order results :
  Forall (λ entry, is_nan (match_score entry) = false) results →
  in_order not_worse (sorted_by better results).
Proof. apply (sorted_by_descending match_score). Qed.

Lemma leb_100_not_nan results :
  Forall (λ entry, (match_score entry <=? 100)%float = true) results →
  Forall (λ entry, is_nan (match_score entry) = false) results.
Proof.
  intros Hall. eapply Forall_impl; [exact Hall|].
  intros entry Hle. by apply Order.leb_not_nan in Hle as [? _].
Qed.

Lemma recalculate_fixed data up body :
  make_profile data = Ok up →
  data !! "shelter_list" = Some (JArr body) →
  Forall (consistent up) body → in_order not_worse body →
  recalculate_shelters data = Json200 body.
Proof.
  intros Hup Hl Hc Ho. unfold recalculate_shelters.
  rewrite Hl, Hup. cbn [from_option]. unfold id. cbn [py_iter rbind].
  rewrite (rescore_all_consistent up body Hc); cbn [rbind respond].
  by rewrite (sorted_by_better_fixed body Ho).
Qed.

End EndpointFacts.

Section EndpointSteps.
Context `{Externals}.

(** The steps behind an answer with status 200. *)
Lemma search_steps data df randint body :
  get_disaster_shelters data df randint = Json200 body →
  ∃ la ln up rows candidates results,
    data !! "lat" = Some la ∧ data !! "lng" = Some ln ∧
    make_profile data = Ok up ∧ df = Ok rows ∧
    candidates_of (la, ln) rows = Ok candidates ∧
    score_candidates up randint 0 (nearest_5 candidates) = Ok results ∧
    body = sorted_by better results.
Proof.
  unfold get_disaster_shelters, getitem.
  destruct (data !! "lat") as [la|]; [cbn [rbind]|done].
  destruct (data !! "lng") as [ln|]; [cbn [rbind]|done].
  destruct (make_profile data) as [up|] eqn:E1; [cbn [rbind]|done].
  destruct df as [rows|]; [cbn [rbind]|done].
  destruct (candidates_of (la, ln) rows) as [candidates|] eqn:E2; [cbn [rbind]|done].
  destruct (score_candidates up randint 0 (nearest_5 candidates)) as [results|] eqn:E3;
    [cbn [rbind respond]|done].
  intros [= <-]. by exists la, ln, up, rows, candidates, results.
Qed.

Lemma search_value data randint la ln up rows candidates results :
  data !! "lat" = Some la → data !! "lng" = Some ln →
  make_profile data = Ok up →
  candidates_of (la, ln) rows = Ok candidates →
  score_candidates up randint 0 (nearest_5 candidates) = Ok results →
  get_disaster_shelters data (Ok rows) randint = Json200 (sorted_by better results).
Proof.
  intros Hla Hln Hup Hcs Hres. unfold get_disaster_shelters, getitem.
  rewrite Hla, Hln; cbn [rbind]. rewrite Hup; cbn [rbind].
  rewrite Hcs; cbn [rbind]. by rewrite Hres.
Qed.

Lemma recalculation_steps data body :
  recalculate_shelters data = Json200 body →
  ∃ up items results,
    make_profile data = Ok up ∧
    py_iter (default (JArr []) (data !! "shelter_list")) = Ok items ∧
    mapM_result (rescore up) items = Ok results ∧
    body = sorted_by better results.
Proof.
  unfold recalculate_shelters. cbv zeta.
  destruct (make_profile data) as [up|] eqn:E4; [cbn [rbind]|done].
  destruct (py_iter _) as [items|] eqn:E5; [cbn [rbind]|done].
  destruct (mapM_result (rescore up) items) as [results|] eqn:E6; [cbn [rbind respond]|done].
  intros [= <-]. by exists up, items, results.
Qed.

Lemma nearby_steps data df body :
  get_nearest_shelters data df = Json200 body →
  ∃ la ln rows shelters,
    data !! "lat" = Some la ∧ data !! "lng" = Some ln ∧ df = Ok rows ∧
    candidates_of (la, ln) rows = Ok shelters ∧
    body = candidate_json <$> window (sorted_by nearer shelters).
Proof.
  unfold get_nearest_shelters, getitem.
  destruct (data !! "lat") as [la|]; [cbn [rbind]|done].
  destruct (data !! "lng") as [ln|]; [cbn [rbind]|done].
  destruct df as [rows|]; [cbn [rbind]|done].
  destruct (candidates_of (la, ln) rows) as [shelters|] eqn:E7; [cbn [rbind respond]|done].
  intros [= <-]. by exists la, ln, rows, shelters.
Qed.

Lemma window_elem (s : list candidate) c : c ∈ window s → c ∈ take 5 s.
Proof.
  unfold window. destruct s as [|x s]; [by intros ?%elem_of_nil|].
  apply window_within.
Qed.

Lemma window_length_of (s : list candidate) :
  length (window s) = window_length (length s).
Proof.
  unfold window, window_length, slice. destruct s as [|x s]; [done|].
  rewrite length_take, length_drop. repeat case_decide; cbn [length] in *; lia.
Qed.

Lemma window_in_order (le : candidate → candidate → Prop) s :
  in_order le s → in_order le (window s).
Proof.
  unfold window, slice. destruct s as [|x s]; [done|]. intros Ho.
  apply in_order_take. intros i j a b Hij Ha Hb.
  rewrite lookup_drop in Ha, Hb. eapply Ho; [|exact Ha|exact Hb]. lia.
Qed.

Lemma scores_are_numbers (l : list json) :
  forallb (λ entry, negb (is_nan (match_score entry))) l = true →
  Forall (λ entry, is_nan (match_score entry) = false) l.
Proof.
  rewrite forallb_forall. intros Hl. apply Forall_forall.
  intros entry Hin%list_elem_of_In. apply negb_true_iff. by apply Hl.
Qed.

Lemma sample_draws_range k : 0 ≤ sample_draws k ≤ 100.
Proof. unfold sample_draws. pose proof (Z.mod_pos_bound (Z.of_nat k * 37 + 11) 101). lia. Qed.

Lemma sample_rows_distances row :
  row ∈ sample_rows →
  ∃ d, geodesic_meters (Externals := sample_externals) (JFloat 0, JFloat 0)
         (row_lat row, row_lng row) = Ok d ∧ is_nan d = false.
Proof.
  intros Hrow. unfold sample_rows in Hrow.
  repeat (apply elem_of_cons in Hrow as [->|Hrow]; [eexists; split; reflexivity|]).
  by apply elem_of_nil in Hrow.
Qed.

End EndpointSteps.

(** * Properties of the endpoints beyond the claims *)

(** X9.  A search whose request has a location and counts that convert,
    over a table whose shelters all have a distance that is a number,
    answers with status 200.  The candidates are the rows of the table, each
    with its geodesic distance from the user; the five nearest of them (all
    of them when there are fewer) are selected in ascending order of
    distance, ties in table order, no candidate left out being nearer than
    a selected one.  The answer has one entry for each selected candidate,
    built from the candidate's fields, the features drawn for it and the
    scores of these features for the request's profile; the entries stand
    in descending order of composite score, entries with the same score in
    the order of the selection, that is by distance; and no composite score
    exceeds 100. *)
Theorem search_ranking `{Externals} data randint la ln up rows :
  data !! "lat" = Some la → data !! "lng" = Some ln →
  make_profile data = Ok up →
  (∀ row, row ∈ rows →
     ∃ d, geodesic_meters (la, ln) (row_lat row, row_lng row) = Ok d ∧
          is_nan d = false) →
  (∀ k, 0 ≤ randint k ≤ 100) →
  ∃ candidates results body,
    candidates_of (la, ln) rows = Ok candidates ∧
    Forall2 (candidate_of_row (la, ln)) rows candidates ∧
    in_order not_farther (nearest_5 candidates) ∧
    (∃ rest, nearest_5 candidates ++ rest ≡ₚ candidates ∧
             ∀ x y, x ∈ nearest_5 candidates → y ∈ rest → not_farther x y) ∧
    (∀ d, List.filter (at_distance d) (nearest_5 candidates)
          `prefix_of` List.filter (at_distance d) candidates) ∧
    get_disaster_shelters data (Ok rows) randint = Json200 body ∧
    length body = Nat.min 5 (length rows) ∧
    length results = length (nearest_5 candidates) ∧
    (∀ i cand, nearest_5 candidates !! i = Some cand →
       ∃ entry, results !! i = Some entry ∧ entry_of up randint i cand entry) ∧
    body ≡ₚ results ∧
    in_order not_worse body ∧
    (∀ s, List.filter (with_score s) body = List.filter (with_score s) results) ∧
    Forall (λ entry, (match_score entry <=? 100)%float = true) body.
Proof.
  intros Hla Hln Hup Hd Hr.
  destruct (candidates_of_value (la, ln) rows Hd) as (cs & Hcs & _ & Hnan).
  pose proof (candidates_of_link (la, ln) rows cs Hcs) as Hrows.
  destruct (nearest_5_facts cs Hnan) as (Hn & Ho & Hrest & Hstable).
  destruct (score_candidates_ok up randint (nearest_5 cs) Hr 0%nat) as [results Hres].
  destruct (score_candidates_entries _ _ _ _ _ Hres) as [Hlen Hent].
  destruct (score_candidates_results _ _ _ _ _ Hr Hres) as [_ Hle].
  exists cs, results, (sorted_by better results). split_and!; try done.
  - by apply (search_value data randint la ln up rows cs results).
  - by rewrite sorted_by_length, Hlen, Hn, (Forall2_length _ _ _ Hrows).
  - apply sorted_by_perm.
  - by apply sorted_by_better_in_order, leb_100_not_nan.
  - intros s. apply sorted_by_better_stable.
  - by rewrite sorted_by_perm.
Qed.

(** Seven shelters on a grid, two adults at the origin. *)
Lemma search_ranking_witness :
  let up := profile_of "最高" "最低" "中" 2 in
  ∃ candidates results body,
    candidates_of (H := sample_externals) (JFloat 0, JFloat 0) sample_rows
    = Ok candidates ∧
    Forall2 (candidate_of_row (H := sample_externals) (JFloat 0, JFloat 0))
      sample_rows candidates ∧
    in_order not_farther (nearest_5 candidates) ∧
    (∃ rest, nearest_5 candidates ++ rest ≡ₚ candidates ∧
             ∀ x y, x ∈ nearest_5 candidates → y ∈ rest → not_farther x y) ∧
    (∀ d, List.filter (at_distance d) (nearest_5 candidates)
          `prefix_of` List.filter (at_distance d) candidates) ∧
    get_disaster_shelters (H := sample_externals) search_request (Ok sample_rows)
      sample_draws = Json200 body ∧
    length body = Nat.min 5 (length sample_rows) ∧
    length results = length (nearest_5 candidates) ∧
    (∀ i cand, nearest_5 candidates !! i = Some cand →
       ∃ entry, results !! i = Some entry ∧
                entry_of (H := sample_externals) up sample_draws i cand entry) ∧
    body ≡ₚ results ∧
    in_order not_worse body ∧
    (∀ s, List.filter (with_score s) body = List.filter (with_score s) results) ∧
    Forall (λ entry, (match_score entry <=? 100)%float = true) body.
Proof.
  cbv zeta.
  apply (search_ranking (H := sample_externals) search_request sample_draws
           (JFloat 0) (JFloat 0) (profile_of "最高" "最低" "中" 2) sample_rows).
  - reflexivity.
  - reflexivity.
  - reflexivity.
  - apply sample_rows_distances.
  - apply sample_draws_range.
Defined.

(** X10.  With draws between 0 and 100 the scoring step of a search cannot
    fail: the search answers with status 500 exactly when the request lacks
    [lat] or [lng], a head count is an infinite float, the table cannot be
    loaded, or the distance to some shelter cannot be computed. *)
Theorem search_failure `{Externals} data df randint :
  (∀ k, 0 ≤ randint k ≤ 100) →
  (∃ e, get_disaster_shelters data df randint = Error500 e) ↔
  data !! "lat" = None ∨ data !! "lng" = None ∨
  py_int (get data "adult_count") = Raise OverflowError ∨
  py_int (get data "child_count") = Raise OverflowError ∨
  (∃ e, df = Raise e) ∨
  (∃ la ln rows row e,
     data !! "lat" = Some la ∧ data !! "lng" = Some ln ∧ df = Ok rows ∧
     row ∈ rows ∧ geodesic_meters (la, ln) (row_lat row, row_lng row) = Raise e).
Proof.
  intros Hr. unfold get_disaster_shelters, getitem.
  destruct (data !! "lat") as [la|]; cbn [rbind respond]; [|split; eauto].
  destruct (data !! "lng") as [ln|]; cbn [rbind respond]; [|split; eauto].
  destruct (make_profile data) as [up|e0] eqn:Hup; cbn [rbind respond].
  2: { apply make_profile_raise in Hup as [-> Hov]. split; [|by eauto].
       intros _. destruct Hov; auto. }
  assert (py_int (get data "adult_count") ≠ Raise OverflowError ∧
          py_int (get data "child_count") ≠ Raise OverflowError) as [Ha Hc].
  { split; intros Hov; by rewrite make_profile_overflow in Hup by auto. }
  destruct df as [rows|e0]; cbn [rbind respond]; [|split; eauto 10].
  destruct (candidates_of (la, ln) rows) as [cs|e0] eqn:Hcs; cbn [rbind respond].
  2: { split; [|by eauto]. intros _.
       destruct (candidates_of_raise _ _ _ Hcs) as (row & Hin & Hg).
       do 5 right. by exists la, ln, rows, row, e0. }
  destruct (score_candidates_ok up randint (nearest_5 cs) Hr 0%nat) as [results ->].
  cbn [rbind respond]. split; [by intros [? [=]]|].
  intros [?|[?|[?|[?|[[? ?]|(la' & ln' & rows' & row & e & [= <-] & [= <-] & [= <-] & Hin & Hg)]]]]];
    try done.
  destruct (candidates_of_failing _ _ _ _ Hin Hg) as [e' He']. congruence.
Qed.

(** A search request without a location. *)
Lemma search_failure_witness :
  (∃ e, get_disaster_shelters (H := sample_externals)
          (<[ "adult_count" := JInt 2 ]> ∅) (Ok sample_rows) sample_draws
        = Error500 e) ↔
  (<[ "adult_count" := JInt 2 ]> ∅ : gmap string json) !! "lat" = None ∨
  (<[ "adult_count" := JInt 2 ]> ∅ : gmap string json) !! "lng" = None ∨
  py_int (H := sample_externals) (get (<[ "adult_count" := JInt 2 ]> ∅) "adult_count")
  = Raise OverflowError ∨
  py_int (H := sample_externals) (get (<[ "adult_count" := JInt 2 ]> ∅) "child_count")
  = Raise OverflowError ∨
  (∃ e, Ok sample_rows = Raise e) ∨
  (∃ la ln rows row e,
     (<[ "adult_count" := JInt 2 ]> ∅ : gmap string json) !! "lat" = Some la ∧
     (<[ "adult_count" := JInt 2 ]> ∅ : gmap string json) !! "lng" = Some ln ∧
     Ok sample_rows = Ok rows ∧ row ∈ rows ∧
     geodesic_meters (Externals := sample_externals) (la, ln)
       (row_lat row, row_lng row) = Raise e).
Proof.
  apply (search_failure (H := sample_externals)). apply sample_draws_range.
Defined.

(** X11.  Sending the answer of a search back as the [shelter_list] of a
    recalculation with the same request returns it unchanged: with draws
    between 0 and 100 the entries carry the scores of their own features
    and already stand in the order the recalculation sorts them into. *)
Theorem search_then_recalculate `{Externals} data df randint body :
  (∀ k, 0 ≤ randint k ≤ 100) →
  get_disaster_shelters data df randint = Json200 body →
  recalculate_shelters (<[ "shelter_list" := JArr body ]> data) = Json200 body.
Proof.
  intros Hr (la & ln & up & rows & cs & results & _ & _ & Hup & _ & _ & Hres & ->)
    %search_steps.
  destruct (score_candidates_results _ _ _ _ _ Hr Hres) as [Hc Hle].
  apply (recalculate_fixed _ up).
  - by rewrite make_profile_with_list.
  - by rewrite lookup_insert_eq.
  - by rewrite sorted_by_perm.
  - by apply sorted_by_better_in_order, leb_100_not_nan.
Qed.

Lemma search_then_recalculate_witness :
  let body :=
    match get_disaster_shelters (H := sample_externals) search_request (Ok sample_rows)
            sample_draws with
    | Json200 body => body
    | Error500 _ => []
    end in
  length body = 5%nat ∧
  recalculate_shelters (H := sample_externals)
    (<[ "shelter_list" := JArr body ]> search_request) = Json200 body.
Proof.
  cbv zeta. split; [reflexivity|].
  apply (search_then_recalculate (H := sample_externals) search_request
           (Ok sample_rows) sample_draws).
  - apply sample_draws_range.
  - reflexivity.
Defined.

(** X12.  A recalculation returns its [shelter_list] as it is when the
    entries already carry the scores of the request's profile and stand in
    descending order of composite score. *)
Theorem recalculation_fixpoint `{Externals} data up body :
  make_profile data = Ok up →
  data !! "shelter_list" = Some (JArr body) →
  Forall (consistent up) body → in_order not_worse body →
  recalculate_shelters data = Json200 body.
Proof. apply recalculate_fixed. Qed.

(** A full shelter with everything in stock before an empty one with
    nothing, for one person with no stated priorities. *)
Lemma recalculation_fixpoint_witness :
  let body :=
    [ JObj (<[ "name" := JStr "a" ]> (
            <[ "data" := features_of 100 20 20 20 ]> (
            <[ "match_score" := JFloat 100 ]> (
            <[ "match_rate" := JFloat 100 ]> ∅))));
      JObj (<[ "name" := JStr "b" ]> (
            <[ "data" := features_of 0 0 0 0 ]> (
            <[ "match_score" := JFloat 0 ]> (
            <[ "match_rate" := JFloat 0 ]> ∅)))) ] in
  recalculate_shelters (H := sample_externals) (<[ "shelter_list" := JArr body ]> ∅)
  = Json200 body.
Proof.
  cbv zeta.
  apply (recalculation_fixpoint (H := sample_externals) _ (profile_of "中" "中" "中" 1)).
  - reflexivity.
  - reflexivity.
  - apply Forall_cons_2; [|apply Forall_cons_2; [|apply Forall_nil_2]];
      (eexists _, _, _, _; split_and!; reflexivity).
  - apply in_order_cons. split; [apply Forall_cons_2; [reflexivity|apply Forall_nil_2]|].
    apply in_order_cons. split; [apply Forall_nil_2|apply in_order_nil].
Defined.

(** X13.  Recalculating is idempotent: when the scores of an answer are
    numbers, a second recalculation of that answer with the same request
    returns the same answer. *)
Theorem recalculation_idempotent `{Externals} data body :
  recalculate_shelters data = Json200 body →
  Forall (λ entry, is_nan (match_score entry) = false) body →
  recalculate_shelters (<[ "shelter_list" := JArr body ]> data) = Json200 body.
Proof.
  intros (up & items & results & Hup & _ & Hres & ->)%recalculation_steps Hnan.
  destruct (rescore_entries _ _ _ Hres) as [_ Hc].
  rewrite sorted_by_perm in Hnan.
  apply (recalculate_fixed _ up).
  - by rewrite make_profile_with_list.
  - by rewrite lookup_insert_eq.
  - by rewrite sorted_by_perm.
  - by apply sorted_by_better_in_order.
Qed.

Lemma recalculation_idempotent_witness :
  let body :=
    match recalculate_shelters (H := sample_externals) sample_request with
    | Json200 body => body
    | Error500 _ => []
    end in
  length body = 2%nat ∧
  recalculate_shelters (H := sample_externals)
    (<[ "shelter_list" := JArr body ]> sample_request) = Json200 body.
Proof.
  cbv zeta. split; [reflexivity|].
  apply (recalculation_idempotent (H := sample_externals) sample_request).
  - reflexivity.
  - apply scores_are_numbers. reflexivity.
Defined.

(** X14.  A recalculation answers with status 200 exactly when the head
    counts convert, [shelter_list] can be iterated and every one of its
    entries can be scored: one entry without readable features fails the
    whole request. *)
Theorem recalculation_succeeds `{Externals} data :
  (∃ body, recalculate_shelters data = Json200 body) ↔
  ∃ up items,
    make_profile data = Ok up ∧
    py_iter (default (JArr []) (data !! "shelter_list")) = Ok items ∧
    Forall scorable items.
Proof.
  split.
  - intros [body (up & items & results & Hup & Hit & Hres & _)%recalculation_steps].
    exists up, items. split_and!; [done..|].
    by destruct (rescore_entries _ _ _ Hres).
  - intros (up & items & Hup & Hit & Hsc).
    destruct (rescore_all up items Hsc) as (results & Hr & _).
    exists (sorted_by better results). unfold recalculate_shelters. cbv zeta.
    rewrite Hup; cbn [rbind]. rewrite Hit; cbn [rbind]. by rewrite Hr.
Qed.

(** X15.  The nearby listing, for a request with a location over a table of
    [n] shelters that all have a distance that is a number, answers with
    status 200 and [min(n, 4)] entries less the nearest one when there are
    two or more, so never more than three; each entry holds the name, the
    coordinates and the distance of a row of the table and nothing else, and
    the entries stand in ascending order of distance. *)
Theorem nearby_listing `{Externals} data la ln rows :
  data !! "lat" = Some la → data !! "lng" = Some ln →
  (∀ row, row ∈ rows →
     ∃ d, geodesic_meters (la, ln) (row_lat row, row_lng row) = Ok d ∧
          is_nan d = false) →
  ∃ shelters,
    get_nearest_shelters data (Ok rows) = Json200 (candidate_json <$> shelters) ∧
    length shelters = window_length (length rows) ∧
    (length shelters ≤ 3)%nat ∧
    in_order not_farther shelters ∧
    ∀ c, c ∈ shelters →
      ∃ row, row ∈ rows ∧ name c = row_name row ∧ lat c = row_lat row ∧
             lng c = row_lng row ∧
             geodesic_meters (la, ln) (row_lat row, row_lng row) = Ok (distance c).
Proof.
  intros Hla Hln Hd.
  destruct (candidates_of_value (la, ln) rows Hd) as (cs & Hcs & Hrows & Hnan).
  exists (window (sorted_by nearer cs)).
  assert (length (window (sorted_by nearer cs)) = window_length (length rows)) as Hlen.
  { by rewrite window_length_of, sorted_by_length, (Forall2_length _ _ _ Hrows). }
  split_and!.
  - unfold get_nearest_shelters, getitem. rewrite Hla, Hln; cbn [rbind].
    by rewrite Hcs.
  - done.
  - rewrite Hlen. unfold window_length. case_decide; lia.
  - by apply window_in_order, nearest_5_in_order.
  - intros c [j [Hj _]%lookup_take_Some]%window_elem%list_elem_of_lookup.
    apply list_elem_of_lookup_2 in Hj. rewrite sorted_by_perm in Hj.
    apply list_elem_of_lookup in Hj as [i Hi].
    destruct (Forall2_lookup_r _ _ _ _ _ Hrows Hi) as (row & Hrow & ?).
    exists row. split; [|done]. by eapply list_elem_of_lookup_2.
Qed.

Lemma nearby_listing_witness :
  let data : gmap string json := <[ "lat" := JFloat 0 ]> (<[ "lng" := JFloat 0 ]> ∅) in
  ∃ shelters,
    get_nearest_shelters (H := sample_externals) data (Ok sample_rows)
    = Json200 (candidate_json <$> shelters) ∧
    length shelters = window_length (length sample_rows) ∧
    (length shelters ≤ 3)%nat ∧
    in_order not_farther shelters ∧
    ∀ c, c ∈ shelters →
      ∃ row, row ∈ sample_rows ∧ name c = row_name row ∧ lat c = row_lat row ∧
             lng c = row_lng row ∧
             geodesic_meters (Externals := sample_externals) (JFloat 0, JFloat 0)
               (row_lat row, row_lng row) = Ok (distance c).
Proof.
  cbv zeta.
  apply (nearby_listing (H := sample_externals) _ (JFloat 0) (JFloat 0) sample_rows).
  - reflexivity.
  - reflexivity.
  - apply sample_rows_distances.
Defined.

(** X16.  The nearby listing answers with status 500 exactly when the
    request lacks [lat] or [lng], the table cannot be loaded, or the
    distance to some shelter cannot be computed; an empty table is no
    error. *)
Theorem nearby_failure `{Externals} data df :
  ((∃ e, get_nearest_shelters data df = Error500 e) ↔
   data !! "lat" = None ∨ data !! "lng" = None ∨ (∃ e, df = Raise e) ∨
   (∃ la ln rows row e,
      data !! "lat" = Some la ∧ data !! "lng" = Some ln ∧ df = Ok rows ∧
      row ∈ rows ∧ geodesic_meters (la, ln) (row_lat row, row_lng row) = Raise e)) ∧
  match data !! "lat", data !! "lng" with
  | Some _, Some _ => get_nearest_shelters data (Ok []) = Json200 []
  | _, _ => True
  end.
Proof.
  unfold get_nearest_shelters, getitem.
  destruct (data !! "lat") as [la|]; cbn [rbind respond]; [|split; [split|]; eauto].
  destruct (data !! "lng") as [ln|]; cbn [rbind respond]; [|split; [split|]; eauto].
  split; [|done].
  destruct df as [rows|e0]; cbn [rbind respond]; [|split; eauto 10].
  destruct (candidates_of (la, ln) rows) as [cs|e0] eqn:Hcs; cbn [rbind respond].
  - split; [by intros [? [=]]|].
    intros [?|[?|[[? ?]|(la' & ln' & rows' & row & e & [= <-] & [= <-] & [= <-] & Hin & Hg)]]];
      try done.
    destruct (candidates_of_failing _ _ _ _ Hin Hg) as [e' He']. congruence.
  - split; [|by eauto]. intros _.
    destruct (candidates_of_raise _ _ _ Hcs) as (row & Hin & Hg).
    do 3 right. by exists la, ln, rows, row, e0.
Qed.

(** X17.  Every shelter of the nearby listing is one of the candidates of a
    search at the same location over the same table: the answer of the
    search has an entry with the same name, coordinates and distance. *)
Theorem nearby_among_search `{Externals} data df randint body nearby :
  get_disaster_shelters data df randint = Json200 body →
  get_nearest_shelters data df = Json200 nearby →
  ∀ shelter, shelter ∈ nearby →
    ∃ entry, entry ∈ body ∧
      ∀ k, k ∈ candidate_keys → getitem entry k = getitem shelter k.
Proof.
  intros (la & ln & up & rows & cs & results & Hla & Hln & _ & Hdf & Hcs & Hres & ->)
    %search_steps
    (la' & ln' & rows' & cs' & Hla' & Hln' & Hdf' & Hcs' & ->)%nearby_steps.
  rewrite Hla in Hla'. rewrite Hln in Hln'. rewrite Hdf in Hdf'.
  injection Hla' as <-. injection Hln' as <-. injection Hdf' as <-.
  rewrite Hcs in Hcs'. injection Hcs' as <-.
  intros shelter (c & -> & Hc%window_elem)%list_elem_of_fmap.
  apply list_elem_of_lookup in Hc as [i Hi].
  destruct (score_candidates_entries _ _ _ _ _ Hres) as [_ Hent].
  destruct (Hent i c Hi)
    as (entry & He & o & t & s & -> & _ & Hn & Hlat & Hlng & Hdist & _).
  exists (JObj o). split.
  - rewrite sorted_by_perm. by eapply list_elem_of_lookup_2.
  - intros k Hk. unfold candidate_keys in Hk. unfold candidate_json. cbn [getitem].
    repeat (apply elem_of_cons in Hk as [->|Hk];
            [by rewrite ?lookup_insert_ne, lookup_insert_eq by done;
                first [rewrite Hn|rewrite Hlat|rewrite Hlng|rewrite Hdist]|]).
    by apply elem_of_nil in Hk.
Qed.

Lemma nearby_among_search_witness :
  let body :=
    match get_disaster_shelters (H := sample_externals) search_request (Ok sample_rows)
            sample_draws with
    | Json200 body => body
    | Error500 _ => []
    end in
  let nearby :=
    match get_nearest_shelters (H := sample_externals) search_request (Ok sample_rows) with
    | Json200 body => body
    | Error500 _ => []
    end in
  length nearby = 3%nat ∧
  ∀ shelter, shelter ∈ nearby →
    ∃ entry, entry ∈ body ∧
      ∀ k, k ∈ candidate_keys → getitem entry k = getitem shelter k.
Proof.
  cbv zeta. split; [reflexivity|].
  apply (nearby_among_search (H := sample_externals) search_request (Ok sample_rows)
           sample_draws); reflexivity.
Defined.

(** X18.  [safe_int] lets exactly one failure through: it raises
    ([OverflowError]) only for an infinite float; an int is returned as it
    is, and a NaN, [None], a list or an object give the default. *)
Theorem safe_int_failure `{Externals} val default :
  (∀ e, safe_int val default = Raise e ↔
        e = OverflowError ∧ ∃ f s, val = JFloat f ∧ Prim2SF f = S754_infinity s) ∧
  match val with
  | JInt z => safe_int val default = Ok z
  | JNull | JArr _ | JObj _ => safe_int val default = Ok default
  | JFloat f => is_nan f = true → safe_int val default = Ok default
  | _ => True
  end.
Proof.
  split.
  - intros e. split.
    + intros [-> Hov]%safe_int_raise. split; [done|].
      destruct val as [|b|z|f|s|l|o]; cbn in Hov; try done.
      * unfold Py.int_of_float in Hov.
        destruct (Prim2SF f) as [| s| |] eqn:E; try done. by exists f, s.
      * by destruct (int_of_str s).
    + intros (-> & f & s & -> & Hf). unfold safe_int, py_int, Py.int_of_float.
      by rewrite Hf.
  - destruct val as [|b|z|f|s|l|o]; try done.
    intros Hf%is_nan_true. unfold safe_int, py_int, Py.int_of_float. by rewrite Hf.
Qed.

(** X19.  The score looks at a stock only to tell whether it reaches 20, is
    positive below 20, or is neither (nothing, a negative number or a NaN):
    two snapshots with the same congestion whose stocks fall in the same
    bands get the same scores. *)
Theorem score_stock_bands `{Externals} up sf sf' c sa sb sc sa' sb' sc' :
  snapshot sf c sa sb sc → snapshot sf' c sa' sb' sc' →
  level_of sa = level_of sa' → level_of sb = level_of sb' →
  level_of sc = level_of sc' →
  calculate_recommendation_score up sf = calculate_recommendation_score up sf'.
Proof.
  intros Hs Hs' Ha Hb Hc.
  rewrite (calculate_spec up sf c sa sb sc Hs), (calculate_spec up sf' c sa' sb' sc' Hs').
  cbv zeta. by rewrite !supply_score_level, Ha, Hb, Hc.
Qed.

(** Full, empty and partial stock, each reported in two ways. *)
Lemma score_stock_bands_witness :
  let up := profile_of "最高" "低" "中" 4 in
  calculate_recommendation_score (H := sample_externals) up
    (JObj (<[ "congestion" := JInt 30 ]> (
           <[ "supply_a" := JInt 20 ]> (
           <[ "supply_b" := JInt 0 ]> (
           <[ "supply_c" := JFloat 0.5 ]> ∅)))))
  = calculate_recommendation_score (H := sample_externals) up
      (JObj (<[ "congestion" := JFloat 30 ]> (
             <[ "supply_a" := JInt 100 ]> (
             <[ "supply_b" := JFloat nan ]> (
             <[ "supply_c" := JInt 19 ]> ∅))))).
Proof.
  cbv zeta.
  apply (score_stock_bands (H := sample_externals) _ _ _ 30 20 0 0.5 100 nan 19);
    [repeat split; eexists; split; reflexivity
    |repeat split; eexists; split; reflexivity
    |reflexivity..].
Defined.

Section Rerank.
Context `{Externals}.

Lemma mapM_result_perm {A B} (f : A → result B) l l' r :
  l ≡ₚ l' → mapM_result f l = Ok r → ∃ r', mapM_result f l' = Ok r' ∧ r ≡ₚ r'.
Proof.
  intros Hp. revert r. induction Hp as [|x l l' _ IH|x y l|l l' l'' _ IH1 _ IH2];
    intros r; cbn [mapM_result].
  - intros [= <-]. by exists [].
  - destruct (f x) as [b|]; [cbn [rbind]|done].
    destruct (mapM_result f l) as [bs|]; [cbn [rbind]|done].
    intros [= <-]. destruct (IH bs eq_refl) as (bs' & -> & ?). cbn [rbind].
    exists (b :: bs'). split; [done|]. by apply Permutation_skip.
  - destruct (f y) as [b|]; [cbn [rbind]|done].
    destruct (f x) as [a|]; [cbn [rbind]|done].
    destruct (mapM_result f l) as [bs|]; [cbn [rbind]|done].
    intros [= <-]. exists (a :: b :: bs). split; [done|]. apply Permutation_swap.
  - intros Hr. destruct (IH1 r Hr) as (r' & Hr' & ?).
    destruct (IH2 r' Hr') as (r'' & Hr'' & ?). exists r''. split; [done|].
    by etrans.
Qed.

(** Rescoring the entry a search built gives the entry a search for the
    other profile builds from the same candidate and draws. *)
Lemma rescore_scored up up' randint i cand entry :
  score_candidate up randint i cand = Ok entry →
  rescore up' entry = score_candidate up' randint i cand.
Proof.
  unfold score_candidate.
  destruct (calculate_recommendation_score up (draw_features randint i))
    as [[t s]|] eqn:E; [cbn [rbind]|done].
  intros [= <-]. unfold rescore. cbn [getitem].
  rewrite !lookup_insert_ne, lookup_insert_eq by done. cbn [rbind].
  destruct (calculate_recommendation_score up' (draw_features randint i))
    as [[t' s']|]; [cbn [rbind setitem]|done].
  reflexivity.
Qed.

Lemma rescore_scored_all up up' randint l :
  ∀ i results, score_candidates up randint i l = Ok results →
    mapM_result (rescore up') results = score_candidates up' randint i l.
Proof.
  induction l as [|c l IH]; intros i results; cbn [score_candidates].
  - by intros [= <-].
  - destruct (score_candidate up randint i c) as [r|] eqn:Er; [cbn [rbind]|done].
    destruct (score_candidates up randint (S i) l) as [rs|] eqn:Ers; [cbn [rbind]|done].
    intros [= <-]. cbn [mapM_result].
    by rewrite (rescore_scored _ _ _ _ _ _ Er), (IH _ _ Ers).
Qed.

End Rerank.

(** X20.  Re-ranking the answer of a search for another profile gives the
    ranking a fresh search for that profile would have given with the same
    table and the same draws: the same entries, both in descending order of
    composite score (entries with equal scores may stand in a different
    order). *)
Theorem recalculation_matches_search `{Externals} data data' df randint body up' :
  (∀ k, 0 ≤ randint k ≤ 100) →
  get_disaster_shelters data df randint = Json200 body →
  data' !! "lat" = data !! "lat" → data' !! "lng" = data !! "lng" →
  make_profile data' = Ok up' →
  ∃ fresh reranked,
    get_disaster_shelters data' df randint = Json200 fresh ∧
    recalculate_shelters (<[ "shelter_list" := JArr body ]> data') = Json200 reranked ∧
    fresh ≡ₚ reranked ∧ in_order not_worse fresh ∧ in_order not_worse reranked.
Proof.
  intros Hr (la & ln & up & rows & cs & results & Hla & Hln & _ & -> & Hcs & Hres & ->)
    %search_steps Hla' Hln' Hup'.
  rewrite Hla in Hla'. rewrite Hln in Hln'.
  destruct (score_candidates_ok up' randint (nearest_5 cs) Hr 0%nat) as [results' Hres'].
  destruct (score_candidates_results _ _ _ _ _ Hr Hres') as [_ Hle].
  pose proof (rescore_scored_all up up' randint _ _ _ Hres) as Hre.
  rewrite Hres' in Hre.
  destruct (mapM_result_perm (rescore up') results (sorted_by better results) results')
    as (results'' & Hre' & Hperm); [by rewrite sorted_by_perm|done|].
  exists (sorted_by better results'), (sorted_by better results''). split_and!.
  - by apply (search_value data' randint la ln up' rows cs results').
  - unfold recalculate_shelters. rewrite lookup_insert_eq, make_profile_with_list, Hup'.
    cbn [from_option]. unfold id. cbn [py_iter rbind]. by rewrite Hre'.
  - by rewrite !sorted_by_perm.
  - by apply sorted_by_better_in_order, leb_100_not_nan.
  - apply sorted_by_better_in_order, leb_100_not_nan. by rewrite <- Hperm.
Qed.

(** A search for two adults re-ranked for a group of seven with other
    needs. *)
Lemma recalculation_matches_search_witness :
  let data' : gmap string json :=
    <[ "adult_count" := JInt 7 ]> (<[ "supply_c" := JStr "最高" ]> search_request) in
  let body :=
    match get_disaster_shelters (H := sample_externals) search_request (Ok sample_rows)
            sample_draws with
    | Json200 body => body
    | Error500 _ => []
    end in
  ∃ fresh reranked,
    get_disaster_shelters (H := sample_externals) data' (Ok sample_rows) sample_draws
    = Json200 fresh ∧
    recalculate_shelters (H := sample_externals) (<[ "shelter_list" := JArr body ]> data')
    = Json200 reranked ∧
    fresh ≡ₚ reranked ∧ in_order not_worse fresh ∧ in_order not_worse reranked.
Proof.
  cbv zeta.
  apply (recalculation_matches_search (H := sample_externals) search_request _
           (Ok sample_rows) sample_draws _ (profile_of "最高" "最低" "最高" 7)).
  - apply sample_draws_range.
  - reflexivity.
  - reflexivity.
  - reflexivity.
  - reflexivity.
Defined.

(** X21.  The weight an item gets from a request: the profile an endpoint
    builds always names a priority for each of the three items, so the
    score's own default label is never used; a priority that is missing,
    [None] or the empty string weighs 3, and any other text weighs what the
    table gives its label. *)
Theorem request_weights `{Externals} data up item :
  make_profile data = Ok up → item ∈ supply_items →
  is_Some (needs up !! item) ∧
  match data !! item with
  | None | Some JNull | Some (JStr "") => item_weight up item = 3
  | Some v => item_weight up item = weight_of (py_str v)
  end.
Proof.
  unfold make_profile.
  destruct (safe_int (get data "adult_count") 1) as [adult|]; [cbn [rbind]|done].
  destruct (safe_int (get data "child_count") 0) as [child|]; [cbn [rbind]|done].
  intros [= <-] Hi.
  assert (needs {| needs :=
                     <[ "supply_a" := safe_str (get data "supply_a") "中" ]> (
                     <[ "supply_b" := safe_str (get data "supply_b") "中" ]> (
                     <[ "supply_c" := safe_str (get data "supply_c") "中" ]> ∅));
                   total_people := Z.max 1 (adult + child) |} !! item
          = Some (safe_str (get data item) "中")) as Hn.
  { unfold supply_items in Hi. cbn [needs].
    repeat (apply elem_of_cons in Hi as [->|Hi];
            [by rewrite ?lookup_insert_ne, lookup_insert_eq by done|]).
    by apply elem_of_nil in Hi. }
  split; [by rewrite Hn|].
  unfold item_weight. rewrite Hn. cbn [from_option]. unfold id, get.
  destruct (data !! item) as [v|]; [|reflexivity].
  destruct v as [|b|z|f|s|l|o]; try reflexivity.
  by destruct s.
Qed.

Lemma request_weights_witness :
  let data : gmap string json :=
    <[ "supply_a" := JStr "最低" ]> (<[ "supply_b" := JStr "" ]> ∅) in
  let up := profile_of "最低" "中" "中" 1 in
  (is_Some (needs up !! "supply_a") ∧ item_weight up "supply_a" = weight_of "最低") ∧
  (is_Some (needs up !! "supply_b") ∧ item_weight up "supply_b" = 3) ∧
  (is_Some (needs up !! "supply_c") ∧ item_weight up "supply_c" = 3).
Proof.
  cbv zeta.
  assert (make_profile (H := sample_externals)
            (<[ "supply_a" := JStr "最低" ]> (<[ "supply_b" := JStr "" ]> ∅))
          = Ok (profile_of "最低" "中" "中" 1)) as Hp by reflexivity.
  split; [|split].
  - exact (request_weights (H := sample_externals) _ _ "supply_a" Hp ltac:(in_list)).
  - exact (request_weights (H := sample_externals) _ _ "supply_b" Hp ltac:(in_list)).
  - exact (request_weights (H := sample_externals) _ _ "supply_c" Hp ltac:(in_list)).
Defined.
